(** * Sandboxed script executor (action/executor.py): a shallow embedding

    The development follows [src/action/executor.py].  Script text is a
    byte string (UTF-8), the syntax tree is the fragment of Python's [ast]
    that the executor inspects or creates, values are the Python values the
    result serializer distinguishes, and the session files are a finite map
    from path to file content.

    What the executor obtains from outside this file (the Python parser, the
    tool registry, the builtin functions, the logging helper, the time that
    passes) is gathered in one record, [host]; every definition of the
    executor is parameterised by it, and the concrete [demo_host]
    instantiates it for the examples.

    A run of the script is followed for a number of steps, the fuel: the
    executor's functions are total, and [run_user_code] gives [None] when
    the script has not come to an end within the fuel. *)

From Stdlib Require Import ZArith Lia Bool Ascii String DecimalString.
From stdpp Require Import base option list strings gmap.

#[local] Set Warnings "-register-all".

Local Open Scope string_scope.
Local Open Scope list_scope.

(** ** Strings *)

Module Str.

(** [s.startswith(p)] *)
Definition startswith (s p : string) : bool := String.prefix p s.

(** [p in s] *)
Fixpoint contains (s p : string) : bool :=
  String.prefix p s ||
  match s with
  | EmptyString => false
  | String _ s' => contains s' p
  end.

Definition lower_ascii (c : ascii) : ascii :=
  let n := nat_of_ascii c in
  if (65 <=? n)%nat && (n <=? 90)%nat then ascii_of_nat (n + 32) else c.

(** [s.lower()], on the ASCII letters.  The executor only looks for three
    ASCII patterns in the lowered text.  Outside ASCII, the only characters
    whose lower case has an ASCII letter in it give a [k], or an [i]
    followed by a combining dot; no pattern has a [k] in it, or an [i] that
    is not followed by a letter.  So on UTF-8 text the three tests of the
    failure scan agree with Python's. *)
Fixpoint lower (s : string) : string :=
  match s with
  | EmptyString => EmptyString
  | String c s' => String (lower_ascii c) (lower s')
  end.

Definition of_nat (n : nat) : string := NilZero.string_of_uint (Nat.to_uint n).
Definition of_Z (z : Z) : string := NilZero.string_of_int (Z.to_int z).

(** The characters [str.strip()] removes, within ASCII. *)
Definition is_space (c : ascii) : bool :=
  let n := nat_of_ascii c in
  ((9 <=? n)%nat && (n <=? 13)%nat) || ((28 <=? n)%nat && (n <=? 32)%nat).

Fixpoint lstrip (s : string) : string :=
  match s with
  | String c s' => if is_space c then lstrip s' else s
  | EmptyString => EmptyString
  end.

Fixpoint rstrip (s : string) : string :=
  match s with
  | EmptyString => EmptyString
  | String c s' =>
      match rstrip s' with
      | EmptyString => if is_space c then EmptyString else String c EmptyString
      | r => String c r
      end
  end.

Definition strip (s : string) : string := rstrip (lstrip s).

Definition nl : string := String (ascii_of_nat 10) EmptyString.
Definition dquote : string := String (ascii_of_nat 34) EmptyString.
Definition triple_quote : string := dquote +:+ dquote +:+ dquote.

(** [s.split("\n")] *)
Fixpoint lines (s : string) : list string :=
  match s with
  | EmptyString => [EmptyString]
  | String c s' =>
      if Ascii.eqb c (ascii_of_nat 10) then EmptyString :: lines s'
      else match lines s' with
           | l :: ls => String c l :: ls
           | [] => [String c EmptyString]
           end
  end.

(** ["\n".join(ls)] *)
Fixpoint unlines (ls : list string) : string :=
  match ls with
  | [] => EmptyString
  | [l] => l
  | l :: ls' => l +:+ nl +:+ unlines ls'
  end.

Definition is_blank (c : ascii) : bool :=
  Ascii.eqb c " "%char || Ascii.eqb c (ascii_of_nat 9).

Fixpoint leading_blanks (s : string) : string :=
  match s with
  | String c s' => if is_blank c then String c (leading_blanks s') else EmptyString
  | EmptyString => EmptyString
  end.

Fixpoint all_blank (s : string) : bool :=
  match s with
  | String c s' => is_blank c && all_blank s'
  | EmptyString => true
  end.

Fixpoint common_prefix (a b : string) : string :=
  match a, b with
  | String x a', String y b' =>
      if Ascii.eqb x y then String x (common_prefix a' b') else EmptyString
  | _, _ => EmptyString
  end.

Fixpoint drop (n : nat) (s : string) : string :=
  match n, s with
  | O, _ => s
  | S n', String _ s' => drop n' s'
  | S _, EmptyString => EmptyString
  end.

(** [textwrap.dedent]: lines of blanks only are emptied, then the longest
    run of blanks that starts every other line is removed from each. *)
Definition dedent (text : string) : string :=
  let ls := map (fun l => if all_blank l then EmptyString else l) (lines text) in
  let indents := map leading_blanks (filter (fun l => l ≠ EmptyString) ls) in
  match indents with
  | [] => unlines ls
  | i0 :: rest =>
      let margin := foldr common_prefix i0 rest in
      unlines (map (fun l => if String.prefix margin l
                             then drop (String.length margin) l else l) ls)
  end.


Definition cat (parts : list string) : string := String.concat EmptyString parts.

(** A character of the class [\w] within ASCII: a letter, a digit or the
    underscore. *)
Definition is_ascii_word (c : ascii) : bool :=
  let n := nat_of_ascii c in
  ((48 <=? n)%nat && (n <=? 57)%nat) || ((65 <=? n)%nat && (n <=? 90)%nat)
  || ((97 <=? n)%nat && (n <=? 122)%nat) || (n =? 95)%nat.

(** A character of the class [\w].  Outside ASCII the class has the letters
    and the digits of Unicode; a byte of a longer UTF-8 sequence is counted
    as one of them, which is right for text whose characters outside ASCII
    are letters and digits, and wrong for the others (a currency sign, a
    dash, an emoji): there [re] ends the word where this function goes
    on. *)
Definition is_word (c : ascii) : bool :=
  is_ascii_word c || (128 <=? nat_of_ascii c)%nat.

(** Every character of the text is a letter, a digit or an underscore of
    ASCII. *)
Fixpoint all_ascii_word (s : string) : bool :=
  match s with
  | EmptyString => true
  | String c s' => is_ascii_word c && all_ascii_word s'
  end.

Fixpoint take_word (s : string) : string :=
  match s with
  | String c s' => if is_word c then String c (take_word s') else EmptyString
  | EmptyString => EmptyString
  end.

Definition match_word_at (p q s : string) : option string :=
  if String.prefix p s then
    let rest := drop (String.length p) s in
    let w := take_word rest in
    if negb (String.eqb w EmptyString) && String.prefix q (drop (String.length w) rest)
    then Some w else None
  else None.

(** [re.search(p + "(\w+)" + q, s)], for literal [p] and a literal [q]
    that starts with a character outside [\w]: the group of the leftmost
    match. *)
Fixpoint search_word (p q s : string) : option string :=
  match match_word_at p q s with
  | Some w => Some w
  | None =>
      match s with
      | EmptyString => None
      | String _ s' => search_word p q s'
      end
  end.

End Str.

(** ** Python dictionaries

    A [dict] keeps its keys in insertion order, and the executor depends on
    that order (the failure scan reports the first flagged field), so a
    dictionary is an association list with at most one entry per key.  Keys
    are strings: the mappings the executor builds and inspects are keyed by
    names. *)

Module Dict.
Section Ops.
Context {A : Type}.
Definition t := list (string * A).

(** [d.get(k)] *)
Fixpoint get (d : t) (k : string) : option A :=
  match d with
  | [] => None
  | (k', v) :: d' => if String.eqb k' k then Some v else get d' k
  end.

(** [d[k] = v]: in place when the key is there, at the end otherwise *)
Fixpoint set (d : t) (k : string) (v : A) : t :=
  match d with
  | [] => [(k, v)]
  | (k', v') :: d' =>
      if String.eqb k' k then (k', v) :: d' else (k', v') :: set d' k v
  end.

(** [d.update(m)], also [{**d, **m}] *)
Definition update (d m : t) : t :=
  fold_left (fun acc kv => set acc kv.1 kv.2) m d.

Definition keys (d : t) : list string := map fst d.
Definition values (d : t) : list A := map snd d.
Definition wf (d : t) : Prop := NoDup (keys d).
End Ops.
Arguments t : clear implicits.
End Dict.

(** ** Values *)

(** Objects of the host that a script can name: a builtin of
    [SAFE_BUILTINS], a module of [ALLOWED_MODULES], the proxy of a tool, and
    the two convenience bindings of [build_safe_globals]. *)
Inductive native : Type :=
| NBuiltin (name : string)
| NModule (name : string)
| NProxy (tool : string)
| NFinalAnswer
| NParallel.

(** The values the result serializer tells apart.  [VObj] is any other
    object: its class name, the attributes it has, and its [str()]; a tool
    outcome ([ActionResultOutput]) is a [VObj] with [success], [content] and
    [error].  [VCoro] is the coroutine a tool proxy returns when called, and
    [VCoroPar] the one [parallel] returns.  Floats, tuples and sets are left
    out of the fragment. *)
Inductive value : Type :=
| VNone
| VBool (b : bool)
| VInt (n : Z)
| VStr (s : string)
| VList (items : list value)
| VDict (items : list (string * value))
| VObj (cls : string) (attrs : list (string * value)) (text : string)
| VNative (f : native)
| VCoro (tool : string) (args : list value)
| VCoroPar (calls : list value).

Abbreviation pydict := (Dict.t value).

(** [bool(v)] *)
Definition truthy (v : value) : bool :=
  match v with
  | VNone => false
  | VBool b => b
  | VInt n => negb (n =? 0)%Z
  | VStr s => negb (String.eqb s "")
  | VList l => match l with [] => false | _ => true end
  | VDict d => match d with [] => false | _ => true end
  | _ => true
  end.

(** [hasattr(v, a)] and [getattr(v, a)], for the attributes the serializer
    probes; none of the other values has one of them. *)
Definition getattr (v : value) (a : string) : option value :=
  match v with
  | VObj _ attrs _ => Dict.get attrs a
  | _ => None
  end.

Definition hasattr (v : value) (a : string) : bool := bool_decide (is_Some (getattr v a)).

(** The builtins of [SAFE_BUILTINS] that are classes. *)
Definition builtin_classes : list string :=
  ["bool"; "int"; "float"; "str"; "list"; "dict"; "set"; "tuple"; "complex";
   "range"; "enumerate"; "zip"; "map"; "filter"; "reversed"; "type"].

(** [type(v).__name__] *)
Definition type_name (v : value) : string :=
  match v with
  | VNone => "NoneType"
  | VBool _ => "bool"
  | VInt _ => "int"
  | VStr _ => "str"
  | VList _ => "list"
  | VDict _ => "dict"
  | VObj cls _ _ => cls
  | VNative (NBuiltin n) =>
      if bool_decide (n ∈ builtin_classes) then "type" else "builtin_function_or_method"
  | VNative (NModule _) => "module"
  | VNative _ => "function"
  | VCoro _ _ | VCoroPar _ => "coroutine"
  end.

(** ** Exceptions *)

(** Which [except] clause of [run_user_code] an exception reaches: the
    clauses are tried in this order, and a class stands for itself and its
    subclasses ([UnboundLocalError] before [NameError], [JSONDecodeError]
    under [ValueError]). *)
Inductive exc_class : Type :=
| TimeoutErr | UnboundLocalErr | NameErr | ValueErr | AttributeErr | OtherErr.

Record exn : Type := Exn {
  exn_class : exc_class;
  exn_type : string;   (* type(e).__name__ *)
  exn_msg : string     (* str(e) *)
}.

Definition TypeError (msg : string) : exn := Exn OtherErr "TypeError" msg.
Definition ValueError (msg : string) : exn := Exn ValueErr "ValueError" msg.
Definition SyntaxError (msg : string) : exn := Exn OtherErr "SyntaxError" msg.

(** A call that returns or raises. *)
Inductive py (A : Type) : Type :=
| Returns (a : A)
| Raises (e : exn).
Arguments Returns {A} a.
Arguments Raises {A} e.

(** ** Syntax trees *)

Inductive constant : Type :=
| CNone | CBool (b : bool) | CInt (n : Z) | CStr (s : string).

(** The expressions of the fragment.  A [Dict] display has string literals
    as keys; a keyword of a call is [(Some name, value)], or [(None, value)]
    for [**value]. *)
Inductive expr : Type :=
| Constant (c : constant)
| Name (id : string)
| Call (func : expr) (args : list expr) (keywords : list (option string * expr))
| Await (value : expr)
| DictE (items : list (string * expr))
| ListE (elts : list expr).

(** The statements of the fragment.  The targets of an assignment are
    names. *)
Inductive stmt : Type :=
| Assign (targets : list string) (value : expr)
| Return (value : option expr)
| Expr (value : expr)
| Pass
| While (test : expr) (body : list stmt)
| If (test : expr) (body orelse : list stmt).

Definition value_of_constant (c : constant) : value :=
  match c with
  | CNone => VNone
  | CBool b => VBool b
  | CInt n => VInt n
  | CStr s => VStr s
  end.

Section ExprInd.
Variable P : expr -> Prop.
Hypothesis HConstant : forall c, P (Constant c).
Hypothesis HName : forall id, P (Name id).
Hypothesis HCall : forall f args kws,
    P f -> Forall P args -> Forall (fun kw => P kw.2) kws -> P (Call f args kws).
Hypothesis HAwait : forall e, P e -> P (Await e).
Hypothesis HDict : forall items, Forall (fun kv => P kv.2) items -> P (DictE items).
Hypothesis HList : forall elts, Forall P elts -> P (ListE elts).

Fixpoint expr_ind' (e : expr) : P e :=
  match e with
  | Constant c => HConstant c
  | Name id => HName id
  | Call f args kws =>
      HCall f args kws (expr_ind' f)
        ((fix go l : Forall P l :=
            match l with
            | [] => List.Forall_nil _
            | x :: l' => List.Forall_cons _ _ _ (expr_ind' x) (go l')
            end) args)
        ((fix go l : Forall (fun kw : option string * expr => P kw.2) l :=
            match l with
            | [] => List.Forall_nil _
            | x :: l' => List.Forall_cons _ _ _ (expr_ind' x.2) (go l')
            end) kws)
  | Await e' => HAwait e' (expr_ind' e')
  | DictE items =>
      HDict items
        ((fix go l : Forall (fun kv : string * expr => P kv.2) l :=
            match l with
            | [] => List.Forall_nil _
            | x :: l' => List.Forall_cons _ _ _ (expr_ind' x.2) (go l')
            end) items)
  | ListE elts =>
      HList elts
        ((fix go l : Forall P l :=
            match l with
            | [] => List.Forall_nil _
            | x :: l' => List.Forall_cons _ _ _ (expr_ind' x) (go l')
            end) elts)
  end.
End ExprInd.

Section StmtInd.
Variable P : stmt -> Prop.
Hypothesis HAssign : forall ts e, P (Assign ts e).
Hypothesis HReturn : forall e, P (Return e).
Hypothesis HExpr : forall e, P (Expr e).
Hypothesis HPass : P Pass.
Hypothesis HWhile : forall t b, Forall P b -> P (While t b).
Hypothesis HIf : forall t b c, Forall P b -> Forall P c -> P (If t b c).

Fixpoint stmt_ind' (s : stmt) : P s :=
  let go := fix go l : Forall P l :=
    match l with
    | [] => List.Forall_nil _
    | x :: l' => List.Forall_cons _ _ _ (stmt_ind' x) (go l')
    end in
  match s with
  | Assign ts e => HAssign ts e
  | Return e => HReturn e
  | Expr e => HExpr e
  | Pass => HPass
  | While t b => HWhile t b (go b)
  | If t b c => HIf t b c (go b) (go c)
  end.
End StmtInd.

(** ** The syntax-tree passes *)

Definition MAX_FUNCTIONS : nat := 20.
Definition TIMEOUT_PER_FUNCTION : nat := 50.

(** The number of [ast.Call] nodes [ast.walk] meets. *)
Fixpoint count_calls_expr (e : expr) : nat :=
  match e with
  | Constant _ | Name _ => 0
  | Call f args kws =>
      S (count_calls_expr f + sum_list (map count_calls_expr args)
         + sum_list (map (fun kw => count_calls_expr kw.2) kws))
  | Await e' => count_calls_expr e'
  | DictE items => sum_list (map (fun kv => count_calls_expr kv.2) items)
  | ListE elts => sum_list (map count_calls_expr elts)
  end%nat.

Fixpoint count_calls_stmt (s : stmt) : nat :=
  match s with
  | Assign _ e => count_calls_expr e
  | Return (Some e) => count_calls_expr e
  | Return None => 0
  | Expr e => count_calls_expr e
  | Pass => 0
  | While t b => count_calls_expr t + sum_list (map count_calls_stmt b)
  | If t b c =>
      count_calls_expr t + sum_list (map count_calls_stmt b)
      + sum_list (map count_calls_stmt c)
  end%nat.

Definition count_calls (tree : list stmt) : nat := sum_list (map count_calls_stmt tree).

(** A pass over the expressions of a statement, as [generic_visit] does. *)
Fixpoint visit_stmt (f : expr -> expr) (s : stmt) : stmt :=
  match s with
  | Assign ts e => Assign ts (f e)
  | Return e => Return (f <$> e)
  | Expr e => Expr (f e)
  | Pass => Pass
  | While t b => While (f t) (map (visit_stmt f) b)
  | If t b c => If (f t) (map (visit_stmt f) b) (map (visit_stmt f) c)
  end.

(** [KeywordStripper.visit_Call]: the children first, then the values of the
    keywords are appended to the positional arguments, in the order the
    call writes them. *)
Fixpoint strip_keywords (e : expr) : expr :=
  match e with
  | Constant c => Constant c
  | Name id => Name id
  | Call f args kws =>
      Call (strip_keywords f)
           (map strip_keywords args ++ map (fun kw => strip_keywords kw.2) kws) []
  | Await e' => Await (strip_keywords e')
  | DictE items => DictE (map (fun kv => (kv.1, strip_keywords kv.2)) items)
  | ListE elts => ListE (map strip_keywords elts)
  end.

Definition KeywordStripper (tree : list stmt) : list stmt :=
  map (visit_stmt strip_keywords) tree.

(** No call of the expression has a keyword. *)
Fixpoint keyword_free (e : expr) : bool :=
  match e with
  | Constant _ | Name _ => true
  | Call f args kws =>
      keyword_free f && forallb keyword_free args
      && match kws with [] => true | _ :: _ => false end
  | Await e' => keyword_free e'
  | DictE items => forallb (fun kv => keyword_free kv.2) items
  | ListE elts => forallb keyword_free elts
  end.

Fixpoint keyword_free_stmt (s : stmt) : bool :=
  match s with
  | Assign _ e | Expr e | Return (Some e) => keyword_free e
  | Return None | Pass => true
  | While t b => keyword_free t && forallb keyword_free_stmt b
  | If t b c => keyword_free t && forallb keyword_free_stmt b && forallb keyword_free_stmt c
  end.

(** Every call of a tool -- a call whose function is one of the names
    [async_funcs] -- is the operand of an [await]; [operand] says whether
    the expression is one. *)
Fixpoint tool_calls_awaited (async_funcs : list string) (operand : bool) (e : expr) : bool :=
  match e with
  | Constant _ | Name _ => true
  | Call f args kws =>
      (operand || negb match f with
                       | Name id => bool_decide (id ∈ async_funcs)
                       | _ => false
                       end)
      && tool_calls_awaited async_funcs false f
      && forallb (tool_calls_awaited async_funcs false) args
      && forallb (fun kw => tool_calls_awaited async_funcs false kw.2) kws
  | Await e' => tool_calls_awaited async_funcs true e'
  | DictE items => forallb (fun kv => tool_calls_awaited async_funcs false kv.2) items
  | ListE elts => forallb (tool_calls_awaited async_funcs false) elts
  end.

Fixpoint tool_calls_awaited_stmt (async_funcs : list string) (s : stmt) : bool :=
  match s with
  | Assign _ e | Expr e | Return (Some e) => tool_calls_awaited async_funcs false e
  | Return None | Pass => true
  | While t b =>
      tool_calls_awaited async_funcs false t
      && forallb (tool_calls_awaited_stmt async_funcs) b
  | If t b c =>
      tool_calls_awaited async_funcs false t
      && forallb (tool_calls_awaited_stmt async_funcs) b
      && forallb (tool_calls_awaited_stmt async_funcs) c
  end.

(** The expression has no suspension point: no [await], and no call whose
    function is one of the names [async_funcs], which [AwaitTransformer]
    marks with an [await].  ([parallel] suspends only where it is awaited.) *)
Fixpoint suspension_free (async_funcs : list string) (e : expr) : bool :=
  match e with
  | Constant _ | Name _ => true
  | Call f args kws =>
      negb match f with
           | Name id => bool_decide (id ∈ async_funcs)
           | _ => false
           end
      && suspension_free async_funcs f
      && forallb (suspension_free async_funcs) args
      && forallb (fun kw => suspension_free async_funcs kw.2) kws
  | Await _ => false
  | DictE items => forallb (fun kv => suspension_free async_funcs kv.2) items
  | ListE elts => forallb (suspension_free async_funcs) elts
  end.

Fixpoint suspension_free_stmt (async_funcs : list string) (s : stmt) : bool :=
  match s with
  | Assign _ e | Expr e | Return (Some e) => suspension_free async_funcs e
  | Return None | Pass => true
  | While t b =>
      suspension_free async_funcs t && forallb (suspension_free_stmt async_funcs) b
  | If t b c =>
      suspension_free async_funcs t
      && forallb (suspension_free_stmt async_funcs) b
      && forallb (suspension_free_stmt async_funcs) c
  end.

(** What the specification says of the rewrite, call by call, to compare
    with [strip_keywords]: [positional e e'] when [e'] is [e] with the
    keyword arguments of every call expression, at whatever depth, written
    as positional arguments after the positional arguments of the call, in
    the order in which the call writes them and without their names. *)
Inductive positional : expr -> expr -> Prop :=
| positional_Constant c : positional (Constant c) (Constant c)
| positional_Name id : positional (Name id) (Name id)
| positional_Call f f' args kws all :
    positional f f' ->
    Forall2 positional (args ++ map snd kws) all ->
    positional (Call f args kws) (Call f' all [])
| positional_Await e e' : positional e e' -> positional (Await e) (Await e')
| positional_DictE items items' :
    Forall2 (fun kv kv' => kv.1 = kv'.1 /\ positional kv.2 kv'.2) items items' ->
    positional (DictE items) (DictE items')
| positional_ListE elts elts' :
    Forall2 positional elts elts' -> positional (ListE elts) (ListE elts').

(** The same for the statements of a script. *)
Inductive positional_stmt : stmt -> stmt -> Prop :=
| positional_Assign ts e e' : positional e e' -> positional_stmt (Assign ts e) (Assign ts e')
| positional_Return e e' :
    positional e e' -> positional_stmt (Return (Some e)) (Return (Some e'))
| positional_Return_None : positional_stmt (Return None) (Return None)
| positional_Expr e e' : positional e e' -> positional_stmt (Expr e) (Expr e')
| positional_Pass : positional_stmt Pass Pass
| positional_While t t' b b' :
    positional t t' -> Forall2 positional_stmt b b' ->
    positional_stmt (While t b) (While t' b')
| positional_If t t' b b' c c' :
    positional t t' -> Forall2 positional_stmt b b' -> Forall2 positional_stmt c c' ->
    positional_stmt (If t b c) (If t' b' c').

(** What the specification says of the rewrite, to compare with
    [strip_keywords]: the named arguments become positional "in declaration
    order", that of the parameters [params] of the callee.  The positional
    arguments take the first parameters, and each parameter after them takes
    the keyword argument of its name. *)
Definition positional_in_declaration_order
    (params : list string) (args : list expr) (kws : list (option string * expr))
  : list expr :=
  args ++ omap (fun p => snd <$> find (fun kw => bool_decide (kw.1 = Some p)) kws)
               (drop (length args) params).

(** [AwaitTransformer.visit_Call]: the children first, then a call whose
    function is the name of a tool is wrapped in [Await]. *)
Fixpoint auto_await (async_funcs : list string) (e : expr) : expr :=
  match e with
  | Constant c => Constant c
  | Name id => Name id
  | Call f args kws =>
      let f' := auto_await async_funcs f in
      let node := Call f' (map (auto_await async_funcs) args)
                       (map (fun kw => (kw.1, auto_await async_funcs kw.2)) kws) in
      match f' with
      | Name id => if bool_decide (id ∈ async_funcs) then Await node else node
      | _ => node
      end
  | Await e' => Await (auto_await async_funcs e')
  | DictE items => DictE (map (fun kv => (kv.1, auto_await async_funcs kv.2)) items)
  | ListE elts => ListE (map (auto_await async_funcs) elts)
  end.

Definition AwaitTransformer (async_funcs : list string) (tree : list stmt) : list stmt :=
  map (visit_stmt (auto_await async_funcs)) tree.

(** The loop of [run_user_code] over the top-level statements: a
    [return <name>] becomes [return {"<name>": <name>}]. *)
Definition rewrite_return (node : stmt) : stmt :=
  match node with
  | Return (Some (Name varname)) => Return (Some (DictE [(varname, Name varname)]))
  | _ => node
  end.

Definition is_return (node : stmt) : bool :=
  match node with Return _ => true | _ => false end.

Definition return_found (body : list stmt) : bool := existsb is_return body.

(** [{node.targets[0].id for node in tree.body if isinstance(node, ast.Assign) ...}] *)
Definition result_vars (body : list stmt) : list string :=
  omap (fun node => match node with
                    | Assign (t :: _) _ => Some t
                    | _ => None
                    end) body.

Definition normalize_body (body : list stmt) : list stmt :=
  let new_body := map rewrite_return body in
  if negb (return_found body) && bool_decide ("result" ∈ result_vars body)
  then new_body ++ [Return (Some (Name "result"))]
  else new_body.

(** [fix_unterminated_triple_quotes] *)
Fixpoint count_triple_quotes (fuel : nat) (code : string) : nat :=
  match fuel with
  | O => O
  | S fuel' =>
      match code with
      | EmptyString => O
      | String c rest =>
          if String.prefix Str.triple_quote code
          then S (count_triple_quotes fuel' (Str.drop 3 code))
          else count_triple_quotes fuel' rest
      end
  end.

Definition fix_unterminated_triple_quotes (code : string) : string :=
  if Nat.odd (count_triple_quotes (String.length code) code)
  then code +:+ Str.nl +:+ Str.triple_quote
  else code.

(** ** The host *)

(** What a run does outside its own memory, in the order it happens. *)
Inductive event : Type :=
| ToolCall (tool : string) (args : list value)   (* a call of multi_mcp.function_wrapper *)
| ParallelCall (calls : list value)              (* the body of [parallel] *)
| FileRead (path : string)
| FileWrite (path : string).

(** The answer of the tool registry to one awaited call: how long the caller
    stays suspended (in milliseconds), and the value returned or the
    exception raised. *)
Record reply : Type := Reply {
  duration : nat;
  outcome : py value
}.

(** What [ast.parse] gives: the statements of the module, or a
    [SyntaxError] with its text. *)
Inductive parsed : Type :=
| Module_ (body : list stmt)
| NoParse (msg : string).

(** The collaborators of the executor.  [ast_parse] is Python's
    [ast.parse]; [get_all_tools] the names of the registered tools;
    [function_wrapper] the tool registry, and [gather] what
    [asyncio.gather] makes of the calls handed to [parallel], both of which
    may answer by what happened before; [call_builtin] the builtin
    functions; [repr] Python's [repr] of a container; [unbound_local_msg]
    the text of an [UnboundLocalError], which differs between Python
    versions; [cpu_cost] the time a statement takes to run, in
    milliseconds.

    [log_json_block] is [utils.utils.log_json_block], which is not among the
    sources: [run_user_code] hands it the result mapping just before the
    mapping is saved, and what it does with a mapping that is not JSON
    (print it, or raise) is not known here; [log_json_block_spec] below is
    the logger that encodes what it logs.  The other two helpers of
    [utils.utils], [log_step] and [log_error], are handed a line of text;
    they print it, and are left out.

    The tools and the builtins answer with a value or an exception and are
    given no access to the session files: a script that reaches the file
    system by itself, through [__import__], is not described. *)
Record host : Type := Host {
  ast_parse : string -> parsed;
  get_all_tools : list string;
  function_wrapper : list event -> string -> list value -> reply;
  gather : list event -> list value -> reply;
  call_builtin : string -> list value -> py value;
  repr : value -> string;
  unbound_local_msg : string -> string;
  cpu_cost : nat;
  log_json_block : list (string * value) -> py unit
}.

(** [str(v)], also what an f-string prints.  The text of a function or a
    coroutine has an address in it and that of a module the place it was
    loaded from, which are left out. *)
Definition py_str (H : host) (v : value) : string :=
  match v with
  | VNone => "None"
  | VBool true => "True"
  | VBool false => "False"
  | VInt n => Str.of_Z n
  | VStr s => s
  | VList _ | VDict _ => repr H v
  | VObj _ _ text => text
  | VNative (NBuiltin n) =>
      if bool_decide (n ∈ builtin_classes) then "<class '" +:+ n +:+ "'>"
      else "<built-in function " +:+ n +:+ ">"
  | VNative (NModule n) => "<module '" +:+ n +:+ "'>"
  | VNative (NProxy _) => "<function make_tool_proxy.<locals>._tool_fn>"
  | VNative NFinalAnswer => "<function build_safe_globals.<locals>.<lambda>>"
  | VNative NParallel => "<function build_safe_globals.<locals>.parallel>"
  | VCoro _ _ => "<coroutine object make_tool_proxy.<locals>._tool_fn>"
  | VCoroPar _ => "<coroutine object build_safe_globals.<locals>.parallel>"
  end.

(** ** The session store *)

(** A session file holds a JSON object, or text that [json.load] rejects. *)
Inductive file : Type :=
| JsonFile (content : pydict)
| CorruptFile.

Abbreviation fsys := (gmap string file).

(** The file of a session.  The session files are told apart by their
    paths, byte for byte, as a file system does that neither folds case nor
    normalizes names; an identifier with a path separator in it, which may
    name the file of another identifier or a file of another directory, is
    outside what the map of the files describes (see [is_file_name]). *)
Definition session_path (session_id : string) : string :=
  "action/sandbox_state/" +:+ session_id +:+ ".json".

(** What [json.load] raises on text that is not JSON.  Its message goes on
    with the place of the error in the text, which is left out here. *)
Definition JSONDecodeError : exn := Exn ValueErr "JSONDecodeError" "Expecting value".

(** [sys.get_int_max_str_digits()], as Python sets it when it starts: an
    integer with more decimal digits is not converted to text. *)
Definition INT_MAX_STR_DIGITS : nat := 4300.

(** The number of decimal digits of an integer. *)
Definition int_digits (n : Z) : nat := String.length (Str.of_Z (Z.abs n)).

Definition int_too_long (n : Z) : bool := (INT_MAX_STR_DIGITS <? int_digits n)%nat.
Arguments int_too_long : simpl never.

(** The first object [json.dump] cannot encode, in the order it writes: an
    object that is none of the JSON types, or an integer of more than
    [INT_MAX_STR_DIGITS] digits.  The values are taken to be nested less
    deeply than the interpreter allows its calls to be, and a string to be
    text that UTF-8 can encode (a string with a lone surrogate in it has no
    byte string here). *)
Fixpoint json_unserializable (v : value) : option value :=
  match v with
  | VNone | VBool _ | VStr _ => None
  | VInt n => if int_too_long n then Some v else None
  | VList l =>
      (fix go l := match l with
                   | [] => None
                   | x :: l' => match json_unserializable x with
                                | Some b => Some b
                                | None => go l'
                                end
                   end) l
  | VDict d =>
      (fix go (d : list (string * value)) :=
         match d with
         | [] => None
         | kv :: d' => match json_unserializable kv.2 with
                       | Some b => Some b
                       | None => go d'
                       end
         end) d
  | _ => Some v
  end.

(** Every field of the mapping can be encoded. *)
Definition json_safe (d : pydict) : Prop :=
  Forall (fun kv => json_unserializable kv.2 = None) d.

(** What [json.dump] raises when it comes to [bad]. *)
Definition json_error (bad : value) : exn :=
  match bad with
  | VInt _ =>
      ValueError ("Exceeds the limit (" +:+ Str.of_nat INT_MAX_STR_DIGITS
                  +:+ " digits) for integer string conversion; "
                  +:+ "use sys.set_int_max_str_digits() to increase the limit")
  | _ => TypeError ("Object of type " +:+ type_name bad +:+ " is not JSON serializable")
  end.

(** A session identifier that names a file of the directory of the
    sessions: it has no path separator and no NUL in it, and with its
    extension it is no longer than a file name may be (255 bytes). *)
Definition is_file_name (session_id : string) : bool :=
  negb (Str.contains session_id "/")
  && negb (Str.contains session_id (String (ascii_of_nat 0) EmptyString))
  && (String.length session_id + 5 <=? 255)%nat.

(** [load_session_vars]: a missing file is the empty mapping; a file that
    is not JSON raises [JSONDecodeError], which nothing here catches. *)
Definition load_session_vars (fs : fsys) (session_id : string) : py pydict :=
  match fs !! session_path session_id with
  | None => Returns []
  | Some (JsonFile d) => Returns d
  | Some CorruptFile => Raises JSONDecodeError
  end.

(** [save_session_vars].  The file is opened for writing, hence emptied,
    before [json.dump] runs, and [json.dump] writes as it goes: when it
    raises on a value it cannot encode, what is left in the file is not
    JSON. *)
Definition save_session_vars (fs : fsys) (session_id : string) (variables : pydict)
  : py unit * fsys * list event :=
  let path := session_path session_id in
  match load_session_vars fs session_id with
  | Raises e => (Raises e, fs, [FileRead path])
  | Returns existing =>
      let merged := Dict.update existing variables in
      match json_unserializable (VDict merged) with
      | Some bad =>
          (Raises (json_error bad),
           <[path := CorruptFile]> fs, [FileRead path; FileWrite path])
      | None => (Returns (), <[path := JsonFile merged]> fs, [FileRead path; FileWrite path])
      end
  end.

(** The session files after [save_session_vars], and how the call ended. *)
Definition saved (fs : fsys) (session_id : string) (variables : pydict) : fsys :=
  (save_session_vars fs session_id variables).1.2.
Definition save_outcome (fs : fsys) (session_id : string) (variables : pydict) : py unit :=
  (save_session_vars fs session_id variables).1.1.

(** Modelled from the spec: [utils.utils.log_json_block] is not among the
    sources.  The specification takes the mapping that the serializer makes
    to be a JSON-safe mapping (4.5) and a write of the session store never
    to be destructive (3); the helper is taken to do what its name says, to
    log the mapping as a block of JSON: it encodes the mapping as
    [json.dump] does, and raises what [json.dump] raises on a mapping that
    cannot be encoded. *)
Definition log_json_block_spec (block : pydict) : py unit :=
  match json_unserializable (VDict block) with
  | Some bad => Raises (json_error bad)
  | None => Returns ()
  end.

(** ** The sandbox namespace *)

Definition ALLOWED_MODULES : list string :=
  ["math"; "random"; "re"; "datetime"; "time"; "collections"; "itertools";
   "statistics"; "string"; "functools"; "operator"; "json"; "pprint"; "copy";
   "typing"; "uuid"; "hashlib"; "base64"; "hmac"; "struct"; "decimal"; "fractions"].

Definition SAFE_BUILTINS : list string :=
  ["bool"; "int"; "float"; "str"; "list"; "dict"; "set"; "tuple"; "complex";
   "range"; "enumerate"; "zip"; "map"; "filter"; "reversed"; "next";
   "abs"; "round"; "divmod"; "pow"; "sum"; "min"; "max"; "all"; "any";
   "ord"; "chr"; "len"; "sorted";
   "isinstance"; "issubclass"; "type"; "id";
   "callable"; "hash"; "format";
   "__import__";
   "print"; "locals"; "globals"; "repr"].

(** [make_tool_proxy]: the asynchronous function that forwards its
    arguments to the registry under the name of the tool. *)
Definition make_tool_proxy (tool_name : string) : value := VNative (NProxy tool_name).

(** [{tool.name: make_tool_proxy(tool.name, multi_mcp) for tool in ...}] *)
Definition tool_funcs (H : host) : pydict :=
  fold_left (fun d name => Dict.set d name (make_tool_proxy name)) (get_all_tools H) [].

(** [build_safe_globals].  [ALLOWED_MODULES] is a set in the source, so the
    order in which the modules enter the namespace is not fixed there; the
    order written is taken.  The session variables are merged after the
    tools, the modules and [final_answer], and before [parallel].
    [multi_mcp] is the tool registry, [None] by default: [parallel] is bound
    only when it is given ([if multi_mcp:]; the registry is an object that
    is true, as an object is whose class defines neither [__bool__] nor
    [__len__]). *)
Definition build_safe_globals (mcp_funcs : pydict) (multi_mcp : option host) (fs : fsys)
    (session_id : string) : py pydict :=
  let g0 : pydict :=
    [("__builtins__", VDict (map (fun k => (k, VNative (NBuiltin k))) SAFE_BUILTINS))] in
  let g1 := Dict.update g0 mcp_funcs in
  let g2 := fold_left (fun d m => Dict.set d m (VNative (NModule m))) ALLOWED_MODULES g1 in
  let g3 := Dict.set g2 "final_answer" (VNative NFinalAnswer) in
  match (if String.eqb session_id "" then Returns g3
         else match load_session_vars fs session_id with
              | Returns vars => Returns (Dict.update g3 vars)
              | Raises e => Raises e
              end) with
  | Raises e => Raises e
  | Returns g4 =>
      let g5 := match multi_mcp with
                | Some _ => Dict.set g4 "parallel" (VNative NParallel)
                | None => g4
                end in
      let schema :=
        filter (fun kv => kv.1 ∉ ["__builtins__"; "final_answer"; "parallel"]) g5 in
      Returns (Dict.set g5 "globals_schema" (VDict schema))
  end.

(** ** Running the wrapped script *)

(** The memory of one run of [__main]: its local variables, the sandbox (the
    globals of [exec]), the time since [asyncio.wait_for] started the task
    (in milliseconds), and the events so far. *)
Record state : Type := State {
  locals : pydict;
  globals : pydict;
  now : nat;
  trace : list event
}.

Definition set_local (st : state) (x : string) (v : value) : state :=
  State (Dict.set (locals st) x v) (globals st) (now st) (trace st).
Definition set_global (st : state) (x : string) (v : value) : state :=
  State (locals st) (Dict.set (globals st) x v) (now st) (trace st).
Definition elapse (st : state) (d : nat) : state :=
  State (locals st) (globals st) (now st + d) (trace st).
Definition record (st : state) (ev : event) : state :=
  State (locals st) (globals st) (now st) (trace st ++ [ev]).

(** An expression gives a value, raises, or is cancelled where it is
    suspended because the timer of [asyncio.wait_for] fired. *)
Inductive res (A : Type) : Type :=
| Ok (a : A) (st : state)
| Raise (e : exn) (st : state)
| Cancelled (st : state).
Arguments Ok {A} a st.
Arguments Raise {A} e st.
Arguments Cancelled {A} st.

Definition bind {A B} (m : res A) (k : A -> state -> res B) : res B :=
  match m with
  | Ok a st => k a st
  | Raise e st => Raise e st
  | Cancelled st => Cancelled st
  end.

Notation "'let*' x , st := m 'in' k" :=
  (bind m (fun x st => k)) (at level 10, x name, st name, k at level 200).

Definition lift {A} (r : py A) (st : state) : res A :=
  match r with
  | Returns a => Ok a st
  | Raises e => Raise e st
  end.

(** The names assigned somewhere in the body of [__main] are its local
    variables. *)
Fixpoint assigned (s : stmt) : list string :=
  match s with
  | Assign ts _ => ts
  | While _ b => concat (map assigned b)
  | If _ b c => concat (map assigned b) ++ concat (map assigned c)
  | _ => []
  end.

Definition local_names (body : list stmt) : list string := concat (map assigned body).

Section Run.
Context (H : host).
(** the local names of [__main], and the time at which the timer fires *)
Context (scope : list string) (deadline : nat).

(** Reading a name: a local variable, else a global of the sandbox, else
    a builtin. *)
Definition load_name (id : string) (st : state) : res value :=
  if bool_decide (id ∈ scope) then
    match Dict.get (locals st) id with
    | Some v => Ok v st
    | None => Raise (Exn UnboundLocalErr "UnboundLocalError" (unbound_local_msg H id)) st
    end
  else
    match Dict.get (globals st) id with
    | Some v => Ok v st
    | None =>
        match Dict.get (globals st) "__builtins__" with
        | Some (VDict b) =>
            match Dict.get b id with
            | Some v => Ok v st
            | None => Raise (Exn NameErr "NameError" ("name '" +:+ id +:+ "' is not defined")) st
            end
        | _ => Raise (Exn NameErr "NameError" ("name '" +:+ id +:+ "' is not defined")) st
        end
    end.

(** Calling [f] with positional arguments. *)
Definition apply (f : value) (args : list value) (st : state) : res value :=
  match f with
  | VNative (NBuiltin name) => lift (call_builtin H name args) st
  | VNative (NProxy tool) => Ok (VCoro tool args) st
  | VNative NParallel => Ok (VCoroPar args) st
  | VNative NFinalAnswer =>
      (* lambda x: safe_globals.setdefault("result_holder", x) *)
      match args with
      | [x] =>
          match Dict.get (globals st) "result_holder" with
          | Some v => Ok v st
          | None => Ok x (set_global st "result_holder" x)
          end
      | [] => Raise (TypeError "build_safe_globals.<locals>.<lambda>() missing 1 required positional argument: 'x'") st
      | _ => Raise (TypeError ("build_safe_globals.<locals>.<lambda>() takes 1 positional argument but "
                               +:+ Str.of_nat (length args) +:+ " were given")) st
      end
  | _ => Raise (TypeError ("'" +:+ type_name f +:+ "' object is not callable")) st
  end.

(** The task is suspended until the registry answers.  The timer of
    [asyncio.wait_for] is only looked at while the task is suspended: if
    the answer would not be there before [deadline], the task is
    cancelled. *)
Definition suspend (r : reply) (st : state) : res value :=
  if (deadline <=? now st + duration r)%nat then Cancelled st
  else lift (outcome r) (elapse st (duration r)).

(** [await v] *)
Definition await (v : value) (st : state) : res value :=
  match v with
  | VCoro tool args =>
      suspend (function_wrapper H (trace st) tool args) (record st (ToolCall tool args))
  | VCoroPar calls =>
      suspend (gather H (trace st) calls) (record st (ParallelCall calls))
  | _ => Raise (TypeError ("object " +:+ type_name v
                           +:+ " can't be used in 'await' expression")) st
  end.

Definition eval_list (ev : expr -> state -> res value)
  : list expr -> state -> res (list value) :=
  fix go l st :=
    match l with
    | [] => Ok [] st
    | e :: l' =>
        let* v, st := ev e st in
        let* vs, st := go l' st in
        Ok (v :: vs) st
    end.

Definition eval_items (ev : expr -> state -> res value)
  : list (string * expr) -> pydict -> state -> res pydict :=
  fix go l acc st :=
    match l with
    | [] => Ok acc st
    | kv :: l' =>
        let* v, st := ev kv.2 st in
        go l' (Dict.set acc kv.1 v) st
    end.

(** The executor runs trees that went through [KeywordStripper]: no call
    has keywords left (lemma [prepare_keyword_free]), and the evaluation of
    one that has is not part of the fragment. *)
Fixpoint eval (e : expr) (st : state) : res value :=
  match e with
  | Constant c => Ok (value_of_constant c) st
  | Name id => load_name id st
  | Call f args kws =>
      let* fv, st := eval f st in
      let* vs, st := eval_list eval args st in
      match kws with
      | [] => apply fv vs st
      | _ :: _ => Raise (TypeError "keyword arguments are not evaluated") st
      end
  | Await e' =>
      let* v, st := eval e' st in
      await v st
  | DictE items =>
      let* d, st := eval_items eval items [] st in
      Ok (VDict d) st
  | ListE elts =>
      let* vs, st := eval_list eval elts st in
      Ok (VList vs) st
  end.

(** What a statement does to the control flow.  [NoFuel] is not an outcome
    of the script: the run was not followed long enough. *)
Inductive sres : Type :=
| Next (st : state)
| Ret (v : value) (st : state)
| Err (e : exn) (st : state)
| Cancel (st : state)
| NoFuel.

Definition run_block (ex : stmt -> state -> sres) : list stmt -> state -> sres :=
  fix go l st :=
    match l with
    | [] => Next st
    | s :: l' =>
        match ex s st with
        | Next st' => go l' st'
        | r => r
        end
    end.

Definition on_value (m : res value) (k : value -> state -> sres) : sres :=
  match m with
  | Ok v st => k v st
  | Raise e st => Err e st
  | Cancelled st => Cancel st
  end.

(** One statement; running it takes [cpu_cost H].  The fuel bounds the
    nesting of the statements and the number of loop iterations that are
    followed. *)
Fixpoint exec (fuel : nat) (s : stmt) (st : state) : sres :=
  match fuel with
  | O => NoFuel
  | S fuel' =>
      let st := elapse st (cpu_cost H) in
      match s with
      | Assign targets e =>
          on_value (eval e st) (fun v st =>
            Next (fold_left (fun st x => set_local st x v) targets st))
      | Return None => Ret VNone st
      | Return (Some e) => on_value (eval e st) Ret
      | Expr e => on_value (eval e st) (fun _ st => Next st)
      | Pass => Next st
      | While test body =>
          on_value (eval test st) (fun t st =>
            if truthy t then
              match run_block (exec fuel') body st with
              | Next st' => exec fuel' (While test body) st'
              | r => r
              end
            else Next st)
      | If test body orelse =>
          on_value (eval test st) (fun t st =>
            run_block (exec fuel') (if truthy t then body else orelse) st)
      end
  end.

Definition exec_body (fuel : nat) (body : list stmt) (st : state) : sres :=
  run_block (exec fuel) body st.
End Run.

(** The script came to an end of its own: it ran to its last statement,
    returned, or raised. *)
Definition ended (r : sres) : bool :=
  match r with
  | Next _ | Ret _ _ | Err _ _ => true
  | Cancel _ | NoFuel => false
  end.





(** The timer did not stop the evaluation, the statement. *)
Definition not_cancelled {A} (r : res A) : Prop :=
  match r with
  | Cancelled _ => False
  | _ => True
  end.

Definition not_cancel (r : sres) : Prop :=
  match r with
  | Cancel _ => False
  | _ => True
  end.

(** ** The result serializer *)

(** ["\n".join(texts)]; an item that is not a string is a [TypeError]. *)
Fixpoint join_texts (i : nat) (texts : list value) : py string :=
  match texts with
  | [] => Returns ""
  | t :: rest =>
      match t with
      | VStr s =>
          match rest with
          | [] => Returns s
          | _ => match join_texts (S i) rest with
                 | Returns r => Returns (s +:+ Str.nl +:+ r)
                 | Raises e => Raises e
                 end
          end
      | _ => Raises (TypeError (Str.cat ["sequence item "; Str.of_nat i;
                                         ": expected str instance, "; type_name t; " found"]))
      end
  end.

(** [serialize_result], the local function of [run_user_code]. *)
Definition serialize_result (H : host) (v : value) : py value :=
  match v with
  | VNone | VBool _ | VInt _ | VStr _ | VList _ | VDict _ => Returns v
  | _ =>
      match getattr v "success", getattr v "content", getattr v "error" with
      | Some success, Some content, Some error =>
          if negb (truthy success)
          then Returns (VStr ("Error executing tool: " +:+ py_str H error))
          else Returns (if truthy content then content else VStr "Success")
      | _, _, _ =>
          match getattr v "content" with
          | Some (VList items) =>
              match join_texts 0 (omap (fun x => getattr x "text") items) with
              | Returns s => Returns (VStr s)
              | Raises e => Raises e
              end
          | _ => Returns (VStr (py_str H v))
          end
      end
  end.

(** [{k: serialize_result(v) for k, v in returned.items()}] *)
Fixpoint serialize_fields (H : host) (d : pydict) : py pydict :=
  match d with
  | [] => Returns []
  | (k, v) :: d' =>
      match serialize_result H v with
      | Raises e => Raises e
      | Returns v' =>
          match serialize_fields H d' with
          | Raises e => Raises e
          | Returns r => Returns ((k, v') :: r)
          end
      end
  end.

(** The test of the first scan, on one serialized field. *)
Definition signals_failure (v : value) : bool :=
  match v with
  | VStr s =>
      Str.startswith (Str.lower s) "error executing tool"
      || Str.startswith (Str.lower s) "error:"
      || Str.contains (Str.lower s) "failed"
  | _ => false
  end.

(** The test of the second scan, on one returned field: an object with a
    [success] attribute that is false. *)
Definition unsuccessful (v : value) : bool :=
  match getattr v "success" with
  | Some success => negb (truthy success)
  | None => false
  end.

(** [v.error if hasattr(v, "error") and v.error else f"Tool {k} failed"] *)
Definition failure_message (k : string) (v : value) : value :=
  match getattr v "error" with
  | Some error => if truthy error then error else VStr (Str.cat ["Tool "; k; " failed"])
  | None => VStr (Str.cat ["Tool "; k; " failed"])
  end.

(** The response of [run_user_code], without its two timing fields:
    [{"status": "success", "result": r, "raw": r}], or
    [{"status": "error", "error": e}] with or without a ["traceback"]. *)
Inductive envelope : Type :=
| EnvSuccess (result : pydict)
| EnvError (error : value) (traceback : bool).

Definition status (env : envelope) : string :=
  match env with
  | EnvSuccess _ => "success"
  | EnvError _ _ => "error"
  end.

(** What [run_user_code] makes of the value [__main] returned, up to the
    call of [save_session_vars]: the mapping to save, or the error response
    of one of the two scans.  The string scan runs first, over the
    serialized fields; the scan for unsuccessful outcomes runs second, over
    the fields as returned. *)
Definition collect_result (H : host) (returned : value) : py (envelope + pydict) :=
  match returned with
  | VDict d =>
      match (if bool_decide (Dict.keys d = ["result"])
             then match Dict.get d "result" with
                  | Some v => serialize_result H v
                  | None => Returns VNone
                  end
             else Returns VNone) with
      | Raises e => Raises e
      | Returns _ =>
          match serialize_fields H d with
          | Raises e => Raises e
          | Returns result_value =>
              match find signals_failure (Dict.values result_value) with
              | Some v => Returns (inl (EnvError v false))
              | None =>
                  match find (fun kv => unsuccessful kv.2) d with
                  | Some kv => Returns (inl (EnvError (failure_message kv.1 kv.2) false))
                  | None => Returns (inr result_value)
                  end
              end
          end
      end
  | _ =>
      match serialize_result H returned with
      | Raises e => Raises e
      | Returns v => Returns (inr [("result", v)])
      end
  end.

(** ** The error classifier: the [except] clauses of [run_user_code] *)

Definition browser_tools : list string :=
  ["open_tab"; "search_google"; "input_text_by_index"; "click_element_by_index"].

Definition unbound_local_hint (error_msg : string) : string :=
  match Str.search_word "local variable '" "' referenced before assignment" error_msg with
  | Some var_name =>
      Str.cat
        ["UnboundLocalError: Variable '"; var_name;
         "' was accessed before being assigned a value."; Str.nl;
         "This usually happens when:"; Str.nl;
         "  1. A tool call failed and the result wasn't checked before use"; Str.nl;
         "  2. The variable is used in a conditional that didn't execute"; Str.nl;
         "  3. The tool returned an error instead of expected data"; Str.nl; Str.nl;
         "💡 Fix: Always check if tool calls succeeded and handle errors:"; Str.nl;
         "   result = await tool_name(...)"; Str.nl;
         "   if isinstance(result, str) and result.startswith('[error]'):"; Str.nl;
         "       # Handle error case"; Str.nl;
         "   else:"; Str.nl;
         "       # Use result safely"; Str.nl]
  | None =>
      Str.cat
        ["UnboundLocalError: A variable was accessed before being assigned."; Str.nl;
         "Check your code to ensure all variables are assigned before use."]
  end.

Definition attribute_hint (error_msg : string) : string :=
  match Str.search_word "'" "'" error_msg with
  | Some attr_name =>
      Str.cat
        ["AttributeError: '"; attr_name; "' attribute not found."; Str.nl; Str.nl;
         "This often happens when:"; Str.nl;
         "  1. Extracting data from dynamic websites (real estate, e-commerce)"; Str.nl;
         "  2. The page structure changed or content hasn't loaded yet"; Str.nl;
         "  3. Trying to access attributes on None/empty objects"; Str.nl; Str.nl;
         "💡 Fix strategies:"; Str.nl;
         "  - Wait for page to load: use `wait(3)` after navigation"; Str.nl;
         "  - Check if object exists before accessing: `if result and hasattr(result, '";
         attr_name; "'):`"; Str.nl;
         "  - Use `get_comprehensive_markdown()` to see actual page content"; Str.nl;
         "  - Try extracting raw text first, then parse patterns"; Str.nl;
         "  - Scroll to reveal content: `scroll_down(500)`"; Str.nl;
         "  - Take screenshot to verify page state: `take_screenshot()`"; Str.nl; Str.nl;
         "Original error: "; error_msg]
  | None =>
      Str.cat
        ["AttributeError: An attribute was accessed that doesn't exist."; Str.nl; Str.nl;
         "This often happens with dynamic websites where content loads via JavaScript.";
         Str.nl;
         "Try waiting longer, checking if objects exist, or extracting raw text instead.";
         Str.nl; Str.nl;
         "Original error: "; error_msg]
  end.

(** The response for an exception raised inside the [try] of
    [run_user_code], once [func_count] is known. *)
Definition handle (func_count : nat) (e : exn) : envelope :=
  let error_msg := exn_msg e in
  match exn_class e with
  | TimeoutErr =>
      EnvError (VStr (Str.cat ["Execution timed out after ";
                               Str.of_nat (func_count * TIMEOUT_PER_FUNCTION); " seconds"]))
               false
  | UnboundLocalErr =>
      EnvError (VStr (Str.cat [unbound_local_hint error_msg; Str.nl; Str.nl;
                               "Original error: "; error_msg])) true
  | NameErr =>
      if existsb (Str.contains error_msg) browser_tools then
        EnvError (VStr (Str.cat [exn_type e; ": "; error_msg; Str.nl; Str.nl;
                                 "⚠️  Browser tools are not available. Make sure the browser MCP server is running:";
                                 Str.nl; "   uv run .\browserMCP\browser_mcp_sse.py"])) false
      else
        EnvError (VStr (Str.cat [exn_type e; ": "; error_msg; Str.nl; Str.nl;
                                 "💡 This usually means a function or variable name is misspelled or not defined."]))
                 true
  | ValueErr =>
      if Str.contains error_msg "expects" && Str.contains error_msg "args" then
        EnvError (VStr (Str.cat ["ValueError: Tool argument mismatch."; Str.nl;
                                 error_msg; Str.nl; Str.nl;
                                 "💡 Fix: Check the tool's expected arguments and provide them in the correct order."]))
                 true
      else EnvError (VStr ("ValueError: " +:+ error_msg)) true
  | AttributeErr => EnvError (VStr (attribute_hint error_msg)) true
  | OtherErr =>
      if Str.contains error_msg "Executable doesn't exist" || Str.contains error_msg "chrome.exe"
      then
        EnvError (VStr (Str.cat [exn_type e; ": "; error_msg; Str.nl; Str.nl;
                                 "⚠️  Playwright browser executable not found. Run: python -m playwright install chromium"]))
                 false
      else if Str.contains error_msg "Tool" || Str.contains (Str.lower error_msg) "tool"
      then
        EnvError (VStr (Str.cat [exn_type e; ": "; error_msg; Str.nl; Str.nl;
                                 "💡 This might be a tool execution error. Check:"; Str.nl;
                                 "  1. Tool name is correct"; Str.nl;
                                 "  2. Arguments match the tool's expected format"; Str.nl;
                                 "  3. Tool returned valid data (not an error message)"]))
                 true
      else EnvError (VStr (Str.cat [exn_type e; ": "; error_msg])) true
  end.

(** ** [run_user_code] *)

Definition too_many_functions (func_count : nat) : envelope :=
  EnvError (VStr (Str.cat ["Too many functions ("; Str.of_nat func_count; " > ";
                           Str.of_nat MAX_FUNCTIONS; ")"])) false.

(** [max(3, func_count * TIMEOUT_PER_FUNCTION)], in seconds *)
Definition timeout_of (func_count : nat) : nat :=
  Nat.max 3 (func_count * TIMEOUT_PER_FUNCTION).

(** [textwrap.dedent(code.strip())], repaired *)
Definition cleaned_code (code : string) : string :=
  fix_unterminated_triple_quotes (Str.dedent (Str.strip code)).

(** The three syntax-tree passes, in the order [run_user_code] applies
    them. *)
Definition prepare (H : host) (tree : list stmt) : list stmt :=
  normalize_body (AwaitTransformer (Dict.keys (tool_funcs H)) (KeywordStripper tree)).

(** The arguments of a call after [KeywordStripper] and [AwaitTransformer]:
    the positional ones, then the values of the keywords. *)
Definition prepared_arguments (H : host) (args : list expr)
    (kws : list (option string * expr)) : list expr :=
  map (auto_await (Dict.keys (tool_funcs H)))
      (map strip_keywords args ++ map (fun kw => strip_keywords kw.2) kws).

(** The passes over statements that stay where they are: all but the
    synthesized [return result]. *)
Definition passes (H : host) (body : list stmt) : list stmt :=
  map rewrite_return (AwaitTransformer (Dict.keys (tool_funcs H)) (KeywordStripper body)).

(** What [build_safe_globals] reads: the session file, unless the session
    identifier is empty. *)
Definition session_read (session_id : string) : list event :=
  if String.eqb session_id "" then [] else [FileRead (session_path session_id)].

(** The state in which [__main] starts. *)
Definition initial_state (sandbox : pydict) (events : list event) : state :=
  State [] sandbox 0 events.

(** The success path after [__main] returned: serialize, scan, log, save. *)
Definition finish (H : host) (func_count : nat) (session_id : string) (fs : fsys)
    (returned : value) (events : list event) : envelope * fsys * list event :=
  match collect_result H returned with
  | Raises e => (handle func_count e, fs, events)
  | Returns (inl failure) => (failure, fs, events)
  | Returns (inr result_value) =>
      match log_json_block H result_value with
      | Raises e => (handle func_count e, fs, events)
      | Returns _ =>
          match save_session_vars fs session_id result_value with
          | (Raises e, fs', written) => (handle func_count e, fs', events ++ written)
          | (Returns _, fs', written) => (EnvSuccess result_value, fs', events ++ written)
          end
      end
  end.

(** [count_function_calls]: it parses the text it is given.  Every failure
    of the parser goes under the name [SyntaxError]; Python reports some of
    them under the name of a subclass ([IndentationError], [TabError]). *)
Definition count_function_calls (H : host) (code : string) : py nat :=
  match ast_parse H code with
  | Module_ tree => Returns (count_calls tree)
  | NoParse msg => Raises (SyntaxError msg)
  end.

(** [run_user_code(code, multi_mcp, session_id)] on the session files [fs]:
    the response, the session files afterwards and the events, or [None]
    when the script is still running after [fuel] steps. *)
Definition run_user_code (H : host) (code session_id : string) (fs : fsys) (fuel : nat)
  : option (envelope * fsys * list event) :=
  match count_function_calls H code with
  | Raises e => Some (handle 0 e, fs, [])
  | Returns func_count =>
      if (MAX_FUNCTIONS <? func_count)%nat then Some (too_many_functions func_count, fs, [])
      else
        let events := session_read session_id in
        match build_safe_globals (tool_funcs H) (Some H) fs session_id with
        | Raises e => Some (handle func_count e, fs, events)
        | Returns sandbox =>
            match ast_parse H (cleaned_code code) with
            | NoParse msg => Some (handle func_count (SyntaxError msg), fs, events)
            | Module_ tree =>
                match prepare H tree with
                | [] =>
                    (* compile() refuses a function without statements *)
                    Some (handle func_count
                            (Exn ValueErr "ValueError" "empty body on AsyncFunctionDef"),
                          fs, events)
                | new_body =>
                    match exec_body H (local_names new_body)
                            (timeout_of func_count * 1000) fuel new_body
                            (initial_state sandbox events) with
                    | NoFuel => None
                    | Cancel st =>
                        Some (handle func_count (Exn TimeoutErr "TimeoutError" ""),
                              fs, trace st)
                    | Err e st => Some (handle func_count e, fs, trace st)
                    | Ret v st => Some (finish H func_count session_id fs v (trace st))
                    | Next st => Some (finish H func_count session_id fs VNone (trace st))
                    end
                end
            end
        end
  end.

(** ** A parser for the examples

    [Mini.parse] reads the one-line statements of the fragment the way
    [ast.parse] does: assignments to names, [return], [pass], expression
    statements, [while test: stmt] and [if test: stmt] on one line, with
    names, integers, plain string literals (no backslash), [True], [False],
    [None], calls with positional and keyword arguments, [await], list
    displays and dictionary displays keyed by string literals.  Text outside
    this fragment is reported as a syntax error, so [Mini.parse] stands for
    [ast.parse] only on scripts it accepts and on the malformed scripts of
    the examples.  The text of an error has no position in it. *)
Module Mini.

Inductive token : Type :=
| TName (s : string)
| TInt (n : Z)
| TStr (s : string)
| TOp (c : ascii)
| TNewline.

Definition keywords : list string :=
  ["False"; "None"; "True"; "and"; "as"; "assert"; "async"; "await"; "break";
   "class"; "continue"; "def"; "del"; "elif"; "else"; "except"; "finally";
   "for"; "from"; "global"; "if"; "import"; "in"; "is"; "lambda"; "nonlocal";
   "not"; "or"; "pass"; "raise"; "return"; "try"; "while"; "with"; "yield"].

Definition is_digit (c : ascii) : bool :=
  let n := nat_of_ascii c in (48 <=? n)%nat && (n <=? 57)%nat.
Definition is_ident_start (c : ascii) : bool :=
  let n := nat_of_ascii c in
  ((65 <=? n)%nat && (n <=? 90)%nat) || ((97 <=? n)%nat && (n <=? 122)%nat)
  || (n =? 95)%nat.
Definition is_ident (c : ascii) : bool := is_ident_start c || is_digit c.
Definition is_quote (c : ascii) : bool :=
  (nat_of_ascii c =? 34)%nat || (nat_of_ascii c =? 39)%nat.
Definition is_newline (c : ascii) : bool := (nat_of_ascii c =? 10)%nat.
Definition is_backslash (c : ascii) : bool := (nat_of_ascii c =? 92)%nat.
Definition is_punct (c : ascii) : bool :=
  bool_decide (c ∈ ["("; ")"; "["; "]"; "{"; "}"; ","; ":"; "="]%char).
Definition opens (c : ascii) : bool := bool_decide (c ∈ ["("; "["; "{"]%char).
Definition closes (c : ascii) : bool := bool_decide (c ∈ [")"; "]"; "}"]%char).

Fixpoint span (p : ascii -> bool) (s : string) : string * string :=
  match s with
  | String c s' =>
      if p c then let '(a, b) := span p s' in (String c a, b) else (EmptyString, s)
  | EmptyString => (EmptyString, EmptyString)
  end.

(** The body of a string literal that ends at [close]; [multi] allows
    line ends in it. *)
Fixpoint literal (multi : bool) (close : string) (s : string) : option (string * string) :=
  if String.prefix close s then Some (EmptyString, Str.drop (String.length close) s)
  else
    match s with
    | EmptyString => None
    | String c s' =>
        if is_backslash c || (negb multi && is_newline c) then None
        else match literal multi close s' with
             | Some (body, rest) => Some (String c body, rest)
             | None => None
             end
    end.

Definition decimal (digits : string) : Z :=
  (fix go (acc : Z) (s : string) :=
     match s with
     | EmptyString => acc
     | String c s' => go (10 * acc + Z.of_nat (nat_of_ascii c - 48))%Z s'
     end) 0%Z digits.

(** [bol]: at the start of a line; [depth]: inside that many brackets,
    where line ends do not count. *)
Fixpoint tokens (fuel : nat) (bol : bool) (depth : nat) (s : string)
  : string + list token :=
  match fuel with
  | O => inl "invalid syntax"
  | S fuel' =>
      match s with
      | EmptyString =>
          if (depth =? 0)%nat then inr [] else inl "'(' was never closed"
      | String c rest =>
          if is_newline c then
            if (depth =? 0)%nat
            then match tokens fuel' true depth rest with
                 | inr ts => inr (TNewline :: ts)
                 | inl e => inl e
                 end
            else tokens fuel' false depth rest
          else if Str.is_blank c then
            let '(_, after) := span Str.is_blank s in
            if bol && (depth =? 0)%nat
               && negb (match after with
                        | EmptyString => true
                        | String d _ => is_newline d || Ascii.eqb d "#"
                        end)
            then inl "unexpected indent"
            else tokens fuel' bol depth rest
          else if Ascii.eqb c "#" then
            let '(_, after) := span (fun d => negb (is_newline d)) s in
            tokens fuel' bol depth after
          else if is_digit c then
            let '(digits, after) := span is_digit s in
            match after with
            | String d _ =>
                if is_ident_start d || Ascii.eqb d "." then inl "invalid decimal literal"
                else if Ascii.eqb c "0" && (1 <? String.length digits)%nat
                then inl "leading zeros in decimal integer literals are not permitted"
                else match tokens fuel' false depth after with
                     | inr ts => inr (TInt (decimal digits) :: ts)
                     | inl e => inl e
                     end
            | EmptyString =>
                if Ascii.eqb c "0" && (1 <? String.length digits)%nat
                then inl "leading zeros in decimal integer literals are not permitted"
                else inr [TInt (decimal digits)]
            end
          else if is_ident_start c then
            let '(word, after) := span is_ident s in
            match after with
            | String d _ =>
                if is_quote d then inl "string prefixes are outside the fragment"
                else match tokens fuel' false depth after with
                     | inr ts => inr (TName word :: ts)
                     | inl e => inl e
                     end
            | EmptyString => inr [TName word]
            end
          else if is_quote c then
            let q := String c EmptyString in
            let triple := q +:+ q +:+ q in
            if String.prefix triple s then
              match literal true triple (Str.drop 3 s) with
              | Some (body, after) =>
                  match tokens fuel' false depth after with
                  | inr ts => inr (TStr body :: ts)
                  | inl e => inl e
                  end
              | None => inl "unterminated triple-quoted string literal"
              end
            else
              match literal false q rest with
              | Some (body, after) =>
                  match tokens fuel' false depth after with
                  | inr ts => inr (TStr body :: ts)
                  | inl e => inl e
                  end
              | None => inl "unterminated string literal"
              end
          else if is_punct c then
            if closes c && (depth =? 0)%nat then inl "unmatched ')'"
            else
              let depth' := if opens c then S depth
                            else if closes c then pred depth else depth in
              match tokens fuel' false depth' rest with
              | inr ts => inr (TOp c :: ts)
              | inl e => inl e
              end
          else inl "invalid syntax"
      end
  end.

Definition reserved (x : string) : bool := bool_decide (x ∈ keywords).

Definition parser (A : Type) : Type := list token -> option (A * list token).

(** expression: [await] expression, or an atom followed by calls *)
Fixpoint expression (fuel : nat) : parser expr :=
  fun ts =>
  match fuel with
  | O => None
  | S fuel' =>
      match ts with
      | TName x :: rest =>
          if String.eqb x "await" then
            match expression fuel' rest with
            | Some (e, r) => Some (Await e, r)
            | None => None
            end
          else if String.eqb x "True" then trailers fuel' (Constant (CBool true)) rest
          else if String.eqb x "False" then trailers fuel' (Constant (CBool false)) rest
          else if String.eqb x "None" then trailers fuel' (Constant CNone) rest
          else if reserved x then None
          else trailers fuel' (Name x) rest
      | TInt n :: rest => trailers fuel' (Constant (CInt n)) rest
      | TStr s :: rest =>
          match rest with
          | TStr _ :: _ => None   (* adjacent literals are outside the fragment *)
          | _ => trailers fuel' (Constant (CStr s)) rest
          end
      | TOp c :: rest =>
          if Ascii.eqb c "(" then
            match expression fuel' rest with
            | Some (e, TOp d :: r) => if Ascii.eqb d ")" then trailers fuel' e r else None
            | _ => None
            end
          else if Ascii.eqb c "[" then
            match elements fuel' rest with
            | Some (es, r) => trailers fuel' (ListE es) r
            | None => None
            end
          else if Ascii.eqb c "{" then
            match entries fuel' rest with
            | Some (kvs, r) => trailers fuel' (DictE kvs) r
            | None => None
            end
          else None
      | _ => None
      end
  end

(** the calls after an atom: [e(...)(...)] *)
with trailers (fuel : nat) (e : expr) : parser expr :=
  fun ts =>
  match fuel with
  | O => None
  | S fuel' =>
      match ts with
      | TOp c :: rest =>
          if Ascii.eqb c "(" then
            match arguments fuel' rest with
            | Some ((args, kws), r) => trailers fuel' (Call e args kws) r
            | None => None
            end
          else Some (e, ts)
      | _ => Some (e, ts)
      end
  end

(** the arguments of a call, up to its closing parenthesis: the
    positional ones, then the keyword ones *)
with arguments (fuel : nat) : parser (list expr * list (option string * expr)) :=
  fun ts =>
  match fuel with
  | O => None
  | S fuel' =>
      let continue (e : expr) (kw : option string) (r : list token) :=
        let add (more : list expr * list (option string * expr)) :=
          match kw with
          | None => Some (e :: more.1, more.2)
          | Some x =>
              match more.1 with
              | [] => if bool_decide (Some x ∈ map fst more.2) then None
                      else Some ([], (Some x, e) :: more.2)
              | _ :: _ => None   (* positional argument follows keyword argument *)
              end
          end in
        match r with
        | TOp d :: r' =>
            if Ascii.eqb d ")" then
              match add ([], []) with Some a => Some (a, r') | None => None end
            else if Ascii.eqb d "," then
              match arguments fuel' r' with
              | Some (more, r'') =>
                  match add more with Some a => Some (a, r'') | None => None end
              | None => None
              end
            else None
        | _ => None
        end in
      match ts with
      | TOp c :: rest =>
          if Ascii.eqb c ")" then Some (([], []), rest)
          else match expression fuel' ts with
               | Some (e, r) => continue e None r
               | None => None
               end
      | TName x :: TOp c :: rest =>
          if Ascii.eqb c "=" then
            if reserved x then None
            else match expression fuel' rest with
                 | Some (e, r) => continue e (Some x) r
                 | None => None
                 end
          else match expression fuel' ts with
               | Some (e, r) => continue e None r
               | None => None
               end
      | _ => match expression fuel' ts with
             | Some (e, r) => continue e None r
             | None => None
             end
      end
  end

(** the elements of a list display, up to its closing bracket *)
with elements (fuel : nat) : parser (list expr) :=
  fun ts =>
  match fuel with
  | O => None
  | S fuel' =>
      match ts with
      | TOp c :: rest =>
          if Ascii.eqb c "]" then Some ([], rest)
          else
            match expression fuel' ts with
            | Some (e, TOp d :: r) =>
                if Ascii.eqb d "]" then Some ([e], r)
                else if Ascii.eqb d "," then
                  match elements fuel' r with
                  | Some (es, r') => Some (e :: es, r')
                  | None => None
                  end
                else None
            | _ => None
            end
      | _ =>
          match expression fuel' ts with
          | Some (e, TOp d :: r) =>
              if Ascii.eqb d "]" then Some ([e], r)
              else if Ascii.eqb d "," then
                match elements fuel' r with
                | Some (es, r') => Some (e :: es, r')
                | None => None
                end
              else None
          | _ => None
          end
      end
  end

(** the entries of a dictionary display, up to its closing brace *)
with entries (fuel : nat) : parser (list (string * expr)) :=
  fun ts =>
  match fuel with
  | O => None
  | S fuel' =>
      match ts with
      | TOp c :: rest => if Ascii.eqb c "}" then Some ([], rest) else None
      | TStr k :: TOp c :: rest =>
          if Ascii.eqb c ":" then
            match expression fuel' rest with
            | Some (e, TOp d :: r) =>
                if Ascii.eqb d "}" then Some ([(k, e)], r)
                else if Ascii.eqb d "," then
                  match entries fuel' r with
                  | Some (kvs, r') => Some ((k, e) :: kvs, r')
                  | None => None
                  end
                else None
            | _ => None
            end
          else None
      | _ => None
      end
  end.

Definition whole_expression (ts : list token) : option expr :=
  match expression (4 * length ts + 4) ts with
  | Some (e, []) => Some e
  | _ => None
  end.

(** the targets [x = y = ...] in front of the value of an assignment *)
Fixpoint targets (ts : list token) : list string * list token :=
  match ts with
  | TName x :: TOp c :: rest =>
      if Ascii.eqb c "=" && negb (reserved x)
      then let '(xs, r) := targets rest in (x :: xs, r)
      else ([], ts)
  | _ => ([], ts)
  end.

Definition simple_statement (ts : list token) : option stmt :=
  match ts with
  | TName x :: rest =>
      if String.eqb x "pass" then match rest with [] => Some Pass | _ => None end
      else if String.eqb x "return" then
        match rest with
        | [] => Some (Return None)
        | _ => (fun e => Return (Some e)) <$> whole_expression rest
        end
      else
        let '(xs, r) := targets ts in
        (fun e => match xs with [] => Expr e | _ => Assign xs e end)
          <$> whole_expression r
  | _ => Expr <$> whole_expression ts
  end.

Definition statement (ts : list token) : option stmt :=
  let compound (mk : expr -> stmt -> stmt) (rest : list token) :=
    match expression (4 * length rest + 4) rest with
    | Some (test, TOp c :: body) =>
        if Ascii.eqb c ":" then mk test <$> simple_statement body else None
    | _ => None
    end in
  match ts with
  | TName x :: rest =>
      if String.eqb x "while" then compound (fun t s => While t [s]) rest
      else if String.eqb x "if" then compound (fun t s => If t [s] []) rest
      else simple_statement ts
  | _ => simple_statement ts
  end.

(** the logical lines: the tokens between line ends *)
Fixpoint logical_lines (ts : list token) : list (list token) :=
  match ts with
  | [] => [[]]
  | TNewline :: rest => [] :: logical_lines rest
  | t :: rest =>
      match logical_lines rest with
      | l :: ls => (t :: l) :: ls
      | [] => [[t]]
      end
  end.

Definition parse (code : string) : parsed :=
  match tokens (S (String.length code)) true 0 code with
  | inl msg => NoParse msg
  | inr ts =>
      match mapM statement (filter (fun l => l ≠ []) (logical_lines ts)) with
      | Some body => Module_ body
      | None => NoParse "invalid syntax"
      end
  end.

End Mini.

(** ** A host for the examples *)

(** A tool outcome, as the tools of the browser server return it. *)
Definition ActionResultOutput (success : bool) (content : value) (error : value) : value :=
  VObj "ActionResultOutput"
       [("success", VBool success); ("content", content); ("error", error)]
       "ActionResultOutput".

(** Four tools: [search] answers with a string after a tenth of a second,
    [get_page] with a successful outcome, [open_page] with an unsuccessful
    one, and [slow] answers after a minute. *)
Definition demo_registry (tool : string) (args : list value) : reply :=
  if String.eqb tool "search" then Reply 100 (Returns (VStr "ok"))
  else if String.eqb tool "get_page"
  then Reply 100 (Returns (ActionResultOutput true (VStr "<html>") VNone))
  else if String.eqb tool "open_page"
  then Reply 100 (Returns (ActionResultOutput false VNone (VStr "boom")))
  else if String.eqb tool "slow" then Reply (60 * 1000) (Returns (VStr "late"))
  else Reply 1 (Raises (Exn ValueErr "ValueError" ("Tool '" +:+ tool +:+ "' not found"))).

Definition demo_builtin (name : string) (args : list value) : py value :=
  match args with
  | [VList l] =>
      if String.eqb name "len" then Returns (VInt (Z.of_nat (length l)))
      else Raises (TypeError "not available in the examples")
  | _ => Raises (TypeError "not available in the examples")
  end.

Definition demo_host : host := {|
  ast_parse := Mini.parse;
  get_all_tools := ["search"; "get_page"; "open_page"; "slow"];
  function_wrapper := fun _ => demo_registry;
  gather := fun _ _ => Reply 1 (Returns (VList []));
  call_builtin := demo_builtin;
  repr := fun _ => "[...]";
  unbound_local_msg := fun x =>
    Str.cat ["cannot access local variable '"; x;
             "' where it is not associated with a value"];
  cpu_cost := 1;
  log_json_block := log_json_block_spec
|}.

(** A script, one line per element. *)
Definition script (lines : list string) : string := Str.unlines lines.

(** The session of the examples ([run_user_code]'s default), its file, and
    the sandbox built for it when it has no record yet. *)
Definition session : string := "default_session".
Definition path : string := session_path session.
Definition demo_sandbox : pydict :=
  Eval vm_compute in
    match build_safe_globals (tool_funcs demo_host) (Some demo_host) ∅ session with
    | Returns g => g
    | Raises _ => []
    end.

(** The session files in which the session of the examples has the record
    [{"x": 1}], and the sandbox built from them. *)
Definition stored : fsys := <[path := JsonFile [("x", VInt 1)]]> ∅.
Definition stored_sandbox : pydict :=
  Eval vm_compute in
    match build_safe_globals (tool_funcs demo_host) (Some demo_host) stored session with
    | Returns g => g
    | Raises _ => []
    end.

(** ** Properties of the syntax-tree passes *)

Section Passes.

Lemma sum_list_app (l k : list nat) : sum_list (l ++ k) = sum_list l + sum_list k.
Proof. induction l as [|a l IH]; simpl; [reflexivity | rewrite IH; lia]. Qed.

Lemma sum_list_map_ext {A} (f g : A -> nat) (l : list A) :
  Forall (fun a => f a = g a) l -> sum_list (map f l) = sum_list (map g l).
Proof. induction 1 as [|a l Ha _ IH]; simpl; [reflexivity | rewrite Ha, IH; reflexivity]. Qed.

(** [KeywordStripper] moves arguments; it adds and removes no call. *)
Lemma count_calls_strip_keywords (e : expr) :
  count_calls_expr (strip_keywords e) = count_calls_expr e.
Proof.
  induction e as [c|id|f args kws IHf IHargs IHkws|e IH|items IH|elts IH]
    using expr_ind'; simpl; try reflexivity.
  - rewrite IHf, map_app, sum_list_app, !map_map. simpl.
    rewrite (sum_list_map_ext _ count_calls_expr args) by exact IHargs.
    rewrite (sum_list_map_ext _ (fun kw => count_calls_expr kw.2) kws) by exact IHkws.
    lia.
  - exact IH.
  - rewrite map_map. apply sum_list_map_ext. exact IH.
  - rewrite map_map. apply sum_list_map_ext. exact IH.
Qed.

Lemma count_calls_visit (f : expr -> expr) (s : stmt) :
  (forall e, count_calls_expr (f e) = count_calls_expr e) ->
  count_calls_stmt (visit_stmt f s) = count_calls_stmt s.
Proof.
  intros Hf.
  induction s as [ts e|[e|]|e| |t b IHb|t b c IHb IHc] using stmt_ind'; simpl;
    rewrite ?Hf, ?map_map; try reflexivity.
  - rewrite (sum_list_map_ext _ count_calls_stmt b) by exact IHb. reflexivity.
  - rewrite (sum_list_map_ext _ count_calls_stmt b) by exact IHb.
    rewrite (sum_list_map_ext _ count_calls_stmt c) by exact IHc. reflexivity.
Qed.

Lemma count_calls_KeywordStripper (tree : list stmt) :
  count_calls (KeywordStripper tree) = count_calls tree.
Proof.
  unfold count_calls, KeywordStripper. rewrite map_map.
  apply sum_list_map_ext, Forall_forall. intros s _.
  apply count_calls_visit, count_calls_strip_keywords.
Qed.

Lemma map_ext_Forall {A B} (f g : A -> B) (l : list A) :
  Forall (fun a => f a = g a) l -> map f l = map g l.
Proof. induction 1 as [|a l Ha _ IH]; simpl; [reflexivity | rewrite Ha, IH; reflexivity]. Qed.

(** A stripped tree has nothing left to strip. *)
Lemma strip_keywords_idempotent (e : expr) :
  strip_keywords (strip_keywords e) = strip_keywords e.
Proof.
  induction e as [c|id|f args kws IHf IHargs IHkws|e IH|items IH|elts IH]
    using expr_ind'; simpl; try reflexivity.
  - rewrite IHf, app_nil_r, map_app, !map_map. simpl.
    rewrite (map_ext_Forall _ strip_keywords args) by exact IHargs.
    rewrite (map_ext_Forall _ (fun kw => strip_keywords kw.2) kws) by exact IHkws.
    reflexivity.
  - rewrite IH. reflexivity.
  - rewrite map_map. f_equal. apply map_ext_Forall.
    eapply Forall_impl; [exact IH|]. intros [k v] Hv. simpl in *. rewrite Hv. reflexivity.
  - rewrite map_map. f_equal. apply map_ext_Forall. exact IH.
Qed.

Lemma visit_stmt_idempotent (f : expr -> expr) (s : stmt) :
  (forall e, f (f e) = f e) -> visit_stmt f (visit_stmt f s) = visit_stmt f s.
Proof.
  intros Hf.
  induction s as [ts e|[e|]|e| |t b IHb|t b c IHb IHc] using stmt_ind'; simpl;
    rewrite ?Hf, ?map_map; try reflexivity.
  - f_equal. apply map_ext_Forall. exact IHb.
  - f_equal; apply map_ext_Forall; assumption.
Qed.

Lemma KeywordStripper_idempotent (tree : list stmt) :
  KeywordStripper (KeywordStripper tree) = KeywordStripper tree.
Proof.
  unfold KeywordStripper. rewrite map_map. apply map_ext_Forall, Forall_forall.
  intros s _. apply visit_stmt_idempotent, strip_keywords_idempotent.
Qed.

Lemma forallb_map_true {A B} (f : A -> B) (p : B -> bool) (l : list A) :
  Forall (fun a => p (f a) = true) l -> forallb p (map f l) = true.
Proof. induction 1 as [|a l Ha _ IH]; simpl; [reflexivity | rewrite Ha, IH; reflexivity]. Qed.

(** After [KeywordStripper] no call has a keyword. *)
Lemma strip_keywords_keyword_free (e : expr) : keyword_free (strip_keywords e) = true.
Proof.
  induction e as [c|id|f args kws IHf IHargs IHkws|e IH|items IH|elts IH]
    using expr_ind'; simpl; try reflexivity.
  - rewrite IHf, forallb_app. simpl. rewrite andb_true_r.
    rewrite (forallb_map_true strip_keywords) by exact IHargs.
    rewrite (forallb_map_true (fun kw => strip_keywords kw.2)) by exact IHkws.
    reflexivity.
  - exact IH.
  - rewrite forallb_forall. intros kv [[k v] [<- Hin]]%in_map_iff. simpl.
    rewrite Forall_forall in IH. apply (IH (k, v)). apply list_elem_of_In, Hin.
  - apply forallb_map_true. exact IH.
Qed.

(** [AwaitTransformer] adds no keyword. *)
Lemma auto_await_keyword_free (tools : list string) (e : expr) :
  keyword_free e = true -> keyword_free (auto_await tools e) = true.
Proof.
  induction e as [c|id|f args kws IHf IHargs IHkws|e IH|items IH|elts IH]
    using expr_ind'; simpl; try (intros; reflexivity).
  - intros [[Hf Hargs]%andb_prop Hkws]%andb_prop.
    destruct kws as [|kw kws]; [|discriminate]. simpl.
    assert (Hnode : keyword_free (Call (auto_await tools f) (map (auto_await tools) args) [])
                    = true).
    { simpl. rewrite IHf by exact Hf. rewrite andb_true_r. simpl.
      rewrite forallb_forall in Hargs. apply forallb_map_true.
      rewrite Forall_forall in IHargs |- *. intros a Ha.
      apply IHargs; [exact Ha|]. apply Hargs, list_elem_of_In, Ha. }
    destruct (auto_await tools f); try exact Hnode.
    destruct (bool_decide _); exact Hnode.
  - exact IH.
  - rewrite !forallb_forall. intros Hall kv [[k v] [<- Hin]]%in_map_iff. simpl.
    rewrite Forall_forall in IH. apply (IH (k, v)); [apply list_elem_of_In, Hin|].
    apply (Hall (k, v)), Hin.
  - intros Hall. rewrite forallb_forall in Hall. apply forallb_map_true.
    rewrite Forall_forall in IH |- *. intros a Ha.
    apply IH; [exact Ha|]. apply Hall, list_elem_of_In, Ha.
Qed.

Lemma visit_strip_keyword_free (s : stmt) :
  keyword_free_stmt (visit_stmt strip_keywords s) = true.
Proof.
  induction s as [ts e|[e|]|e| |t b IHb|t b c IHb IHc] using stmt_ind'; simpl;
    rewrite ?strip_keywords_keyword_free; try reflexivity.
  - apply forallb_map_true. exact IHb.
  - rewrite (forallb_map_true _ _ b IHb). apply forallb_map_true. exact IHc.
Qed.

Lemma visit_await_keyword_free (tools : list string) (s : stmt) :
  keyword_free_stmt s = true ->
  keyword_free_stmt (visit_stmt (auto_await tools) s) = true.
Proof.
  induction s as [ts e|[e|]|e| |t b IHb|t b c IHb IHc] using stmt_ind'; simpl;
    try (apply auto_await_keyword_free); try (intros; reflexivity).
  - intros [Ht Hb]%andb_prop. rewrite (auto_await_keyword_free _ _ Ht). simpl.
    rewrite forallb_forall in Hb. apply forallb_map_true.
    rewrite Forall_forall in IHb |- *. intros s Hs.
    apply IHb; [exact Hs|]. apply Hb, list_elem_of_In, Hs.
  - intros [[Ht Hb]%andb_prop Hc]%andb_prop. rewrite (auto_await_keyword_free _ _ Ht). simpl.
    rewrite forallb_forall in Hb, Hc.
    rewrite !forallb_map_true; [reflexivity| |].
    + rewrite Forall_forall in IHc |- *. intros s Hs.
      apply IHc; [exact Hs|]. apply Hc, list_elem_of_In, Hs.
    + rewrite Forall_forall in IHb |- *. intros s Hs.
      apply IHb; [exact Hs|]. apply Hb, list_elem_of_In, Hs.
Qed.

Lemma rewrite_return_keyword_free (s : stmt) :
  keyword_free_stmt s = true -> keyword_free_stmt (rewrite_return s) = true.
Proof. destruct s as [| [[]|] | | | |]; simpl; intros Hs; try exact Hs; reflexivity. Qed.

(** The body that is compiled and run has no keyword argument left. *)
Lemma prepare_keyword_free (H : host) (tree : list stmt) :
  forallb keyword_free_stmt (prepare H tree) = true.
Proof.
  unfold prepare, normalize_body, AwaitTransformer, KeywordStripper.
  assert (Hbody : forallb keyword_free_stmt
                    (map rewrite_return
                       (map (visit_stmt (auto_await (Dict.keys (tool_funcs H))))
                          (map (visit_stmt strip_keywords) tree))) = true).
  { rewrite !map_map. apply forallb_map_true, Forall_forall. intros s _.
    apply rewrite_return_keyword_free, visit_await_keyword_free, visit_strip_keyword_free. }
  destruct (_ && _); [|exact Hbody].
  rewrite forallb_app, Hbody. reflexivity.
Qed.


(** [AwaitTransformer] wraps calls; it adds and removes none. *)
Lemma count_calls_auto_await (tools : list string) (e : expr) :
  count_calls_expr (auto_await tools e) = count_calls_expr e.
Proof.
  induction e as [c|id|f args kws IHf IHargs IHkws|e IH|items IH|elts IH]
    using expr_ind'; simpl; try reflexivity.
  - assert (Hnode : count_calls_expr
                      (Call (auto_await tools f) (map (auto_await tools) args)
                            (map (fun kw => (kw.1, auto_await tools kw.2)) kws))
                    = S (count_calls_expr f + sum_list (map count_calls_expr args)
                         + sum_list (map (fun kw => count_calls_expr kw.2) kws))).
    { simpl. rewrite IHf, !map_map. simpl.
      rewrite (sum_list_map_ext _ count_calls_expr args) by exact IHargs.
      rewrite (sum_list_map_ext _ (fun kw => count_calls_expr kw.2) kws) by exact IHkws.
      reflexivity. }
    destruct (auto_await tools f); try exact Hnode.
    destruct (bool_decide _); exact Hnode.
  - exact IH.
  - rewrite map_map. apply sum_list_map_ext. exact IH.
  - rewrite map_map. apply sum_list_map_ext. exact IH.
Qed.

Lemma count_calls_rewrite_return (s : stmt) :
  count_calls_stmt (rewrite_return s) = count_calls_stmt s.
Proof. destruct s as [| [[]|] | | | |]; reflexivity. Qed.

(** The three passes leave the number of call expressions as it is: the
    body that is compiled and run has as many calls as the tree that was
    parsed, the synthesized [return result] included. *)
Theorem prepare_keeps_the_call_count (H : host) (tree : list stmt) :
  count_calls (prepare H tree) = count_calls tree.
Proof.
  unfold prepare, normalize_body.
  set (tools := Dict.keys (tool_funcs H)).
  assert (Hbody : count_calls (map rewrite_return (AwaitTransformer tools (KeywordStripper tree)))
                  = count_calls tree).
  { unfold count_calls, AwaitTransformer, KeywordStripper. rewrite !map_map.
    apply sum_list_map_ext, Forall_forall. intros s _.
    rewrite count_calls_rewrite_return.
    rewrite (count_calls_visit _ _ (count_calls_auto_await tools)).
    apply count_calls_visit, count_calls_strip_keywords. }
  destruct (_ && _); [|exact Hbody].
  unfold count_calls in *. rewrite map_app, sum_list_app, Hbody. simpl. lia.
Qed.

Lemma tool_calls_awaited_call (tools : list string) (operand : bool) (f : expr)
    (args : list expr) (kws : list (option string * expr)) :
  tool_calls_awaited tools operand (Call f args kws)
  = (operand || negb match f with
                     | Name id => bool_decide (id ∈ tools)
                     | _ => false
                     end)
    && tool_calls_awaited tools false f
    && forallb (tool_calls_awaited tools false) args
    && forallb (fun kw => tool_calls_awaited tools false kw.2) kws.
Proof. reflexivity. Qed.

Lemma auto_await_awaited (tools : list string) (e : expr) :
  forall operand, tool_calls_awaited tools operand (auto_await tools e) = true.
Proof.
  induction e as [c|id|f args kws IHf IHargs IHkws|e IH|items IH|elts IH]
    using expr_ind'; intros operand; simpl; try reflexivity.
  - assert (Hargs : forallb (tool_calls_awaited tools false) (map (auto_await tools) args)
                    = true).
    { apply forallb_map_true. eapply Forall_impl; [exact IHargs|]. intros a Ha. apply Ha. }
    assert (Hkws : forallb (fun kw => tool_calls_awaited tools false kw.2)
                     (map (fun kw => (kw.1, auto_await tools kw.2)) kws) = true).
    { rewrite forallb_forall. intros kw [[k v] [<- Hkw]]%in_map_iff. simpl.
      rewrite Forall_forall in IHkws. apply (IHkws (k, v)). apply list_elem_of_In, Hkw. }
    pose proof (IHf false) as Hf.
    destruct (auto_await tools f) as [c|id|f' args' kws'|e'|items'|elts'] eqn:E;
      try (rewrite tool_calls_awaited_call, Hf, Hargs, Hkws, !andb_true_r;
           apply orb_true_r).
    destruct (bool_decide (id ∈ tools)) eqn:Ed.
    + change (tool_calls_awaited tools true
                (Call (Name id) (map (auto_await tools) args)
                      (map (fun kw => (kw.1, auto_await tools kw.2)) kws)) = true).
      rewrite tool_calls_awaited_call, Hf, Hargs, Hkws. reflexivity.
    + rewrite tool_calls_awaited_call, Hf, Hargs, Hkws, Ed, !andb_true_r.
      apply orb_true_r.
  - apply IH.
  - rewrite forallb_forall. intros kv [[k v] [<- Hkv]]%in_map_iff. simpl.
    rewrite Forall_forall in IH. apply (IH (k, v)). apply list_elem_of_In, Hkv.
  - apply forallb_map_true. eapply Forall_impl; [exact IH|]. intros a Ha. apply Ha.
Qed.

Lemma visit_await_awaited (tools : list string) (s : stmt) :
  tool_calls_awaited_stmt tools (visit_stmt (auto_await tools) s) = true.
Proof.
  induction s as [ts e|[e|]|e| |t b IHb|t b c IHb IHc] using stmt_ind'; simpl;
    rewrite ?auto_await_awaited; try reflexivity.
  - apply forallb_map_true. exact IHb.
  - rewrite (forallb_map_true _ _ b IHb). apply forallb_map_true. exact IHc.
Qed.

Lemma rewrite_return_awaited (tools : list string) (s : stmt) :
  tool_calls_awaited_stmt tools s = true ->
  tool_calls_awaited_stmt tools (rewrite_return s) = true.
Proof. destruct s as [| [[]|] | | | |]; simpl; intros Hs; try exact Hs; reflexivity. Qed.

(** In the body that is compiled and run, every call of a registered tool
    by its name is the operand of an [await]: no such call is left to give
    a coroutine that nothing runs. *)
Theorem prepared_tool_calls_are_awaited (H : host) (tree : list stmt) :
  forallb (tool_calls_awaited_stmt (Dict.keys (tool_funcs H))) (prepare H tree) = true.
Proof.
  unfold prepare, normalize_body.
  set (tools := Dict.keys (tool_funcs H)).
  assert (Hbody : forallb (tool_calls_awaited_stmt tools)
                    (map rewrite_return (AwaitTransformer tools (KeywordStripper tree)))
                  = true).
  { unfold AwaitTransformer. rewrite map_map. apply forallb_map_true, Forall_forall.
    intros s _. apply rewrite_return_awaited, visit_await_awaited. }
  destruct (_ && _); [|exact Hbody].
  rewrite forallb_app, Hbody. reflexivity.
Qed.

Lemma map_id_Forall {A} (f : A -> A) (l : list A) :
  Forall (fun a => f a = a) l -> map f l = l.
Proof. induction 1 as [|a l Ha _ IH]; simpl; [reflexivity | rewrite Ha, IH; reflexivity]. Qed.

Lemma strip_keywords_keyword_free_id (e : expr) :
  keyword_free e = true -> strip_keywords e = e.
Proof.
  induction e as [c|id|f args kws IHf IHargs IHkws|e IH|items IH|elts IH]
    using expr_ind'; simpl; try reflexivity.
  - intros [[Hf Hargs]%andb_prop Hkws]%andb_prop.
    destruct kws as [|kw kws]; [|discriminate]. simpl.
    rewrite (IHf Hf), app_nil_r. f_equal.
    apply map_id_Forall. rewrite forallb_forall in Hargs.
    rewrite Forall_forall in IHargs |- *. intros a Ha.
    apply IHargs; [exact Ha|]. apply Hargs, list_elem_of_In, Ha.
  - intros He. rewrite (IH He). reflexivity.
  - intros Hall. f_equal. rewrite forallb_forall in Hall.
    apply map_id_Forall. rewrite Forall_forall in IH |- *. intros [k v] Hkv. simpl.
    f_equal. apply (IH (k, v) Hkv). apply (Hall (k, v)), list_elem_of_In, Hkv.
  - intros Hall. f_equal. rewrite forallb_forall in Hall.
    apply map_id_Forall. rewrite Forall_forall in IH |- *. intros a Ha.
    apply IH; [exact Ha|]. apply Hall, list_elem_of_In, Ha.
Qed.

(** [KeywordStripper] changes nothing in a script that has no keyword
    argument: the calls that are written positionally stay as they are. *)
Theorem keyword_free_script_is_unchanged (tree : list stmt) :
  forallb keyword_free_stmt tree = true -> KeywordStripper tree = tree.
Proof.
  intros Hall. unfold KeywordStripper. apply map_id_Forall.
  rewrite forallb_forall in Hall. apply Forall_forall. intros s Hs.
  apply list_elem_of_In, Hall in Hs. clear Hall. revert Hs.
  induction s as [ts e|[e|]|e| |t b IHb|t b c IHb IHc] using stmt_ind'; simpl; intros Hs;
    rewrite ?strip_keywords_keyword_free_id by exact Hs; try reflexivity.
  - apply andb_prop in Hs as [Ht Hb]. rewrite (strip_keywords_keyword_free_id _ Ht).
    f_equal. apply map_id_Forall. rewrite forallb_forall in Hb.
    rewrite Forall_forall in IHb |- *. intros s Hs.
    apply IHb; [exact Hs|]. apply Hb, list_elem_of_In, Hs.
  - apply andb_prop in Hs as [[Ht Hb]%andb_prop Hc].
    rewrite (strip_keywords_keyword_free_id _ Ht).
    rewrite forallb_forall in Hb, Hc. f_equal; apply map_id_Forall.
    + rewrite Forall_forall in IHb |- *. intros s Hs.
      apply IHb; [exact Hs|]. apply Hb, list_elem_of_In, Hs.
    + rewrite Forall_forall in IHc |- *. intros s Hs.
      apply IHc; [exact Hs|]. apply Hc, list_elem_of_In, Hs.
Qed.

End Passes.

(** ** Properties of the repair of the script text *)

Section Repair.

Lemma drop_length_le (k : nat) (s : string) : String.length (Str.drop k s) <= String.length s.
Proof.
  revert s. induction k as [|k IH]; intros s; [reflexivity|].
  destruct s as [|c s]; simpl; [lia|]. specialize (IH s). lia.
Qed.

(** Once the fuel covers the text, more of it changes nothing. *)
Lemma count_triple_quotes_fuel (n m : nat) (s : string) :
  String.length s <= n -> String.length s <= m ->
  count_triple_quotes n s = count_triple_quotes m s.
Proof.
  revert m s. induction n as [|n IH]; intros m s Hn Hm.
  - destruct s; simpl in Hn; [|lia]. destruct m; reflexivity.
  - destruct s as [|c s]; [destruct m; reflexivity|].
    destruct m as [|m]; simpl in Hn, Hm; [lia|].
    cbn [count_triple_quotes].
    destruct (String.prefix Str.triple_quote (String c s)).
    + f_equal. change (Str.drop 3 (String c s)) with (Str.drop 2 s).
      pose proof (drop_length_le 2 s). apply IH; lia.
    + apply IH; lia.
Qed.

Lemma append_cons (c : ascii) (s t : string) : String c s +:+ t = String c (s +:+ t).
Proof. reflexivity. Qed.

Lemma append_nil (t : string) : "" +:+ t = t.
Proof. reflexivity. Qed.

Lemma prefix_nil (s : string) : String.prefix "" s = true.
Proof. destruct s; reflexivity. Qed.

Lemma length_append (s t : string) :
  String.length (s +:+ t) = String.length s + String.length t.
Proof. induction s as [|c s IH]; simpl; [reflexivity | rewrite IH; reflexivity]. Qed.

Lemma triple_quote_chars :
  Str.triple_quote
  = String (ascii_of_nat 34) (String (ascii_of_nat 34) (String (ascii_of_nat 34) "")).
Proof. reflexivity. Qed.

Lemma quote_is_no_line_break : ascii_of_nat 34 <> ascii_of_nat 10.
Proof. vm_compute. discriminate. Qed.

Ltac split_prefix :=
  repeat match goal with
         | |- context [ascii_dec ?a ?b] =>
             destruct (ascii_dec a b) as [?|?];
             try (exfalso; apply quote_is_no_line_break; assumption)
         end.

(** A delimiter does not reach over a line break. *)
Lemma prefix_triple_quote_line (s t : string) :
  String.prefix Str.triple_quote (s +:+ Str.nl +:+ t) = String.prefix Str.triple_quote s.
Proof.
  rewrite triple_quote_chars. unfold Str.nl.
  destruct s as [|c1 [|c2 [|c3 s]]]; rewrite ?append_cons, ?append_nil;
    cbn [String.prefix]; split_prefix; rewrite ?prefix_nil; reflexivity.
Qed.

Lemma drop_triple_quote_line (s t : string) :
  String.prefix Str.triple_quote s = true ->
  Str.drop 3 (s +:+ Str.nl +:+ t) = Str.drop 3 s +:+ Str.nl +:+ t.
Proof.
  rewrite triple_quote_chars.
  destruct s as [|c1 [|c2 [|c3 s]]]; cbn [String.prefix]; split_prefix;
    try discriminate; reflexivity.
Qed.

(** The delimiters of two lines are those of the first and those of the
    second. *)
Lemma count_triple_quotes_line (n : nat) (s t : string) :
  String.length s + 1 + String.length t <= n ->
  count_triple_quotes n (s +:+ Str.nl +:+ t)
  = count_triple_quotes (String.length s) s + count_triple_quotes (String.length t) t.
Proof.
  revert s. induction n as [|n IH]; intros s Hn; [lia|].
  destruct s as [|c s].
  - cbn. apply count_triple_quotes_fuel; simpl in *; lia.
  - change (String c s +:+ Str.nl +:+ t) with (String c (s +:+ Str.nl +:+ t)).
    cbn [count_triple_quotes String.length].
    change (String c (s +:+ Str.nl +:+ t)) with (String c s +:+ Str.nl +:+ t).
    rewrite prefix_triple_quote_line.
    destruct (String.prefix Str.triple_quote (String c s)) eqn:E.
    + rewrite (drop_triple_quote_line _ _ E).
      pose proof (drop_length_le 3 (String c s)) as Hd. simpl String.length in Hd.
      assert (Hs : String.length (Str.drop 3 (String c s)) <= String.length s).
      { change (Str.drop 3 (String c s)) with (Str.drop 2 s). apply drop_length_le. }
      rewrite IH by (simpl in Hn; lia).
      rewrite (count_triple_quotes_fuel (String.length s) _ (Str.drop 3 (String c s)) Hs (le_n _)).
      reflexivity.
    + change (String c s +:+ Str.nl +:+ t) with (String c (s +:+ Str.nl +:+ t)).
      apply IH. simpl in Hn. lia.
Qed.

Lemma prefix_append (s t : string) : String.prefix s (s +:+ t) = true.
Proof.
  induction s as [|c s IH]; [apply prefix_nil|].
  rewrite append_cons. cbn [String.prefix].
  destruct (ascii_dec c c); [exact IH | contradiction].
Qed.

(** The repair of [fix_unterminated_triple_quotes] leaves a text with an
    even number of triple-quote delimiters, whatever text it is given; so a
    second repair changes nothing.  The repair only adds to the end: the
    text as given starts the repaired text. *)
Theorem repair_balances_triple_quotes (code : string) :
  let repaired := fix_unterminated_triple_quotes code in
  Nat.odd (count_triple_quotes (String.length repaired) repaired) = false
  /\ fix_unterminated_triple_quotes repaired = repaired
  /\ String.prefix code repaired = true.
Proof.
  intros repaired.
  assert (Hcount : Nat.odd (count_triple_quotes (String.length repaired) repaired) = false).
  { unfold repaired, fix_unterminated_triple_quotes.
    destruct (Nat.odd (count_triple_quotes (String.length code) code)) eqn:E; [|exact E].
    rewrite count_triple_quotes_line by (rewrite !length_append; simpl; lia).
    change (count_triple_quotes (String.length Str.triple_quote) Str.triple_quote) with 1.
    rewrite Nat.add_1_r, Nat.odd_succ, <- Nat.negb_odd, E. reflexivity. }
  split; [exact Hcount|]. split.
  - unfold fix_unterminated_triple_quotes at 1. rewrite Hcount. reflexivity.
  - clear Hcount. unfold repaired, fix_unterminated_triple_quotes.
    destruct (Nat.odd (count_triple_quotes (String.length code) code));
      [apply prefix_append|].
    clear. induction code as [|c s IH]; [reflexivity|].
    cbn [String.prefix]. destruct (ascii_dec c c); [exact IH | contradiction].
Qed.

End Repair.


(** ** Properties of dictionaries and of the session store *)

Section Store.

Lemma Forall_set {A} (P : A -> Prop) (d : Dict.t A) (k : string) (v : A) :
  Forall (fun kv => P kv.2) d -> P v -> Forall (fun kv => P kv.2) (Dict.set d k v).
Proof.
  intros Hd Hv. induction Hd as [|[k' v'] d Hk Hd IH]; simpl.
  - repeat constructor. exact Hv.
  - destruct (String.eqb k' k); constructor; simpl in *; assumption.
Qed.

Lemma Forall_update {A} (P : A -> Prop) (d m : Dict.t A) :
  Forall (fun kv => P kv.2) d -> Forall (fun kv => P kv.2) m ->
  Forall (fun kv => P kv.2) (Dict.update d m).
Proof.
  intros Hd Hm. revert d Hd. unfold Dict.update.
  induction Hm as [|[k v] m Hk _ IH]; intros d Hd; simpl; [exact Hd|].
  apply IH, Forall_set; assumption.
Qed.

Lemma get_set_eq {A} (d : Dict.t A) (k : string) (v : A) :
  Dict.get (Dict.set d k v) k = Some v.
Proof.
  induction d as [|[k' v'] d IH]; simpl.
  - rewrite String.eqb_refl. reflexivity.
  - destruct (String.eqb k' k) eqn:E; simpl; rewrite E; [reflexivity | exact IH].
Qed.

Lemma get_set_ne {A} (d : Dict.t A) (k k' : string) (v : A) :
  k <> k' -> Dict.get (Dict.set d k v) k' = Dict.get d k'.
Proof.
  intros Hne. induction d as [|[k0 v0] d IH]; simpl.
  - destruct (String.eqb_spec k k'); [contradiction | reflexivity].
  - destruct (String.eqb_spec k0 k) as [->|]; simpl.
    + destruct (String.eqb_spec k k'); [contradiction | reflexivity].
    + rewrite IH. reflexivity.
Qed.

(** A key the update does not mention keeps its value. *)
Lemma get_update_absent {A} (d m : Dict.t A) (k : string) :
  Dict.get m k = None -> Dict.get (Dict.update d m) k = Dict.get d k.
Proof.
  unfold Dict.update. revert d.
  induction m as [|[k' v'] m IH]; intros d Hk; simpl in *; [reflexivity|].
  destruct (String.eqb_spec k' k) as [->|Hne]; [discriminate|].
  rewrite IH by exact Hk. apply get_set_ne, Hne.
Qed.

(** A key the update mentions once takes the value the update gives. *)
Lemma get_update_present {A} (d m : Dict.t A) (k : string) (v : A) :
  Dict.wf m -> Dict.get m k = Some v -> Dict.get (Dict.update d m) k = Some v.
Proof.
  unfold Dict.update, Dict.wf, Dict.keys. revert d.
  induction m as [|[k' v'] m IH]; intros d Hwf Hk; simpl in *; [discriminate|].
  apply NoDup_cons in Hwf as [Hnotin Hwf].
  destruct (String.eqb_spec k' k) as [->|Hne].
  - injection Hk as ->.
    assert (Hm : Dict.get m k = None).
    { clear -Hnotin. induction m as [|[k0 v0] m IH]; simpl in *; [reflexivity|].
      apply not_elem_of_cons in Hnotin as [Hne Hnotin].
      destruct (String.eqb_spec k0 k); [congruence | apply IH, Hnotin]. }
    change (Dict.get (Dict.update (Dict.set d k v) m) k = Some v).
    rewrite (get_update_absent _ _ _ Hm). apply get_set_eq.
  - apply IH; assumption.
Qed.

Lemma json_unserializable_dict (d : pydict) :
  json_unserializable (VDict d) = None <-> json_safe d.
Proof.
  unfold json_safe. simpl. induction d as [|[k v] d IH]; simpl.
  - split; [constructor | reflexivity].
  - destruct (json_unserializable v) eqn:E.
    + split; [discriminate|]. intros Hall. apply Forall_cons in Hall as [Hv _].
      simpl in Hv. congruence.
    + rewrite IH. split; [intros Hd; constructor; assumption|].
      intros Hall. apply Forall_cons in Hall as [_ Hd]. exact Hd.
Qed.

(** [save_session_vars] on a mapping it can encode, over a record that is
    absent or holds JSON: the merged mapping is stored. *)
Lemma save_session_vars_ok (fs : fsys) (sid : string) (existing variables : pydict) :
  load_session_vars fs sid = Returns existing ->
  json_safe existing -> json_safe variables ->
  save_session_vars fs sid variables =
    (Returns (), <[session_path sid := JsonFile (Dict.update existing variables)]> fs,
     [FileRead (session_path sid); FileWrite (session_path sid)]).
Proof.
  intros Hload He Hv. unfold save_session_vars. rewrite Hload.
  assert (Hm : json_unserializable (VDict (Dict.update existing variables)) = None).
  { apply json_unserializable_dict.
    apply (Forall_update (fun v => json_unserializable v = None)); assumption. }
  rewrite Hm. reflexivity.
Qed.

Lemma load_after_save (fs : fsys) (sid : string) (d : pydict) :
  load_session_vars (<[session_path sid := JsonFile d]> fs) sid = Returns d.
Proof. unfold load_session_vars. rewrite lookup_insert_eq. reflexivity. Qed.

Lemma append_inv_head (p x y : string) : p +:+ x = p +:+ y -> x = y.
Proof.
  induction p as [|c p IH]; [rewrite !append_nil; exact id|].
  rewrite !append_cons. intros [= E]. apply IH, E.
Qed.

Lemma append_inv_tail (x y t : string) : x +:+ t = y +:+ t -> x = y.
Proof.
  revert y. induction x as [|c x IH]; intros [|d y] E.
  - reflexivity.
  - exfalso. apply (f_equal String.length) in E.
    rewrite append_nil, append_cons in E. cbn [String.length] in E.
    rewrite length_append in E. lia.
  - exfalso. apply (f_equal String.length) in E.
    rewrite append_nil, append_cons in E. cbn [String.length] in E.
    rewrite length_append in E. lia.
  - rewrite !append_cons in E. injection E as -> E. rewrite (IH y E). reflexivity.
Qed.

(** Two sessions have two files. *)
Lemma session_path_inj (sid sid' : string) : session_path sid = session_path sid' -> sid = sid'.
Proof. unfold session_path. intros E%append_inv_head%append_inv_tail. exact E. Qed.

(** Saving under one identifier leaves the record of every other one. *)
Lemma load_after_save_other (fs : fsys) (sid sid' : string) (variables : pydict) :
  sid' <> sid ->
  load_session_vars (saved fs sid variables) sid' = load_session_vars fs sid'.
Proof.
  intros Hne.
  assert (Hp : session_path sid <> session_path sid')
    by (intros E%session_path_inj; apply Hne; symmetry; exact E).
  unfold saved, save_session_vars.
  destruct (load_session_vars fs sid) as [existing|e]; [|reflexivity].
  destruct (json_unserializable _); cbn [fst snd]; unfold load_session_vars;
    rewrite (lookup_insert_ne _ _ _ _ Hp); reflexivity.
Qed.

(** C8.  The session store, for session identifiers that are file names.
    [load_session_vars] returns the empty mapping, without raising, when the
    session has no record.  [save_session_vars] does not raise on a mapping
    that [json.dump] can encode, whether a record exists or not, and stores
    the existing record merged with the new mapping: a key absent from the
    new mapping keeps its value, a key of the new mapping takes the new
    value.  The record is that of the identifier: the save leaves what every
    other identifier loads as it was.  Saving [{"a": 1}] and then [{"b": 2}]
    for a session without a record leaves [{"a": 1, "b": 2}]. *)
Theorem session_store_contract (fs : fsys) (sid : string) (existing m : pydict) :
  is_file_name sid = true ->
  load_session_vars fs sid = Returns existing ->
  json_safe existing -> json_safe m -> Dict.wf m ->
  (forall fs0 : fsys, fs0 !! session_path sid = None -> load_session_vars fs0 sid = Returns [])
  /\ save_outcome fs sid m = Returns ()
  /\ load_session_vars (saved fs sid m) sid = Returns (Dict.update existing m)
  /\ (forall k, Dict.get m k = None ->
                Dict.get (Dict.update existing m) k = Dict.get existing k)
  /\ (forall k v, Dict.get m k = Some v -> Dict.get (Dict.update existing m) k = Some v)
  /\ (forall sid', is_file_name sid' = true -> sid' <> sid ->
        load_session_vars (saved fs sid m) sid' = load_session_vars fs sid')
  /\ (forall fs0 : fsys, fs0 !! session_path sid = None ->
        save_outcome fs0 sid [("a", VInt 1)] = Returns ()
        /\ save_outcome (saved fs0 sid [("a", VInt 1)]) sid [("b", VInt 2)] = Returns ()
        /\ load_session_vars (saved (saved fs0 sid [("a", VInt 1)]) sid [("b", VInt 2)]) sid
           = Returns [("a", VInt 1); ("b", VInt 2)]).
Proof.
  intros _ Hload He Hm Hwf.
  pose proof (save_session_vars_ok fs sid existing m Hload He Hm) as Hsave.
  split; [|split; [|split; [|split; [|split; [|split]]]]].
  - intros fs0 Hnone. unfold load_session_vars. rewrite Hnone. reflexivity.
  - unfold save_outcome. rewrite Hsave. reflexivity.
  - unfold saved. rewrite Hsave. apply load_after_save.
  - intros k Hk. apply get_update_absent, Hk.
  - intros k v Hk. apply get_update_present; assumption.
  - intros sid' _ Hne. apply load_after_save_other, Hne.
  - intros fs0 Hnone. unfold saved, save_outcome.
    assert (H0 : load_session_vars fs0 sid = Returns []).
    { unfold load_session_vars. rewrite Hnone. reflexivity. }
    assert (Ha : json_safe [("a", VInt 1)]) by (repeat constructor).
    assert (Hb : json_safe [("b", VInt 2)]) by (repeat constructor).
    rewrite (save_session_vars_ok fs0 sid [] _ H0 (List.Forall_nil _) Ha). simpl.
    rewrite (save_session_vars_ok _ sid _ _ (load_after_save fs0 sid _) Ha Hb). simpl.
    rewrite load_after_save. repeat split.
Qed.

(** The session of [run_user_code]'s default: [{"a": 1}] is saved, then
    [{"b": 2}]; the session then loads [{"a": 1, "b": 2}], and another
    session still loads the empty mapping. *)
Lemma session_store_contract_witness :
  load_session_vars
    (saved (saved ∅ "default_session" [("a", VInt 1)]) "default_session" [("b", VInt 2)])
    "default_session"
  = Returns [("a", VInt 1); ("b", VInt 2)]
  /\ load_session_vars
       (saved (saved ∅ "default_session" [("a", VInt 1)]) "default_session" [("b", VInt 2)])
       "other_session"
     = Returns [].
Proof.
  destruct (session_store_contract (saved ∅ "default_session" [("a", VInt 1)])
              "default_session" [("a", VInt 1)] [("b", VInt 2)])
    as (_ & _ & Hload & _ & _ & Hother & _).
  - reflexivity.
  - vm_compute. reflexivity.
  - repeat constructor.
  - repeat constructor.
  - unfold Dict.wf. simpl. apply NoDup_singleton.
  - split; [exact Hload|].
    rewrite (Hother "other_session" eq_refl ltac:(discriminate)). reflexivity.
Defined.

Lemma set_same {A} (d : Dict.t A) (k : string) (v : A) :
  Dict.get d k = Some v -> Dict.set d k v = d.
Proof.
  induction d as [|[k' v'] d IH]; simpl; [discriminate|].
  destruct (String.eqb_spec k' k) as [->|Hne].
  - intros [= ->]. reflexivity.
  - intros Hk. rewrite (IH Hk). reflexivity.
Qed.

Lemma update_same {A} (d m : Dict.t A) :
  Forall (fun kv => Dict.get d kv.1 = Some kv.2) m -> Dict.update d m = d.
Proof.
  unfold Dict.update. induction 1 as [|[k v] m Hk _ IH]; simpl in *; [reflexivity|].
  rewrite (set_same d k v Hk). exact IH.
Qed.

Lemma wf_get {A} (m : Dict.t A) (k : string) (v : A) :
  Dict.wf m -> (k, v) ∈ m -> Dict.get m k = Some v.
Proof.
  unfold Dict.wf, Dict.keys. induction m as [|[k' v'] m IH]; simpl.
  - intros _ Hin. apply elem_of_nil in Hin. contradiction.
  - intros [Hnotin Hwf]%NoDup_cons [Heq|Hin]%elem_of_cons.
    + injection Heq as -> ->. rewrite String.eqb_refl. reflexivity.
    + destruct (String.eqb_spec k' k) as [->|Hne]; [|apply IH; assumption].
      exfalso. apply Hnotin. apply list_elem_of_fmap. exists (k, v). split; [reflexivity | exact Hin].
Qed.

(** Merging a mapping a second time changes nothing. *)
Lemma update_idempotent {A} (d m : Dict.t A) :
  Dict.wf m -> Dict.update (Dict.update d m) m = Dict.update d m.
Proof.
  intros Hwf. apply update_same, Forall_forall. intros [k v] Hin. simpl.
  apply get_update_present; [exact Hwf | apply wf_get; assumption].
Qed.

Lemma get_json_safe (d : pydict) (k : string) (v : value) :
  json_safe d -> Dict.get d k = Some v -> json_unserializable v = None.
Proof.
  unfold json_safe. induction 1 as [|[k' v'] d Hv _ IH]; simpl in *; [discriminate|].
  destruct (String.eqb k' k); [intros [= <-]; exact Hv | exact IH].
Qed.

(** The entries of a dictionary whose key passes a test. *)
Lemma get_filter_keys {A} (P : string -> Prop) `{!forall k, Decision (P k)}
    (d : list (string * A)) (k : string) :
  Dict.get (filter (fun kv => P kv.1) d) k = if decide (P k) then Dict.get d k else None.
Proof.
  induction d as [|[k' v'] d IH]; [simpl; destruct (decide (P k)); reflexivity|].
  rewrite filter_cons. simpl. destruct (decide (P k')) as [Hk'|Hk']; simpl.
  - destruct (String.eqb_spec k' k) as [->|Hne]; [|exact IH].
    destruct (decide (P k)); [reflexivity | contradiction].
  - rewrite IH. destruct (String.eqb_spec k' k) as [->|Hne]; [|reflexivity].
    destruct (decide (P k)); [contradiction | reflexivity].
Qed.

(** Saving the same mapping a second time does not raise and leaves the
    session files as the first save left them: for a mapping that
    [json.dump] can encode (so without an integer of more than 4300 digits)
    and a record that is absent or holds such a mapping. *)
Theorem saving_twice_is_saving_once (fs : fsys) (sid : string) (existing m : pydict) :
  load_session_vars fs sid = Returns existing ->
  json_safe existing -> json_safe m -> Dict.wf m ->
  save_outcome (saved fs sid m) sid m = Returns ()
  /\ saved (saved fs sid m) sid m = saved fs sid m.
Proof.
  intros Hload He Hm Hwf. unfold saved, save_outcome.
  rewrite (save_session_vars_ok fs sid existing m Hload He Hm). simpl.
  assert (Hmerged : json_safe (Dict.update existing m)).
  { apply (Forall_update (fun v => json_unserializable v = None)); assumption. }
  rewrite (save_session_vars_ok _ sid _ m (load_after_save fs sid _) Hmerged Hm). simpl.
  split; [reflexivity|].
  rewrite update_idempotent by exact Hwf. apply insert_insert_eq.
Qed.

End Store.

(** ** Properties of the sandbox namespace *)

Section Sandbox.

(** The variables of the session enter the sandbox after the tools, the
    modules and [final_answer], and before [parallel] and [globals_schema]:
    a session variable has its saved value in the sandbox even when a tool, a
    module, [final_answer] or [__builtins__] has its name.  [globals_schema]
    is out of its reach.  So is [parallel] when the registry is given, as
    [run_user_code] gives it: the name is then bound to the helper; without
    the registry (the default, [multi_mcp=None]) the helper is not defined,
    and a session variable named [parallel] keeps its saved value. *)
Theorem session_variables_shadow_the_sandbox (mcp_funcs : pydict)
    (multi_mcp : option host) (fs : fsys) (sid : string) (vars : pydict) :
  sid <> "" ->
  load_session_vars fs sid = Returns vars ->
  Dict.wf vars ->
  exists sandbox,
    build_safe_globals mcp_funcs multi_mcp fs sid = Returns sandbox
    /\ (forall k v, Dict.get vars k = Some v -> k <> "parallel" -> k <> "globals_schema" ->
                    Dict.get sandbox k = Some v)
    /\ (is_Some multi_mcp -> Dict.get sandbox "parallel" = Some (VNative NParallel))
    /\ (multi_mcp = None ->
        forall v, Dict.get vars "parallel" = Some v -> Dict.get sandbox "parallel" = Some v)
    /\ exists schema, Dict.get sandbox "globals_schema" = Some (VDict schema).
Proof.
  intros Hsid Hload Hwf. unfold build_safe_globals.
  rewrite (proj2 (String.eqb_neq sid "") Hsid), Hload. cbv zeta.
  eexists. split; [reflexivity|]. split; [|split; [|split]].
  - intros k v Hk Hp Hs.
    rewrite get_set_ne by (intros E; apply Hs; symmetry; exact E).
    destruct multi_mcp.
    + rewrite get_set_ne by (intros E; apply Hp; symmetry; exact E).
      apply get_update_present; assumption.
    + apply get_update_present; assumption.
  - intros [registry ->]. rewrite get_set_ne by discriminate. apply get_set_eq.
  - intros -> v Hv. rewrite get_set_ne by discriminate.
    apply get_update_present; assumption.
  - eexists. apply get_set_eq.
Qed.

(** [globals_schema] is a copy of the sandbox without [__builtins__],
    [final_answer] and [parallel]: it has none of these three, and every
    other name of the sandbox with the value the sandbox gives it. *)
Theorem globals_schema_mirrors_the_sandbox (mcp_funcs : pydict)
    (multi_mcp : option host) (fs : fsys) (sid : string) (sandbox : pydict) :
  build_safe_globals mcp_funcs multi_mcp fs sid = Returns sandbox ->
  exists schema,
    Dict.get sandbox "globals_schema" = Some (VDict schema)
    /\ (forall k, k ∈ ["__builtins__"; "final_answer"; "parallel"] -> Dict.get schema k = None)
    /\ (forall k, k ∉ ["__builtins__"; "final_answer"; "parallel"; "globals_schema"] ->
                  Dict.get schema k = Dict.get sandbox k).
Proof.
  unfold build_safe_globals.
  match goal with |- context [match ?x with Returns _ => _ | Raises _ => _ end] =>
    destruct x as [g4|e] end; [|discriminate].
  cbv zeta. intros [= <-].
  eexists. split; [apply get_set_eq|]. split.
  - intros k Hk.
    refine (eq_trans (get_filter_keys
                        (fun k => k ∉ ["__builtins__"; "final_answer"; "parallel"]) _ k) _).
    rewrite decide_False by (intros Hn; apply Hn, Hk). reflexivity.
  - intros k Hk.
    refine (eq_trans (get_filter_keys
                        (fun k => k ∉ ["__builtins__"; "final_answer"; "parallel"]) _ k) _).
    rewrite decide_True
      by (intros Hin; apply Hk; apply (elem_of_app [_; _; _]); left; exact Hin).
    rewrite (get_set_ne _ "globals_schema" k); [reflexivity|].
    intros <-. apply Hk. repeat constructor.
Qed.

(** *** The names of the sandbox *)

Lemma get_fold_set_absent {A B} (f : B -> A) (name : B -> string) (l : list B)
    (d : Dict.t A) (x : string) :
  x ∉ map name l ->
  Dict.get (fold_left (fun d b => Dict.set d (name b) (f b)) l d) x = Dict.get d x.
Proof.
  revert d. induction l as [|b l IH]; intros d Hx; simpl in *; [reflexivity|].
  apply not_elem_of_cons in Hx as [Hne Hx].
  rewrite IH by exact Hx. apply get_set_ne. intros E. apply Hne. symmetry. exact E.
Qed.

Lemma get_listed_absent {A} (f : string -> A) (l : list string) (x : string) :
  x ∉ l -> Dict.get (map (fun k => (k, f k)) l) x = None.
Proof.
  induction l as [|k l IH]; intros Hx; simpl; [reflexivity|].
  apply not_elem_of_cons in Hx as [Hne Hx].
  destruct (String.eqb_spec k x) as [->|_]; [contradiction | apply IH, Hx].
Qed.

Lemma get_listed_present {A} (f : string -> A) (l : list string) (x : string) :
  x ∈ l -> Dict.get (map (fun k => (k, f k)) l) x = Some (f x).
Proof.
  induction l as [|k l IH]; intros Hx; simpl; [apply elem_of_nil in Hx; contradiction|].
  destruct (String.eqb_spec k x) as [->|Hne]; [reflexivity|].
  apply elem_of_cons in Hx as [->|Hx]; [contradiction | apply IH, Hx].
Qed.

(** A name that no tool, no module and no variable of the session has, and
    that [build_safe_globals] does not set itself, is bound in the sandbox
    only if it is [__builtins__], and then to the builtins of
    [SAFE_BUILTINS]. *)
Lemma build_safe_globals_other (mcp_funcs vars sandbox : pydict)
    (multi_mcp : option host) (fs : fsys) (sid : string) (k : string) :
  build_safe_globals mcp_funcs multi_mcp fs sid = Returns sandbox ->
  (sid <> "" -> load_session_vars fs sid = Returns vars) ->
  k ∉ ALLOWED_MODULES ->
  k ∉ ["final_answer"; "parallel"; "globals_schema"] ->
  Dict.get mcp_funcs k = None ->
  Dict.get vars k = None ->
  Dict.get sandbox k
  = Dict.get [("__builtins__",
               VDict (map (fun k => (k, VNative (NBuiltin k))) SAFE_BUILTINS))] k.
Proof.
  intros Hbuild Hload Hmodule Hown Htool Hvar.
  assert (Hk1 : k <> "final_answer") by (intros ->; apply Hown; repeat constructor).
  assert (Hk2 : k <> "parallel") by (intros ->; apply Hown; repeat constructor).
  assert (Hk3 : k <> "globals_schema") by (intros ->; apply Hown; repeat constructor).
  revert Hbuild. unfold build_safe_globals.
  set (g3 := Dict.set _ "final_answer" _).
  assert (Hg3 : Dict.get g3 k
                = Dict.get [("__builtins__",
                             VDict (map (fun k => (k, VNative (NBuiltin k))) SAFE_BUILTINS))] k).
  { unfold g3.
    rewrite get_set_ne by (intros E; apply Hk1; symmetry; exact E).
    rewrite (get_fold_set_absent (fun m => VNative (NModule m)) id)
      by (rewrite map_id; exact Hmodule).
    apply get_update_absent, Htool. }
  clearbody g3.
  destruct (String.eqb_spec sid "") as [->|Hsid].
  - cbv zeta. intros [= <-].
    rewrite get_set_ne by (intros E; apply Hk3; symmetry; exact E).
    destruct multi_mcp;
      [rewrite get_set_ne by (intros E; apply Hk2; symmetry; exact E)|]; exact Hg3.
  - rewrite (Hload Hsid). cbv zeta. intros [= <-].
    rewrite get_set_ne by (intros E; apply Hk3; symmetry; exact E).
    destruct multi_mcp;
      [rewrite get_set_ne by (intros E; apply Hk2; symmetry; exact E)|];
      rewrite (get_update_absent _ _ _ Hvar); exact Hg3.
Qed.

Lemma builtins_is_no_module : "__builtins__" ∉ ALLOWED_MODULES.
Proof. apply (bool_decide_unpack _). vm_compute. exact I. Qed.

Lemma builtins_is_not_set : "__builtins__" ∉ ["final_answer"; "parallel"; "globals_schema"].
Proof. apply (bool_decide_unpack _). vm_compute. exact I. Qed.

(** The names a script can read are the listed ones: in the sandbox that
    [build_safe_globals] returns, a name that is no variable of the script,
    no builtin of [SAFE_BUILTINS], no module of [ALLOWED_MODULES], no tool,
    no variable of the session and none of the four names the function
    sets itself is not defined -- reading it raises [NameError].  (The
    tools and the session are taken not to redefine [__builtins__].) *)
Theorem unlisted_name_is_not_defined (H : host) (mcp_funcs vars sandbox : pydict)
    (multi_mcp : option host) (fs : fsys) (sid : string) (scope : list string)
    (x : string) (st : state) :
  build_safe_globals mcp_funcs multi_mcp fs sid = Returns sandbox ->
  (sid <> "" -> load_session_vars fs sid = Returns vars) ->
  globals st = sandbox ->
  x ∉ scope ->
  x ∉ SAFE_BUILTINS ->
  x ∉ ALLOWED_MODULES ->
  x ∉ ["__builtins__"; "final_answer"; "parallel"; "globals_schema"] ->
  Dict.get mcp_funcs x = None ->
  Dict.get vars x = None ->
  Dict.get mcp_funcs "__builtins__" = None ->
  Dict.get vars "__builtins__" = None ->
  load_name H scope x st
  = Raise (Exn NameErr "NameError" ("name '" +:+ x +:+ "' is not defined")) st.
Proof.
  intros Hbuild Hload Hglobals Hscope Hbuiltin Hmodule Hown Htool Hvar Htoolb Hvarb.
  apply not_elem_of_cons in Hown as [Hx Hown].
  unfold load_name. rewrite (bool_decide_false _ Hscope), Hglobals.
  rewrite (build_safe_globals_other _ _ _ _ _ _ x Hbuild Hload Hmodule Hown Htool Hvar).
  rewrite (build_safe_globals_other _ _ _ _ _ _ "__builtins__" Hbuild Hload
             builtins_is_no_module builtins_is_not_set Htoolb Hvarb).
  cbn [Dict.get]. rewrite String.eqb_refl.
  destruct (String.eqb_spec "__builtins__" x) as [E|_]; [exfalso; apply Hx; symmetry; exact E|].
  rewrite (get_listed_absent _ _ _ Hbuiltin). reflexivity.
Qed.

(** A builtin of [SAFE_BUILTINS] is read as Python's own builtin of that
    name, unless a tool, a module or a variable of the session has the
    name.  [__import__] is one of them: a script reaches the import
    function of Python itself, which [ALLOWED_MODULES] does not restrict. *)
Theorem safe_builtin_is_the_builtin (H : host) (mcp_funcs vars sandbox : pydict)
    (multi_mcp : option host) (fs : fsys) (sid : string) (scope : list string)
    (x : string) (st : state) :
  build_safe_globals mcp_funcs multi_mcp fs sid = Returns sandbox ->
  (sid <> "" -> load_session_vars fs sid = Returns vars) ->
  globals st = sandbox ->
  x ∉ scope ->
  x ∈ SAFE_BUILTINS ->
  x ∉ ALLOWED_MODULES ->
  x ∉ ["__builtins__"; "final_answer"; "parallel"; "globals_schema"] ->
  Dict.get mcp_funcs x = None ->
  Dict.get vars x = None ->
  Dict.get mcp_funcs "__builtins__" = None ->
  Dict.get vars "__builtins__" = None ->
  load_name H scope x st = Ok (VNative (NBuiltin x)) st.
Proof.
  intros Hbuild Hload Hglobals Hscope Hbuiltin Hmodule Hown Htool Hvar Htoolb Hvarb.
  apply not_elem_of_cons in Hown as [Hx Hown].
  unfold load_name. rewrite (bool_decide_false _ Hscope), Hglobals.
  rewrite (build_safe_globals_other _ _ _ _ _ _ x Hbuild Hload Hmodule Hown Htool Hvar).
  rewrite (build_safe_globals_other _ _ _ _ _ _ "__builtins__" Hbuild Hload
             builtins_is_no_module builtins_is_not_set Htoolb Hvarb).
  cbn [Dict.get]. rewrite String.eqb_refl.
  destruct (String.eqb_spec "__builtins__" x) as [E|_]; [exfalso; apply Hx; symmetry; exact E|].
  rewrite (get_listed_present (fun k => VNative (NBuiltin k)) _ _ Hbuiltin). reflexivity.
Qed.

End Sandbox.

(** ** Properties of [run_user_code] *)

Section Executor.
Context (H : host).

Lemma run_block_app (ex : stmt -> state -> sres) (a b : list stmt) (st : state) :
  run_block ex (a ++ b) st =
    match run_block ex a st with
    | Next st' => run_block ex b st'
    | r => r
    end.
Proof.
  revert st. induction a as [|s a IH]; intros st; simpl; [reflexivity|].
  destruct (ex s st); try reflexivity. apply IH.
Qed.

(** A script whose text does not parse is answered by the generic clause,
    before anything else is done: the repair of [cleaned_code] comes after
    [count_function_calls] has parsed the text as it was received. *)
Lemma run_user_code_no_parse (code sid : string) (fs : fsys) (fuel : nat) (msg : string) :
  ast_parse H code = NoParse msg ->
  run_user_code H code sid fs fuel = Some (handle 0 (SyntaxError msg), fs, []).
Proof. intros Hp. unfold run_user_code, count_function_calls. rewrite Hp. reflexivity. Qed.

(** [run_user_code] up to the call of [__main]. *)
Lemma run_user_code_exec (code sid : string) (fs : fsys) (fuel : nat)
    (counted tree : list stmt) (sandbox : pydict) :
  ast_parse H code = Module_ counted ->
  count_calls counted <= MAX_FUNCTIONS ->
  build_safe_globals (tool_funcs H) (Some H) fs sid = Returns sandbox ->
  ast_parse H (cleaned_code code) = Module_ tree ->
  prepare H tree <> [] ->
  run_user_code H code sid fs fuel =
    let func_count := count_calls counted in
    match exec_body H (local_names (prepare H tree)) (timeout_of func_count * 1000) fuel
            (prepare H tree) (initial_state sandbox (session_read sid)) with
    | NoFuel => None
    | Cancel st => Some (handle func_count (Exn TimeoutErr "TimeoutError" ""), fs, trace st)
    | Err e st => Some (handle func_count e, fs, trace st)
    | Ret v st => Some (finish H func_count sid fs v (trace st))
    | Next st => Some (finish H func_count sid fs VNone (trace st))
    end.
Proof.
  intros Hp Hc Hb Hp' Hne. unfold run_user_code, count_function_calls. rewrite Hp.
  destruct (Nat.ltb_spec MAX_FUNCTIONS (count_calls counted)) as [Hlt|_]; [lia|].
  rewrite Hb, Hp'. destruct (prepare H tree) eqn:E; [contradiction|]. reflexivity.
Qed.

(** C3.  A script with more than [MAX_FUNCTIONS] = 20 call expressions is
    answered with the error response "Too many functions (n > 20)" before
    anything is executed: the session files are as they were, and no event
    took place -- no tool was called and no session file was read (building
    the sandbox reads one) or written.  The response does not depend on the
    fuel, the session or the files. *)
Theorem too_many_calls_rejected (code sid : string) (fs : fsys) (fuel : nat)
    (counted : list stmt) :
  ast_parse H code = Module_ counted ->
  MAX_FUNCTIONS < count_calls counted ->
  run_user_code H code sid fs fuel
  = Some (EnvError (VStr (Str.cat ["Too many functions (";
                                   Str.of_nat (count_calls counted); " > 20)"])) false,
          fs, []).
Proof.
  intros Hp Hc. unfold run_user_code, count_function_calls. rewrite Hp.
  destruct (Nat.ltb_spec MAX_FUNCTIONS (count_calls counted)) as [_|Hle]; [|lia].
  reflexivity.
Qed.

(** *** The passes, seen from the top-level statements *)

Lemma is_return_visit (f : expr -> expr) (s : stmt) :
  is_return (visit_stmt f s) = is_return s.
Proof. destruct s; reflexivity. Qed.

Lemma assigned_visit (f : expr -> expr) (s : stmt) : assigned (visit_stmt f s) = assigned s.
Proof.
  induction s as [ts e|e|e| |t b IHb|t b c IHb IHc] using stmt_ind'; simpl;
    rewrite ?map_map; try reflexivity.
  - f_equal. apply map_ext_Forall. exact IHb.
  - f_equal; f_equal; apply map_ext_Forall; assumption.
Qed.

Lemma assigned_rewrite_return (s : stmt) : assigned (rewrite_return s) = assigned s.
Proof. destruct s as [| [[]|] | | | |]; reflexivity. Qed.

Lemma passes_app (a b : list stmt) : passes H (a ++ b) = passes H a ++ passes H b.
Proof. unfold passes, AwaitTransformer, KeywordStripper. rewrite !map_app. reflexivity. Qed.

Lemma passes_cons (s : stmt) (b : list stmt) : passes H (s :: b) = passes H [s] ++ passes H b.
Proof. apply (passes_app [s] b). Qed.

Lemma passes_nil_inv (body : list stmt) : passes H body = [] -> body = [].
Proof. destruct body; [reflexivity | discriminate]. Qed.

Lemma local_names_passes (body : list stmt) : local_names (passes H body) = local_names body.
Proof.
  unfold local_names, passes, AwaitTransformer, KeywordStripper. rewrite !map_map.
  f_equal. apply map_ext_Forall, Forall_forall. intros s _.
  rewrite assigned_rewrite_return, !assigned_visit. reflexivity.
Qed.

Lemma return_found_visited (f g : expr -> expr) (body : list stmt) :
  return_found (map (visit_stmt f) (map (visit_stmt g) body)) = return_found body.
Proof.
  unfold return_found. induction body as [|s body IH]; simpl; [reflexivity|].
  rewrite !is_return_visit, IH. reflexivity.
Qed.

Lemma result_vars_visited (f g : expr -> expr) (body : list stmt) :
  result_vars (map (visit_stmt f) (map (visit_stmt g) body)) = result_vars body.
Proof.
  unfold result_vars. induction body as [|s body IH]; [reflexivity|].
  destruct s as [[|t ts] e| | | | |]; cbn; rewrite <- IH; reflexivity.
Qed.

(** The prepared body: the passes, and [return result] after them when the
    script has no top-level [return] and assigns [result] at top level
    (as the first target of the assignment). *)
Lemma prepare_unfold (tree : list stmt) :
  prepare H tree =
    if negb (return_found tree) && bool_decide ("result" ∈ result_vars tree)
    then passes H tree ++ [Return (Some (Name "result"))]
    else passes H tree.
Proof.
  unfold prepare, normalize_body, passes, AwaitTransformer, KeywordStripper.
  rewrite return_found_visited, result_vars_visited. reflexivity.
Qed.

Lemma local_names_prepare (tree : list stmt) : local_names (prepare H tree) = local_names tree.
Proof.
  rewrite prepare_unfold. destruct (_ && _); [|apply local_names_passes].
  unfold local_names. rewrite map_app, concat_app. simpl.
  rewrite app_nil_r. apply local_names_passes.
Qed.

(** *** The serializer on JSON values *)

Lemma serialize_result_json (v : value) :
  json_unserializable v = None -> serialize_result H v = Returns v.
Proof. destruct v; simpl; intros Hj; try reflexivity; discriminate. Qed.

Lemma unsuccessful_json (v : value) : json_unserializable v = None -> unsuccessful v = false.
Proof. destruct v; simpl; intros Hj; try reflexivity; discriminate. Qed.

(** A returned mapping with one field that holds a JSON value: the field is
    kept as it is, unless it is a string that the first scan flags. *)
Lemma collect_result_single (x : string) (v : value) :
  json_unserializable v = None ->
  collect_result H (VDict [(x, v)]) =
    Returns (if signals_failure v then inl (EnvError v false) else inr [(x, v)]).
Proof.
  intros Hj. unfold collect_result. simpl.
  rewrite (serialize_result_json v Hj).
  destruct (bool_decide _); [destruct (String.eqb x "")|]; simpl;
    try (destruct (String.eqb x "result")); simpl;
    rewrite ?(serialize_result_json v Hj);
    destruct (signals_failure v); try reflexivity;
    rewrite (unsuccessful_json v Hj); reflexivity.
Qed.

(** *** After [__main] returned *)

Lemma finish_saves (n : nat) (sid : string) (fs : fsys) (returned : value)
    (events : list event) (existing result_value : pydict) :
  collect_result H returned = Returns (inr result_value) ->
  log_json_block H result_value = Returns () ->
  load_session_vars fs sid = Returns existing ->
  json_safe existing -> json_safe result_value ->
  finish H n sid fs returned events =
    (EnvSuccess result_value,
     <[session_path sid := JsonFile (Dict.update existing result_value)]> fs,
     events ++ [FileRead (session_path sid); FileWrite (session_path sid)]).
Proof.
  intros Hc Hlog Hl He Hr. unfold finish. rewrite Hc, Hlog.
  rewrite (save_session_vars_ok fs sid existing result_value Hl He Hr). reflexivity.
Qed.

Lemma finish_reports (n : nat) (sid : string) (fs : fsys) (returned : value)
    (events : list event) (failure : envelope) :
  collect_result H returned = Returns (inl failure) ->
  finish H n sid fs returned events = (failure, fs, events).
Proof. intros Hc. unfold finish. rewrite Hc. reflexivity. Qed.

Lemma exec_return_named (scope : list string) (deadline fuel : nat) (x : string)
    (v : value) (st : state) :
  x ∈ scope -> Dict.get (locals st) x = Some v ->
  exec H scope deadline (S fuel) (Return (Some (DictE [(x, Name x)]))) st
  = Ret (VDict [(x, v)]) (elapse st (cpu_cost H)).
Proof.
  intros Hx Hv. simpl. unfold load_name. rewrite (bool_decide_true _ Hx). simpl.
  rewrite Hv. reflexivity.
Qed.

Lemma exec_return_name (scope : list string) (deadline fuel : nat) (x : string)
    (v : value) (st : state) :
  x ∈ scope -> Dict.get (locals st) x = Some v ->
  exec H scope deadline (S fuel) (Return (Some (Name x))) st
  = Ret v (elapse st (cpu_cost H)).
Proof.
  intros Hx Hv. simpl. unfold load_name. rewrite (bool_decide_true _ Hx). simpl.
  rewrite Hv. reflexivity.
Qed.

(** A block that ran to its end with no fuel is empty. *)
Lemma run_block_no_fuel (scope : list string) (deadline : nat) (body : list stmt)
    (st st' : state) :
  run_block (exec H scope deadline 0) body st = Next st' -> body = [].
Proof. destruct body; [reflexivity | discriminate]. Qed.

(** C1, as amended.  Take a script with at most 20 calls whose top-level
    statements assign [x] and come to a top-level [return x], and a session
    whose record is absent or holds JSON.  The bare return is rewritten to
    [return {"x": x}].  When the statements before it run to their end and
    leave [x] bound to a JSON value [v] (None, a boolean, an integer, a
    string, a list or a dictionary of such), and [log_json_block] prints
    [{"x": v}], the response is the success response with result exactly
    [{"x": v}], saved to the session -- unless [v] is a string that the
    failure scan flags (it starts with "error executing tool" or "error:",
    or contains "failed", whatever the case of the letters): then the
    response is the error response with [v] as its message, and nothing is
    saved. *)
Theorem return_name_gives_named_field (code sid : string) (fs : fsys) (fuel : nat)
    (counted pre post : list stmt) (x : string) (sandbox existing : pydict)
    (st : state) (v : value) :
  let tree := pre ++ Return (Some (Name x)) :: post in
  ast_parse H code = Module_ counted ->
  count_calls counted <= MAX_FUNCTIONS ->
  ast_parse H (cleaned_code code) = Module_ tree ->
  x ∈ local_names pre ->
  build_safe_globals (tool_funcs H) (Some H) fs sid = Returns sandbox ->
  load_session_vars fs sid = Returns existing ->
  json_safe existing ->
  exec_body H (local_names tree) (timeout_of (count_calls counted) * 1000) fuel
    (passes H pre) (initial_state sandbox (session_read sid)) = Next st ->
  Dict.get (locals st) x = Some v ->
  json_unserializable v = None ->
  log_json_block H [(x, v)] = Returns () ->
  prepare H tree = passes H pre ++ Return (Some (DictE [(x, Name x)])) :: passes H post
  /\ run_user_code H code sid fs fuel =
       Some (if signals_failure v
             then (EnvError v false, fs, trace st)
             else (EnvSuccess [(x, v)],
                   <[session_path sid := JsonFile (Dict.update existing [(x, v)])]> fs,
                   trace st ++ [FileRead (session_path sid); FileWrite (session_path sid)])).
Proof.
  intros tree Hp Hc Hp' Hx Hb Hl He Hrun Hv Hj Hlog.
  assert (Hprep : prepare H tree
                  = passes H pre ++ Return (Some (DictE [(x, Name x)])) :: passes H post).
  { rewrite prepare_unfold.
    assert (Hfound : return_found tree = true).
    { unfold return_found, tree. rewrite existsb_app. simpl. apply orb_true_r. }
    rewrite Hfound. simpl. unfold tree. rewrite passes_app, passes_cons. reflexivity. }
  split; [exact Hprep|].
  rewrite (run_user_code_exec code sid fs fuel counted tree sandbox Hp Hc Hb Hp')
    by (rewrite Hprep; destruct (passes H pre); discriminate).
  cbv zeta. rewrite local_names_prepare, Hprep.
  unfold exec_body in *. rewrite run_block_app, Hrun.
  destruct fuel as [|fuel].
  { apply run_block_no_fuel, passes_nil_inv in Hrun. subst pre.
    apply elem_of_nil in Hx. contradiction. }
  assert (Hscope : x ∈ local_names tree).
  { unfold local_names, tree. rewrite map_app, concat_app. apply elem_of_app. left. exact Hx. }
  cbn [run_block]. rewrite (exec_return_named _ _ _ x v st Hscope Hv).
  f_equal. cbn [trace elapse].
  pose proof (collect_result_single x v Hj) as Hcol.
  destruct (signals_failure v).
  - apply finish_reports. exact Hcol.
  - apply finish_saves; [exact Hcol | exact Hlog | exact Hl | exact He |].
    repeat constructor. exact Hj.
Qed.

Lemma result_vars_assign (tree : list stmt) (x : string) (ts : list string) (e : expr) :
  Assign (x :: ts) e ∈ tree -> x ∈ result_vars tree.
Proof.
  intros Hin. unfold result_vars. apply list_elem_of_omap.
  exists (Assign (x :: ts) e). split; [exact Hin | reflexivity].
Qed.

Lemma local_names_assign (tree : list stmt) (x : string) (ts : list string) (e : expr) :
  Assign ts e ∈ tree -> x ∈ ts -> x ∈ local_names tree.
Proof.
  intros Hin Hx. unfold local_names.
  induction tree as [|s tree IH]; [apply elem_of_nil in Hin; contradiction|].
  simpl. apply elem_of_app. apply elem_of_cons in Hin as [<-|Hin]; [left | right].
  - exact Hx.
  - apply IH, Hin.
Qed.

(** C9, as amended.  Take a script with at most 20 calls, no top-level
    [return] and a top-level assignment [result = 5], and a session whose
    record is absent or holds JSON.  A trailing [return result] is
    synthesized.  When the statements of the script run to their end and
    leave [result] bound to 5, and [log_json_block] prints [{"result": 5}],
    the response is the success response with result exactly
    [{"result": 5}], saved to the session. *)
Theorem result_assignment_is_returned (code sid : string) (fs : fsys) (fuel : nat)
    (counted tree : list stmt) (sandbox existing : pydict) (st : state) :
  ast_parse H code = Module_ counted ->
  count_calls counted <= MAX_FUNCTIONS ->
  ast_parse H (cleaned_code code) = Module_ tree ->
  return_found tree = false ->
  Assign ["result"] (Constant (CInt 5)) ∈ tree ->
  build_safe_globals (tool_funcs H) (Some H) fs sid = Returns sandbox ->
  load_session_vars fs sid = Returns existing ->
  json_safe existing ->
  exec_body H (local_names tree) (timeout_of (count_calls counted) * 1000) fuel
    (passes H tree) (initial_state sandbox (session_read sid)) = Next st ->
  Dict.get (locals st) "result" = Some (VInt 5) ->
  log_json_block H [("result", VInt 5)] = Returns () ->
  prepare H tree = passes H tree ++ [Return (Some (Name "result"))]
  /\ run_user_code H code sid fs fuel =
       Some (EnvSuccess [("result", VInt 5)],
             <[session_path sid := JsonFile (Dict.update existing [("result", VInt 5)])]> fs,
             trace st ++ [FileRead (session_path sid); FileWrite (session_path sid)]).
Proof.
  intros Hp Hc Hp' Hnoret Hassign Hb Hl He Hrun Hv Hlog.
  assert (Hprep : prepare H tree = passes H tree ++ [Return (Some (Name "result"))]).
  { rewrite prepare_unfold, Hnoret.
    rewrite (bool_decide_true _ (result_vars_assign tree _ _ _ Hassign)). reflexivity. }
  split; [exact Hprep|].
  rewrite (run_user_code_exec code sid fs fuel counted tree sandbox Hp Hc Hb Hp')
    by (rewrite Hprep; destruct (passes H tree); discriminate).
  cbv zeta. rewrite local_names_prepare, Hprep.
  unfold exec_body in *. rewrite run_block_app, Hrun.
  destruct fuel as [|fuel].
  { apply run_block_no_fuel, passes_nil_inv in Hrun. subst tree.
    apply elem_of_nil in Hassign. contradiction. }
  assert (Hscope : "result" ∈ local_names tree).
  { apply (local_names_assign tree "result" _ _ Hassign). apply list_elem_of_singleton.
    reflexivity. }
  cbn [run_block]. rewrite (exec_return_name _ _ _ "result" (VInt 5) st Hscope Hv).
  f_equal. cbn [trace elapse].
  apply finish_saves; [reflexivity | exact Hlog | exact Hl | exact He |].
  repeat constructor.
Qed.

(** *** The two scans *)

Lemma serialize_fields_app (a b : pydict) :
  serialize_fields H (a ++ b) =
    match serialize_fields H a with
    | Raises e => Raises e
    | Returns a' =>
        match serialize_fields H b with
        | Raises e => Raises e
        | Returns b' => Returns (a' ++ b')
        end
    end.
Proof.
  induction a as [|[k v] a IH]; simpl.
  - destruct (serialize_fields H b); reflexivity.
  - destruct (serialize_result H v); [|reflexivity]. rewrite IH.
    destruct (serialize_fields H a); [|reflexivity].
    destruct (serialize_fields H b); reflexivity.
Qed.

Lemma find_app {A} (p : A -> bool) (a b : list A) :
  find p (a ++ b) = match find p a with Some x => Some x | None => find p b end.
Proof. induction a as [|x a IH]; simpl; [reflexivity|]. destruct (p x); [reflexivity | exact IH]. Qed.

(** What [run_user_code] makes of a returned mapping whose fields can all
    be serialized: the first field that the string scan flags, else the
    first unsuccessful outcome, else the serialized mapping. *)
Lemma collect_result_fields (d result_value : pydict) :
  serialize_fields H d = Returns result_value ->
  collect_result H (VDict d) =
    match find signals_failure (Dict.values result_value) with
    | Some v => Returns (inl (EnvError v false))
    | None =>
        match find (fun kv => unsuccessful kv.2) d with
        | Some kv => Returns (inl (EnvError (failure_message kv.1 kv.2) false))
        | None => Returns (inr result_value)
        end
    end.
Proof.
  intros Hs. unfold collect_result. rewrite Hs.
  destruct (bool_decide (Dict.keys d = ["result"])) eqn:E; [|reflexivity].
  apply bool_decide_eq_true in E.
  destruct d as [|[k v] [|kv d]]; try discriminate.
  simpl in E. injection E as ->. simpl in *.
  destruct (serialize_result H v); [reflexivity | discriminate].
Qed.

(** A structured tool outcome whose [success] is false is serialized to
    "Error executing tool: " and its [error], and the string scan flags
    that. *)
Lemma serialize_result_unsuccessful (v success content error : value) :
  getattr v "success" = Some success ->
  getattr v "content" = Some content ->
  getattr v "error" = Some error ->
  truthy success = false ->
  serialize_result H v = Returns (VStr ("Error executing tool: " +:+ py_str H error)).
Proof.
  intros Hs Hc He Ht. destruct v; try discriminate.
  unfold serialize_result. rewrite Hs, Hc, He, Ht. reflexivity.
Qed.

Lemma signals_failure_tool_error (msg : string) :
  signals_failure (VStr ("Error executing tool: " +:+ msg)) = true.
Proof. reflexivity. Qed.

Lemma finish_unsuccessful_outcome (n : nat) (sid : string) (fs : fsys)
    (events : list event) (before after before' after' : pydict) (k : string)
    (v success content error : value) :
  getattr v "success" = Some success ->
  getattr v "content" = Some content ->
  getattr v "error" = Some error ->
  truthy success = false ->
  serialize_fields H before = Returns before' ->
  serialize_fields H after = Returns after' ->
  let returned := VDict (before ++ (k, v) :: after) in
  let reported := VStr ("Error executing tool: " +:+ py_str H error) in
  (exists flagged,
      find signals_failure (Dict.values (before' ++ (k, reported) :: after')) = Some flagged
      /\ finish H n sid fs returned events = (EnvError flagged false, fs, events))
  /\ (find signals_failure (Dict.values before') = None ->
      finish H n sid fs returned events = (EnvError reported false, fs, events))
  /\ reported <> error.
Proof.
  intros Hs Hc He Ht Hb Ha returned reported.
  assert (Hfields : serialize_fields H (before ++ (k, v) :: after)
                    = Returns (before' ++ (k, reported) :: after')).
  { rewrite serialize_fields_app, Hb. simpl.
    rewrite (serialize_result_unsuccessful v success content error Hs Hc He Ht), Ha.
    reflexivity. }
  pose proof (collect_result_fields _ _ Hfields) as Hcol.
  assert (Hfind : find signals_failure (Dict.values (before' ++ (k, reported) :: after'))
                  = match find signals_failure (Dict.values before') with
                    | Some x => Some x
                    | None => Some reported
                    end).
  { unfold Dict.values. rewrite map_app, find_app.
    change (map snd ((k, reported) :: after')) with (reported :: map snd after').
    change (find signals_failure (reported :: map snd after'))
      with (if signals_failure reported then Some reported
            else find signals_failure (map snd after')).
    unfold reported. rewrite signals_failure_tool_error. reflexivity. }
  split; [|split].
  - rewrite Hfind in *. destruct (find signals_failure (Dict.values before')) as [x|].
    + exists x. split; [reflexivity|]. apply finish_reports. exact Hcol.
    + exists reported. split; [reflexivity|]. apply finish_reports. exact Hcol.
  - intros Hnone. rewrite Hfind, Hnone in Hcol. apply finish_reports. exact Hcol.
  - unfold reported. intros Heq.
    destruct error as [| | |msg| | | | | |]; try discriminate.
    injection Heq as Heq. apply (f_equal String.length) in Heq.
    cbv in Heq. lia.
Qed.

(** C4, as amended.  When the returned mapping has a field that is a
    structured tool outcome (an object with [success], [content] and
    [error]) whose [success] is false, and its fields can be serialized, the
    response is an error response and nothing is saved.  The message comes
    from the string scan of the serialized fields, which runs first: it is
    the first serialized field that the scan flags.  When no field before
    the outcome is flagged, the message is "Error executing tool: " followed
    by the outcome's [error]; it is not the [error] field alone, which is
    what the scan for unsuccessful outcomes, which runs second, would have
    reported. *)
Theorem unsuccessful_outcome_is_reported (code sid : string) (fs : fsys) (fuel : nat)
    (counted tree : list stmt) (sandbox : pydict) (st : state)
    (before after before' after' : pydict) (k : string)
    (v success content error : value) :
  ast_parse H code = Module_ counted ->
  count_calls counted <= MAX_FUNCTIONS ->
  ast_parse H (cleaned_code code) = Module_ tree ->
  build_safe_globals (tool_funcs H) (Some H) fs sid = Returns sandbox ->
  exec_body H (local_names tree) (timeout_of (count_calls counted) * 1000) fuel
    (prepare H tree) (initial_state sandbox (session_read sid))
  = Ret (VDict (before ++ (k, v) :: after)) st ->
  getattr v "success" = Some success ->
  getattr v "content" = Some content ->
  getattr v "error" = Some error ->
  truthy success = false ->
  serialize_fields H before = Returns before' ->
  serialize_fields H after = Returns after' ->
  let reported := VStr ("Error executing tool: " +:+ py_str H error) in
  (exists flagged,
      find signals_failure (Dict.values (before' ++ (k, reported) :: after')) = Some flagged
      /\ run_user_code H code sid fs fuel = Some (EnvError flagged false, fs, trace st))
  /\ (find signals_failure (Dict.values before') = None ->
      run_user_code H code sid fs fuel = Some (EnvError reported false, fs, trace st))
  /\ reported <> error.
Proof.
  intros Hp Hc Hp' Hb Hrun Hs Hcn He Ht Hbefore Hafter reported.
  assert (Hne : prepare H tree <> []).
  { intros Hnil. rewrite Hnil in Hrun. discriminate. }
  rewrite (run_user_code_exec code sid fs fuel counted tree sandbox Hp Hc Hb Hp' Hne).
  cbv zeta. rewrite local_names_prepare, Hrun.
  destruct (finish_unsuccessful_outcome (count_calls counted) sid fs (trace st)
              before after before' after' k v success content error
              Hs Hcn He Ht Hbefore Hafter) as ((flagged & Hfind & Hfin) & Hfirst & Hneq).
  split; [|split].
  - exists flagged. split; [exact Hfind|]. rewrite Hfin. reflexivity.
  - intros Hnone. rewrite (Hfirst Hnone). reflexivity.
  - exact Hneq.
Qed.

(** *** Fuel *)

Lemma exec_S (scope : list string) (deadline fuel : nat) (s : stmt) (st0 : state) :
  exec H scope deadline (S fuel) s st0 =
    let st := elapse st0 (cpu_cost H) in
    match s with
    | Assign targets e =>
        on_value (eval H scope deadline e st) (fun v st =>
          Next (fold_left (fun st x => set_local st x v) targets st))
    | Return None => Ret VNone st
    | Return (Some e) => on_value (eval H scope deadline e st) Ret
    | Expr e => on_value (eval H scope deadline e st) (fun _ st => Next st)
    | Pass => Next st
    | While test body =>
        on_value (eval H scope deadline test st) (fun t st =>
          if truthy t then
            match run_block (exec H scope deadline fuel) body st with
            | Next st' => exec H scope deadline fuel (While test body) st'
            | r => r
            end
          else Next st)
    | If test body orelse =>
        on_value (eval H scope deadline test st) (fun t st =>
          run_block (exec H scope deadline fuel) (if truthy t then body else orelse) st)
    end.
Proof. reflexivity. Qed.

Lemma run_block_mono (ex ex' : stmt -> state -> sres) (body : list stmt) :
  (forall s st, ex s st <> NoFuel -> ex' s st = ex s st) ->
  forall st, run_block ex body st <> NoFuel -> run_block ex' body st = run_block ex body st.
Proof.
  intros Hex. induction body as [|s body IH]; intros st Hb; [reflexivity|].
  cbn [run_block] in *. destruct (ex s st) eqn:E;
    try (exfalso; apply Hb; reflexivity);
    rewrite Hex, E by (rewrite E; discriminate); try reflexivity.
  apply IH, Hb.
Qed.

(** The fuel only says how long a run is followed: a statement that came to
    an outcome comes to the same outcome with more fuel. *)
Lemma exec_fuel_S (scope : list string) (deadline fuel : nat) (s : stmt) (st : state) :
  exec H scope deadline fuel s st <> NoFuel ->
  exec H scope deadline (S fuel) s st = exec H scope deadline fuel s st.
Proof.
  revert s st. induction fuel as [|fuel IH]; intros s st Hs; [contradiction|].
  rewrite exec_S in Hs. rewrite (exec_S _ _ (S fuel)), (exec_S _ _ fuel). cbv zeta in *.
  destruct s as [ts e|[e|]|e| |t b|t b c]; try reflexivity.
  - unfold on_value in *.
    destruct (eval H scope deadline t (elapse st (cpu_cost H))) as [v st1|e st1|st1];
      try reflexivity.
    destruct (truthy v); [|reflexivity].
    destruct (run_block (exec H scope deadline fuel) b st1) eqn:E;
      try (exfalso; apply Hs; reflexivity);
      rewrite (run_block_mono _ _ b IH), E by (rewrite E; discriminate); try reflexivity.
    apply IH, Hs.
  - unfold on_value in *.
    destruct (eval H scope deadline t (elapse st (cpu_cost H))) as [v st1|e st1|st1];
      try reflexivity.
    apply (run_block_mono _ _ _ IH), Hs.
Qed.

Lemma run_block_fuel_S (scope : list string) (deadline fuel : nat) (body : list stmt)
    (st : state) :
  run_block (exec H scope deadline fuel) body st <> NoFuel ->
  run_block (exec H scope deadline (S fuel)) body st
  = run_block (exec H scope deadline fuel) body st.
Proof. apply run_block_mono. intros s. apply exec_fuel_S. Qed.

Lemma exec_body_fuel_le (scope : list string) (deadline fuel fuel' : nat)
    (body : list stmt) (st : state) :
  fuel <= fuel' ->
  exec_body H scope deadline fuel body st <> NoFuel ->
  exec_body H scope deadline fuel' body st = exec_body H scope deadline fuel body st.
Proof.
  unfold exec_body. intros Hle Hb. induction Hle as [|fuel' _ IH]; [reflexivity|].
  rewrite run_block_fuel_S; rewrite IH; [reflexivity | exact Hb].
Qed.

(** Once [run_user_code] has returned, following the run for longer changes
    nothing. *)
Lemma run_user_code_fuel_le (code sid : string) (fs : fsys) (fuel fuel' : nat)
    (out : envelope * fsys * list event) :
  fuel <= fuel' ->
  run_user_code H code sid fs fuel = Some out ->
  run_user_code H code sid fs fuel' = Some out.
Proof.
  intros Hle. unfold run_user_code, count_function_calls.
  destruct (ast_parse H code) as [counted|msg]; [|exact id].
  destruct (MAX_FUNCTIONS <? count_calls counted)%nat; [exact id|].
  destruct (build_safe_globals (tool_funcs H) (Some H) fs sid) as [sandbox|e]; [|exact id].
  destruct (ast_parse H (cleaned_code code)) as [tree|msg]; [|exact id].
  destruct (prepare H tree) as [|s body] eqn:E; [exact id|].
  intros Hrun.
  rewrite (exec_body_fuel_le _ _ fuel fuel' _ _ Hle); [exact Hrun|].
  intros Hno. rewrite Hno in Hrun. discriminate.
Qed.

(** *** Time *)

(** A loop on a constant that is true, with nothing in it, does not end and
    is not cancelled, however long it is followed. *)
Lemma constant_loop_no_outcome (scope : list string) (deadline fuel : nat) (c : constant)
    (st : state) :
  truthy (value_of_constant c) = true ->
  exec H scope deadline fuel (While (Constant c) [Pass]) st = NoFuel.
Proof.
  intros Hc. revert st. induction fuel as [|fuel IH]; intros st; [reflexivity|].
  rewrite exec_S. cbv zeta. cbn [eval on_value]. rewrite Hc.
  destruct fuel as [|fuel]; [reflexivity|].
  change (run_block (exec H scope deadline (S fuel)) [Pass] (elapse st (cpu_cost H)))
    with (Next (elapse (elapse st (cpu_cost H)) (cpu_cost H))).
  cbv iota beta. apply IH.
Qed.

Lemma busy_loop_never_returns (code sid : string) (fs : fsys) (sandbox : pydict)
    (fuel : nat) :
  ast_parse H code = Module_ [While (Constant (CBool true)) [Pass]] ->
  ast_parse H (cleaned_code code) = Module_ [While (Constant (CBool true)) [Pass]] ->
  build_safe_globals (tool_funcs H) (Some H) fs sid = Returns sandbox ->
  run_user_code H code sid fs fuel = None.
Proof.
  intros Hp Hp' Hb.
  rewrite (run_user_code_exec code sid fs fuel _ _ sandbox Hp ltac:(cbv; lia) Hb Hp')
    by discriminate.
  cbv zeta. change (prepare H [While (Constant (CBool true)) [Pass]])
    with [While (Constant (CBool true)) [Pass]].
  unfold exec_body. cbn [run_block]. rewrite constant_loop_no_outcome; reflexivity.
Qed.

Lemma keys_set {A} (d : Dict.t A) (k x : string) (v : A) :
  x ∈ Dict.keys (Dict.set d k v) <-> x = k \/ x ∈ Dict.keys d.
Proof.
  unfold Dict.keys. induction d as [|[k' v'] d IH]; simpl.
  - rewrite list_elem_of_singleton, elem_of_nil. tauto.
  - destruct (String.eqb_spec k' k) as [->|Hne]; simpl.
    + rewrite !elem_of_cons. tauto.
    + rewrite !elem_of_cons, IH. tauto.
Qed.

(** Every registered tool has its proxy, so its calls are awaited. *)
Lemma tool_funcs_keys (tool : string) :
  tool ∈ get_all_tools H -> tool ∈ Dict.keys (tool_funcs H).
Proof.
  unfold tool_funcs. generalize (@nil (string * value)).
  induction (get_all_tools H) as [|t l IH]; intros d Hin; simpl.
  - apply elem_of_nil in Hin. contradiction.
  - apply elem_of_cons in Hin as [->|Hin]; [|apply IH, Hin].
    clear IH. assert (Hk : t ∈ Dict.keys (Dict.set d t (make_tool_proxy t))).
    { apply keys_set. left. reflexivity. }
    revert Hk. generalize (Dict.set d t (make_tool_proxy t)).
    induction l as [|t' l IH]; intros d' Hk; simpl; [exact Hk|].
    apply IH, keys_set. right. exact Hk.
Qed.

(** The arguments of a call as they are evaluated: stripped of their
    names, then marked for suspension. *)
Lemma passes_tool_call (ts : list string) (tool : string) (args : list expr)
    (kws : list (option string * expr)) :
  tool ∈ get_all_tools H ->
  passes H [Assign ts (Call (Name tool) args kws)]
  = [Assign ts (Await (Call (Name tool) (prepared_arguments H args kws) []))].
Proof.
  intros Hin. unfold passes, AwaitTransformer, KeywordStripper, prepared_arguments. simpl.
  rewrite (bool_decide_true _ (tool_funcs_keys tool Hin)). reflexivity.
Qed.

(** The timeout stops a script where it is suspended.  Take a script with
    at most 20 calls in which, after statements that run to their end, a
    top-level assignment calls a registered tool: the call is marked for
    suspension, and when its arguments have been evaluated and the registry
    would answer only at or after max(3, call_count * 50) seconds since the
    start of the run, the response is the error response "Execution timed
    out after {call_count * 50} seconds", nothing is saved, and the
    statements after the call are not run. *)
Theorem suspended_call_times_out (code sid : string) (fs : fsys) (fuel : nat)
    (counted pre post : list stmt) (ts : list string) (tool : string)
    (args : list expr) (kws : list (option string * expr)) (sandbox : pydict)
    (st st' : state) (values : list value) :
  let tree := pre ++ Assign ts (Call (Name tool) args kws) :: post in
  let func_count := count_calls counted in
  let deadline := Nat.max 3 (func_count * 50) * 1000 in
  ast_parse H code = Module_ counted ->
  func_count <= MAX_FUNCTIONS ->
  ast_parse H (cleaned_code code) = Module_ tree ->
  tool ∈ get_all_tools H ->
  tool ∉ local_names tree ->
  build_safe_globals (tool_funcs H) (Some H) fs sid = Returns sandbox ->
  exec_body H (local_names tree) deadline fuel
    (passes H pre) (initial_state sandbox (session_read sid)) = Next st ->
  Dict.get (globals st) tool = Some (VNative (NProxy tool)) ->
  eval_list (eval H (local_names tree) deadline) (prepared_arguments H args kws)
    (elapse st (cpu_cost H)) = Ok values st' ->
  deadline <= now st' + duration (function_wrapper H (trace st') tool values) ->
  run_user_code H code sid fs (S fuel) =
    Some (EnvError (VStr (Str.cat ["Execution timed out after ";
                                   Str.of_nat (func_count * 50); " seconds"])) false,
          fs, trace st' ++ [ToolCall tool values]).
Proof.
  intros tree func_count deadline Hp Hc Hp' Htool Hlocal Hb Hrun Hproxy Hargs Hlate.
  subst func_count deadline.
  change (Nat.max 3 (count_calls counted * 50)) with (timeout_of (count_calls counted)) in *.
  assert (Hprep : exists rest,
             prepare H tree
             = passes H pre
               ++ Assign ts (Await (Call (Name tool) (prepared_arguments H args kws) []))
                  :: rest).
  { rewrite prepare_unfold. unfold tree. rewrite passes_app, passes_cons.
    rewrite (passes_tool_call ts tool args kws Htool).
    destruct (_ && _); [|eexists; reflexivity].
    rewrite <- app_assoc. simpl. eexists. reflexivity. }
  destruct Hprep as [rest Hprep].
  rewrite (run_user_code_exec code sid fs (S fuel) counted tree sandbox Hp Hc Hb Hp')
    by (rewrite Hprep; destruct (passes H pre); discriminate).
  cbv zeta. rewrite local_names_prepare, Hprep.
  unfold exec_body in *. rewrite run_block_app.
  rewrite run_block_fuel_S, Hrun by (rewrite Hrun; discriminate).
  cbn [run_block exec eval bind on_value].
  unfold load_name. rewrite (bool_decide_false _ Hlocal).
  cbn [globals elapse]. rewrite Hproxy. cbn [bind].
  change (State (locals st) (globals st) (now st + cpu_cost H) (trace st))
    with (elapse st (cpu_cost H)).
  rewrite Hargs. cbn [bind apply await].
  unfold suspend. cbn [record now trace].
  destruct (Nat.leb_spec (timeout_of (count_calls counted) * 1000)
              (now st' + duration (function_wrapper H (trace st') tool values)))
    as [_|Hlt]; [reflexivity | lia].
Qed.

(** *** The status of a response *)

Lemma handle_is_error (n : nat) (e : exn) : status (handle n e) = "error".
Proof.
  unfold handle. destruct (exn_class e);
    repeat match goal with |- context [if ?b then _ else _] => destruct b end;
    reflexivity.
Qed.

(** *** Further properties *)

(** The serializer is the identity on JSON values. *)
Theorem json_value_is_serialized_unchanged (v : value) :
  json_unserializable v = None -> serialize_result H v = Returns v.
Proof. destruct v; simpl; intros Hj; try reflexivity; discriminate. Qed.

(** Whatever the script, the body that is compiled and run has no keyword
    argument in any of its calls. *)
Theorem prepared_body_has_no_keyword (tree : list stmt) :
  forallb keyword_free_stmt (prepare H tree) = true.
Proof. apply prepare_keyword_free. Qed.

End Executor.

(** ** Requests, their sessions and their results *)

Section Requests.
Context (H : host).

Lemma wf_set {A} (d : Dict.t A) (k : string) (v : A) :
  Dict.wf d -> Dict.wf (Dict.set d k v).
Proof.
  unfold Dict.wf. induction d as [|[k' v'] d IH]; simpl; intros Hwf.
  - apply NoDup_singleton.
  - apply NoDup_cons in Hwf as [Hnotin Hwf].
    destruct (String.eqb_spec k' k) as [->|Hne]; simpl.
    + apply NoDup_cons. split; assumption.
    + apply NoDup_cons. split; [|apply IH, Hwf].
      intros [Heq|Hin]%keys_set; [congruence | contradiction].
Qed.

Lemma wf_update {A} (d m : Dict.t A) : Dict.wf d -> Dict.wf (Dict.update d m).
Proof.
  unfold Dict.update. revert d.
  induction m as [|[k v] m IH]; intros d Hwf; simpl; [exact Hwf|].
  apply IH, wf_set, Hwf.
Qed.

(** The ways in which [run_user_code] returns: from an [except] clause,
    with the files as they were; from the check of the number of calls; or
    from the success path, after [__main] returned. *)
Lemma run_user_code_inv (code sid : string) (fs : fsys) (fuel : nat)
    (out : envelope * fsys * list event) :
  run_user_code H code sid fs fuel = Some out ->
  (exists n e events, out = (handle n e, fs, events))
  \/ (exists n, out = (too_many_functions n, fs, []))
  \/ (exists n v events, out = finish H n sid fs v events).
Proof.
  unfold run_user_code, count_function_calls. intros Hrun.
  destruct (ast_parse H code) as [counted|msg];
    [|injection Hrun as <-; left; eauto].
  destruct (MAX_FUNCTIONS <? count_calls counted)%nat;
    [injection Hrun as <-; right; left; eauto|].
  destruct (build_safe_globals (tool_funcs H) (Some H) fs sid) as [sandbox|e];
    [|injection Hrun as <-; left; eauto].
  destruct (ast_parse H (cleaned_code code)) as [tree|msg];
    [|injection Hrun as <-; left; eauto].
  destruct (prepare H tree) as [|s body]; [injection Hrun as <-; left; eauto|].
  destruct (exec_body _ _ _ _ _ _) as [st|v st|e st|st|];
    try discriminate; injection Hrun as <-; eauto 10.
Qed.

(** What the two scans report is an error response. *)
Lemma collect_result_failure (v : value) (failure : envelope) :
  collect_result H v = Returns (inl failure) -> status failure = "error".
Proof.
  unfold collect_result. intros Hcol.
  destruct v; try (destruct (serialize_result H _); discriminate).
  destruct (if bool_decide _ then _ else _); [|discriminate].
  destruct (serialize_fields H items); [|discriminate].
  destruct (find signals_failure _); [injection Hcol as <-; reflexivity|].
  destruct (find _ items); [injection Hcol as <-; reflexivity | discriminate].
Qed.

(** A session file that does not hold JSON is never repaired: every request
    of the session that returns, returns an error response and leaves the
    files as they were; and with a session identifier that is not empty the
    request does return, before any statement of the script is run. *)
Theorem corrupt_record_fails_every_request (code sid : string) (fs : fsys) (fuel : nat) :
  fs !! session_path sid = Some CorruptFile ->
  (forall response fs' events,
      run_user_code H code sid fs fuel = Some (response, fs', events) ->
      status response = "error" /\ fs' = fs)
  /\ (sid <> "" ->
      exists response,
        run_user_code H code sid fs fuel = Some (response, fs, [])
        \/ run_user_code H code sid fs fuel
           = Some (response, fs, [FileRead (session_path sid)])).
Proof.
  intros Hcorrupt.
  assert (Hload : load_session_vars fs sid = Raises JSONDecodeError).
  { unfold load_session_vars. rewrite Hcorrupt. reflexivity. }
  split.
  - intros response fs' events Hrun.
    destruct (run_user_code_inv _ _ _ _ _ Hrun)
      as [(n & e & evs & Hout)|[(n & Hout)|(n & v & evs & Hout)]].
    + injection Hout as -> -> _. split; [apply handle_is_error | reflexivity].
    + injection Hout as -> -> _. split; reflexivity.
    + unfold finish, save_session_vars in Hout. rewrite Hload in Hout.
      destruct (collect_result H v) as [[failure|result_value]|e] eqn:Hcol.
      * injection Hout as -> -> _.
        split; [exact (collect_result_failure _ _ Hcol) | reflexivity].
      * destruct (log_json_block H result_value) as [[]|e];
          injection Hout as -> -> _; (split; [apply handle_is_error | reflexivity]).
      * injection Hout as -> -> _. split; [apply handle_is_error | reflexivity].
  - intros Hsid. unfold run_user_code, count_function_calls.
    destruct (ast_parse H code) as [counted|msg]; [|eexists; left; reflexivity].
    destruct (MAX_FUNCTIONS <? count_calls counted)%nat; [eexists; left; reflexivity|].
    unfold build_safe_globals, session_read.
    rewrite (proj2 (String.eqb_neq sid "") Hsid), Hload.
    eexists. right. reflexivity.
Qed.

(** A success response is returned only after its result was saved: the
    record of the session was read, and the session file afterwards holds
    that record merged with the result, every field of which [json] can
    encode. *)
Theorem success_response_is_saved (code sid : string) (fs fs' : fsys) (fuel : nat)
    (result : pydict) (events : list event) :
  run_user_code H code sid fs fuel = Some (EnvSuccess result, fs', events) ->
  exists existing,
    load_session_vars fs sid = Returns existing
    /\ fs' = <[session_path sid := JsonFile (Dict.update existing result)]> fs
    /\ load_session_vars fs' sid = Returns (Dict.update existing result)
    /\ json_safe (Dict.update existing result).
Proof.
  intros Hrun.
  destruct (run_user_code_inv _ _ _ _ _ Hrun)
    as [(n & e & evs & Hout)|[(n & Hout)|(n & v & evs & Hout)]].
  - injection Hout as Hr _ _. pose proof (handle_is_error n e) as He.
    rewrite <- Hr in He. discriminate.
  - discriminate.
  - unfold finish in Hout.
    destruct (collect_result H v) as [[failure|result_value]|e] eqn:Hcol.
    + exfalso. injection Hout as Hr _ _. subst failure.
      pose proof (collect_result_failure _ _ Hcol) as He. discriminate.
    + destruct (log_json_block H result_value) as [[]|e].
      * unfold save_session_vars in Hout.
        destruct (load_session_vars fs sid) as [existing|e].
        -- destruct (json_unserializable (VDict (Dict.update existing result_value))) eqn:Hj.
           ++ exfalso. injection Hout as Hr _ _.
              pose proof (handle_is_error n (json_error v0)) as He.
              rewrite <- Hr in He. discriminate.
           ++ injection Hout as -> -> _. exists existing.
              split; [reflexivity|]. split; [reflexivity|].
              split; [apply load_after_save | apply json_unserializable_dict, Hj].
        -- exfalso. injection Hout as Hr _ _. pose proof (handle_is_error n e) as He.
           rewrite <- Hr in He. discriminate.
      * exfalso. injection Hout as Hr _ _. pose proof (handle_is_error n e) as He.
        rewrite <- Hr in He. discriminate.
    + exfalso. injection Hout as Hr _ _. pose proof (handle_is_error n e) as He.
      rewrite <- Hr in He. discriminate.
Qed.

(** What a successful request returned is there for the next request of the
    session: the sandbox built for it binds every field of the result to the
    value that was returned, [parallel] and [globals_schema] excepted. *)
Theorem saved_results_are_globals_of_the_next_request (code sid : string)
    (fs fs' : fsys) (fuel : nat) (result existing : pydict) (events : list event) :
  run_user_code H code sid fs fuel = Some (EnvSuccess result, fs', events) ->
  sid <> "" ->
  load_session_vars fs sid = Returns existing ->
  Dict.wf existing -> Dict.wf result ->
  exists sandbox,
    build_safe_globals (tool_funcs H) (Some H) fs' sid = Returns sandbox
    /\ forall k v, Dict.get result k = Some v -> k <> "parallel" -> k <> "globals_schema" ->
                   Dict.get sandbox k = Some v.
Proof.
  intros Hrun Hsid Hload Hwf Hwfr.
  destruct (run_user_code_inv _ _ _ _ _ Hrun)
    as [(n & e & evs & Hout)|[(n & Hout)|(n & v & evs & Hout)]].
  - injection Hout as Hr _ _. pose proof (handle_is_error n e) as He.
    rewrite <- Hr in He. discriminate.
  - discriminate.
  - assert (Hfs : load_session_vars fs' sid = Returns (Dict.update existing result)).
    { unfold finish, save_session_vars in Hout. rewrite Hload in Hout.
      destruct (collect_result H v) as [[failure|result_value]|e] eqn:Hcol.
      - injection Hout as Hr _ _. subst failure.
        pose proof (collect_result_failure _ _ Hcol) as He. discriminate.
      - destruct (log_json_block H result_value) as [[]|e].
        + destruct (json_unserializable (VDict (Dict.update existing result_value))).
          * injection Hout as Hr _ _. pose proof (handle_is_error n (json_error v0)) as He.
            rewrite <- Hr in He. discriminate.
          * injection Hout as -> -> _. apply load_after_save.
        + injection Hout as Hr _ _. pose proof (handle_is_error n e) as He.
          rewrite <- Hr in He. discriminate.
      - injection Hout as Hr _ _. pose proof (handle_is_error n e) as He.
        rewrite <- Hr in He. discriminate. }
    unfold build_safe_globals.
    rewrite (proj2 (String.eqb_neq sid "") Hsid), Hfs. cbv zeta.
    eexists. split; [reflexivity|].
    intros k w Hk Hp Hs.
    rewrite get_set_ne by (intros E; apply Hs; symmetry; exact E).
    rewrite get_set_ne by (intros E; apply Hp; symmetry; exact E).
    apply get_update_present; [apply wf_update, Hwf|].
    apply get_update_present; assumption.
Qed.

Lemma exec_return_global (scope : list string) (deadline fuel : nat) (x : string)
    (v : value) (st : state) :
  x ∉ scope -> Dict.get (globals st) x = Some v ->
  exec H scope deadline (S fuel) (Return (Some (DictE [(x, Name x)]))) st
  = Ret (VDict [(x, v)]) (elapse st (cpu_cost H)).
Proof.
  intros Hx Hv. simpl. unfold load_name. rewrite (bool_decide_false _ Hx). simpl.
  rewrite Hv. reflexivity.
Qed.

(** A value saved in the session is read back by name.  The script
    [return x], for a name [x] that the session record binds to [v], gives
    the success response with result [{"x": v}], unless [v] is a string that
    the failure scan flags; the record is written back as it was. *)
Theorem session_variable_is_returned (code sid : string) (fs : fsys) (fuel : nat)
    (counted : list stmt) (x : string) (existing : pydict) (v : value) :
  ast_parse H code = Module_ counted ->
  count_calls counted <= MAX_FUNCTIONS ->
  ast_parse H (cleaned_code code) = Module_ [Return (Some (Name x))] ->
  sid <> "" ->
  load_session_vars fs sid = Returns existing ->
  Dict.wf existing -> json_safe existing ->
  Dict.get existing x = Some v ->
  x <> "parallel" -> x <> "globals_schema" ->
  signals_failure v = false ->
  log_json_block H [(x, v)] = Returns () ->
  run_user_code H code sid fs (S fuel)
  = Some (EnvSuccess [(x, v)], <[session_path sid := JsonFile existing]> fs,
          [FileRead (session_path sid); FileRead (session_path sid);
           FileWrite (session_path sid)]).
Proof.
  intros Hp Hc Hp' Hsid Hload Hwf Hjson Hx Hpar Hsch Hflag Hlog.
  assert (Hbuild : exists sandbox,
             build_safe_globals (tool_funcs H) (Some H) fs sid = Returns sandbox
             /\ Dict.get sandbox x = Some v).
  { unfold build_safe_globals.
    rewrite (proj2 (String.eqb_neq sid "") Hsid), Hload. cbv zeta.
    eexists. split; [reflexivity|].
    rewrite get_set_ne by (intros E; apply Hsch; symmetry; exact E).
    rewrite get_set_ne by (intros E; apply Hpar; symmetry; exact E).
    apply get_update_present; assumption. }
  destruct Hbuild as (sandbox & Hbuild & Hglobal).
  assert (Hprep : prepare H [Return (Some (Name x))]
                  = [Return (Some (DictE [(x, Name x)]))]) by reflexivity.
  rewrite (run_user_code_exec H code sid fs (S fuel) counted _ sandbox Hp Hc Hbuild Hp')
    by (rewrite Hprep; discriminate).
  cbv zeta. rewrite Hprep.
  unfold exec_body. cbn [run_block].
  rewrite (exec_return_global _ _ _ x v) by (try apply not_elem_of_nil; exact Hglobal).
  cbn [trace elapse initial_state].
  pose proof (get_json_safe existing x v Hjson Hx) as Hv.
  rewrite (finish_saves H _ sid fs _ _ existing [(x, v)]).
  - unfold session_read. rewrite (proj2 (String.eqb_neq sid "") Hsid).
    change (Dict.update existing [(x, v)]) with (Dict.set existing x v).
    rewrite (set_same existing x v Hx). reflexivity.
  - rewrite (collect_result_single H x v Hv), Hflag. reflexivity.
  - exact Hlog.
  - exact Hload.
  - exact Hjson.
  - repeat constructor. exact Hv.
Qed.

(** *** What is returned without a mapping *)

Lemma rewrite_return_other (e : expr) :
  (forall x, e <> Name x) -> rewrite_return (Return (Some e)) = Return (Some e).
Proof. destruct e; intros Hne; try reflexivity. exfalso. exact (Hne id eq_refl). Qed.

Lemma strip_keywords_name (e : expr) :
  (forall x, e <> Name x) -> forall x, strip_keywords e <> Name x.
Proof. destruct e; intros Hne x; try discriminate. exfalso. exact (Hne id eq_refl). Qed.

Lemma auto_await_name (tools : list string) (e : expr) :
  (forall x, e <> Name x) -> forall x, auto_await tools e <> Name x.
Proof.
  destruct e as [c|id|f args kws|e|items|elts]; intros Hne x; try discriminate.
  - exfalso. exact (Hne id eq_refl).
  - simpl. destruct (auto_await tools f); try discriminate.
    destruct (bool_decide _); discriminate.
Qed.

(** A [return] of anything but a name stays as it is. *)
Lemma passes_return_other (e : expr) :
  (forall x, e <> Name x) ->
  passes H [Return (Some e)]
  = [Return (Some (auto_await (Dict.keys (tool_funcs H)) (strip_keywords e)))].
Proof.
  intros Hne.
  change (passes H [Return (Some e)])
    with [rewrite_return
            (Return (Some (auto_await (Dict.keys (tool_funcs H)) (strip_keywords e))))].
  rewrite rewrite_return_other; [reflexivity|].
  apply auto_await_name, strip_keywords_name, Hne.
Qed.

(** The two scans for failures look at the fields of a returned mapping and
    at nothing else.  When the script returns, by a top-level [return] of an
    expression that is not a name, a value that is not a mapping, and [json]
    can encode the serialized value (the record of the session, if there is
    one, holds JSON, and [log_json_block] prints the mapping), the response
    is the success response with the serialized value under [result], and
    the result is saved: so it is for a string that the scan for failures
    would flag, and for the outcome of a tool whose [success] is false.
    (A value that [json] cannot encode, such as a list with an outcome in
    it, is outside this statement: it does not give a success response.) *)
Theorem returned_value_is_not_scanned (code sid : string) (fs : fsys) (fuel : nat)
    (counted pre post : list stmt) (e : expr) (sandbox existing : pydict)
    (st st' : state) (v s : value) :
  let tree := pre ++ Return (Some e) :: post in
  let deadline := timeout_of (count_calls counted) * 1000 in
  ast_parse H code = Module_ counted ->
  count_calls counted <= MAX_FUNCTIONS ->
  ast_parse H (cleaned_code code) = Module_ tree ->
  (forall x, e <> Name x) ->
  build_safe_globals (tool_funcs H) (Some H) fs sid = Returns sandbox ->
  load_session_vars fs sid = Returns existing ->
  json_safe existing ->
  exec_body H (local_names tree) deadline fuel (passes H pre)
    (initial_state sandbox (session_read sid)) = Next st ->
  eval H (local_names tree) deadline
    (auto_await (Dict.keys (tool_funcs H)) (strip_keywords e)) (elapse st (cpu_cost H))
  = Ok v st' ->
  (forall d, v <> VDict d) ->
  serialize_result H v = Returns s ->
  json_unserializable s = None ->
  log_json_block H [("result", s)] = Returns () ->
  run_user_code H code sid fs (S fuel)
  = Some (EnvSuccess [("result", s)],
          <[session_path sid := JsonFile (Dict.update existing [("result", s)])]> fs,
          trace st' ++ [FileRead (session_path sid); FileWrite (session_path sid)]).
Proof.
  intros tree deadline Hp Hc Hp' Hne Hb Hl He Hrun Hev Hv Hs Hj Hlog. subst deadline.
  assert (Hprep : prepare H tree
                  = passes H pre
                    ++ Return (Some (auto_await (Dict.keys (tool_funcs H)) (strip_keywords e)))
                       :: passes H post).
  { rewrite prepare_unfold.
    assert (Hfound : return_found tree = true).
    { unfold return_found, tree. rewrite existsb_app. simpl. apply orb_true_r. }
    rewrite Hfound. simpl. unfold tree.
    rewrite passes_app, passes_cons, (passes_return_other e Hne). reflexivity. }
  rewrite (run_user_code_exec H code sid fs (S fuel) counted tree sandbox Hp Hc Hb Hp')
    by (rewrite Hprep; destruct (passes H pre); discriminate).
  cbv zeta. rewrite local_names_prepare, Hprep.
  unfold exec_body in *. rewrite run_block_app.
  rewrite run_block_fuel_S, Hrun by (rewrite Hrun; discriminate).
  cbn [run_block]. rewrite exec_S. cbv zeta. rewrite Hev. cbn [on_value].
  f_equal. apply finish_saves; [|exact Hlog | exact Hl | exact He |].
  - unfold collect_result. rewrite Hs.
    destruct v; try reflexivity. exfalso. exact (Hv items eq_refl).
  - repeat constructor. exact Hj.
Qed.

(** A returned mapping with the single key [result] is treated as every
    other mapping: what [run_user_code] makes of a returned mapping is
    decided by its serialized fields and the two scans alone. *)
Theorem single_result_field_is_no_special_case (d : pydict) :
  collect_result H (VDict d) =
    match serialize_fields H d with
    | Raises e => Raises e
    | Returns result_value =>
        match find signals_failure (Dict.values result_value) with
        | Some v => Returns (inl (EnvError v false))
        | None =>
            match find (fun kv => unsuccessful kv.2) d with
            | Some kv => Returns (inl (EnvError (failure_message kv.1 kv.2) false))
            | None => Returns (inr result_value)
            end
        end
    end.
Proof.
  destruct (serialize_fields H d) as [result_value|e] eqn:Hs.
  - unfold collect_result. rewrite Hs.
    destruct (bool_decide (Dict.keys d = ["result"])) eqn:E; [|reflexivity].
    apply bool_decide_eq_true in E.
    destruct d as [|[k v] [|kv d]]; try discriminate.
    simpl in E. injection E as ->. simpl in *.
    destruct (serialize_result H v); [reflexivity | discriminate].
  - unfold collect_result. rewrite Hs.
    destruct (bool_decide (Dict.keys d = ["result"])) eqn:E; [|reflexivity].
    apply bool_decide_eq_true in E.
    destruct d as [|[k v] [|kv d]]; try discriminate.
    simpl in E. injection E as ->. simpl in *.
    destruct (serialize_result H v); [reflexivity | injection Hs as ->; reflexivity].
Qed.

(** *** Names *)

(** A name that the script assigns anywhere is a local variable of the
    whole script: reading it before its assignment has run raises
    [UnboundLocalError], whatever the session holds under that name.  So a
    script cannot read a variable of the session and assign it too. *)
Theorem assigned_name_hides_the_session_variable (code sid : string) (fs : fsys)
    (fuel : nat) (counted pre post : list stmt) (ts : list string) (x : string)
    (sandbox : pydict) (st : state) :
  let tree := pre ++ Assign ts (Name x) :: post in
  let deadline := timeout_of (count_calls counted) * 1000 in
  ast_parse H code = Module_ counted ->
  count_calls counted <= MAX_FUNCTIONS ->
  ast_parse H (cleaned_code code) = Module_ tree ->
  x ∈ local_names tree ->
  build_safe_globals (tool_funcs H) (Some H) fs sid = Returns sandbox ->
  exec_body H (local_names tree) deadline fuel (passes H pre)
    (initial_state sandbox (session_read sid)) = Next st ->
  Dict.get (locals st) x = None ->
  run_user_code H code sid fs (S fuel)
  = Some (handle (count_calls counted)
            (Exn UnboundLocalErr "UnboundLocalError" (unbound_local_msg H x)),
          fs, trace st).
Proof.
  intros tree deadline Hp Hc Hp' Hx Hb Hrun Hlocal. subst deadline.
  assert (Hprep : exists rest,
             prepare H tree = passes H pre ++ Assign ts (Name x) :: rest).
  { rewrite prepare_unfold. unfold tree. rewrite passes_app, passes_cons.
    change (passes H [Assign ts (Name x)]) with [Assign ts (Name x)].
    destruct (_ && _); [|eexists; reflexivity].
    rewrite <- app_assoc. simpl. eexists. reflexivity. }
  destruct Hprep as [rest Hprep].
  rewrite (run_user_code_exec H code sid fs (S fuel) counted tree sandbox Hp Hc Hb Hp')
    by (rewrite Hprep; destruct (passes H pre); discriminate).
  cbv zeta. rewrite local_names_prepare, Hprep.
  unfold exec_body in *. rewrite run_block_app.
  rewrite run_block_fuel_S, Hrun by (rewrite Hrun; discriminate).
  cbn [run_block]. rewrite exec_S. cbv zeta. cbn [eval]. unfold load_name.
  rewrite (bool_decide_true _ Hx). cbn [locals elapse]. rewrite Hlocal.
  reflexivity.
Qed.

(** *** Scripts without a result *)

(** A script without statements cannot be wrapped in a function: the
    response is the error response for the [ValueError] of [compile], no
    tool is called and nothing is saved. *)
Theorem empty_script_is_an_error (code sid : string) (fs : fsys) (fuel : nat)
    (counted : list stmt) (sandbox : pydict) :
  ast_parse H code = Module_ counted ->
  count_calls counted <= MAX_FUNCTIONS ->
  build_safe_globals (tool_funcs H) (Some H) fs sid = Returns sandbox ->
  ast_parse H (cleaned_code code) = Module_ [] ->
  run_user_code H code sid fs fuel
  = Some (EnvError (VStr "ValueError: empty body on AsyncFunctionDef") true,
          fs, session_read sid).
Proof.
  intros Hp Hc Hb Hp'. unfold run_user_code, count_function_calls. rewrite Hp.
  destruct (Nat.ltb_spec MAX_FUNCTIONS (count_calls counted)) as [Hlt|_]; [lia|].
  rewrite Hb, Hp'. reflexivity.
Qed.

(** A script with no top-level [return], and no top-level assignment whose
    first target is [result], gets no [return] added: when its statements
    run to their end, the response is the success response with result
    [{"result": None}], and that is what is saved. *)
Theorem script_without_result_returns_none (code sid : string) (fs : fsys) (fuel : nat)
    (counted tree : list stmt) (sandbox existing : pydict) (st : state) :
  ast_parse H code = Module_ counted ->
  count_calls counted <= MAX_FUNCTIONS ->
  ast_parse H (cleaned_code code) = Module_ tree ->
  tree <> [] ->
  return_found tree = false ->
  "result" ∉ result_vars tree ->
  build_safe_globals (tool_funcs H) (Some H) fs sid = Returns sandbox ->
  load_session_vars fs sid = Returns existing ->
  json_safe existing ->
  exec_body H (local_names tree) (timeout_of (count_calls counted) * 1000) fuel
    (passes H tree) (initial_state sandbox (session_read sid)) = Next st ->
  log_json_block H [("result", VNone)] = Returns () ->
  prepare H tree = passes H tree
  /\ run_user_code H code sid fs fuel
     = Some (EnvSuccess [("result", VNone)],
             <[session_path sid := JsonFile (Dict.update existing [("result", VNone)])]> fs,
             trace st ++ [FileRead (session_path sid); FileWrite (session_path sid)]).
Proof.
  intros Hp Hc Hp' Hne Hnoret Hnores Hb Hl He Hrun Hlog.
  assert (Hprep : prepare H tree = passes H tree).
  { rewrite prepare_unfold, Hnoret, (bool_decide_false _ Hnores). reflexivity. }
  split; [exact Hprep|].
  rewrite (run_user_code_exec H code sid fs fuel counted tree sandbox Hp Hc Hb Hp')
    by (rewrite Hprep; intros Hnil; apply Hne, (passes_nil_inv H), Hnil).
  cbv zeta. rewrite local_names_prepare, Hprep. rewrite Hrun.
  f_equal. apply finish_saves; [reflexivity | exact Hlog | exact Hl | exact He |].
  repeat constructor.
Qed.

(** *** The convenience binding *)

(** [final_answer] keeps the first value it is given: once a call of it
    has returned, every later call returns the same value, whatever its
    argument, and changes nothing. *)
Theorem final_answer_keeps_the_first_value (x y v : value) (st st1 : state) :
  apply H (VNative NFinalAnswer) [x] st = Ok v st1 ->
  Dict.get (globals st1) "result_holder" = Some v
  /\ apply H (VNative NFinalAnswer) [y] st1 = Ok v st1.
Proof.
  cbn [apply]. intros Hfirst.
  assert (Hheld : Dict.get (globals st1) "result_holder" = Some v).
  { destruct (Dict.get (globals st) "result_holder") as [w|] eqn:E.
    - injection Hfirst as <- <-. exact E.
    - injection Hfirst as <- <-. apply get_set_eq. }
  split; [exact Hheld|]. rewrite Hheld. reflexivity.
Qed.

(** *** An explicit [await] *)

Lemma passes_awaited_tool_call (ts : list string) (tool : string) (args : list expr)
    (kws : list (option string * expr)) :
  tool ∈ get_all_tools H ->
  passes H [Assign ts (Await (Call (Name tool) args kws))]
  = [Assign ts (Await (Await (Call (Name tool) (prepared_arguments H args kws) [])))].
Proof.
  intros Hin. unfold passes, AwaitTransformer, KeywordStripper, prepared_arguments. simpl.
  rewrite (bool_decide_true _ (tool_funcs_keys H tool Hin)). reflexivity.
Qed.

(** [AwaitTransformer] marks every call of a registered tool, the calls
    that the script awaits itself included: [r = await tool(...)] is run as
    [r = await (await tool(...))].  The tool is called once, and when it
    has answered in time with a value that is not a coroutine, the second
    [await] raises [TypeError]: the response is the error response for it,
    nothing is saved and the statements after the call are not run. *)
Theorem explicit_await_is_awaited_twice (code sid : string) (fs : fsys) (fuel : nat)
    (counted pre post : list stmt) (ts : list string) (tool : string)
    (args : list expr) (kws : list (option string * expr)) (sandbox : pydict)
    (st st' : state) (values : list value) (v : value) :
  let tree := pre ++ Assign ts (Await (Call (Name tool) args kws)) :: post in
  let func_count := count_calls counted in
  let deadline := timeout_of func_count * 1000 in
  ast_parse H code = Module_ counted ->
  func_count <= MAX_FUNCTIONS ->
  ast_parse H (cleaned_code code) = Module_ tree ->
  tool ∈ get_all_tools H ->
  tool ∉ local_names tree ->
  build_safe_globals (tool_funcs H) (Some H) fs sid = Returns sandbox ->
  exec_body H (local_names tree) deadline fuel
    (passes H pre) (initial_state sandbox (session_read sid)) = Next st ->
  Dict.get (globals st) tool = Some (VNative (NProxy tool)) ->
  eval_list (eval H (local_names tree) deadline) (prepared_arguments H args kws)
    (elapse st (cpu_cost H)) = Ok values st' ->
  now st' + duration (function_wrapper H (trace st') tool values) < deadline ->
  outcome (function_wrapper H (trace st') tool values) = Returns v ->
  match v with VCoro _ _ | VCoroPar _ => False | _ => True end ->
  passes H [Assign ts (Await (Call (Name tool) args kws))]
  = [Assign ts (Await (Await (Call (Name tool) (prepared_arguments H args kws) [])))]
  /\ run_user_code H code sid fs (S fuel)
     = Some (handle func_count
               (TypeError ("object " +:+ type_name v
                           +:+ " can't be used in 'await' expression")),
             fs, trace st' ++ [ToolCall tool values]).
Proof.
  intros tree func_count deadline Hp Hc Hp' Htool Hlocal Hb Hrun Hproxy Hargs Hintime
    Hout Hv.
  subst func_count deadline.
  split; [exact (passes_awaited_tool_call ts tool args kws Htool)|].
  assert (Hprep : exists rest,
             prepare H tree
             = passes H pre
               ++ Assign ts (Await (Await (Call (Name tool) (prepared_arguments H args kws) [])))
                  :: rest).
  { rewrite prepare_unfold. unfold tree. rewrite passes_app, passes_cons.
    rewrite (passes_awaited_tool_call ts tool args kws Htool).
    destruct (_ && _); [|eexists; reflexivity].
    rewrite <- app_assoc. simpl. eexists. reflexivity. }
  destruct Hprep as [rest Hprep].
  rewrite (run_user_code_exec H code sid fs (S fuel) counted tree sandbox Hp Hc Hb Hp')
    by (rewrite Hprep; destruct (passes H pre); discriminate).
  cbv zeta. rewrite local_names_prepare, Hprep.
  unfold exec_body in *. rewrite run_block_app.
  rewrite run_block_fuel_S, Hrun by (rewrite Hrun; discriminate).
  cbn [run_block exec eval bind on_value].
  unfold load_name. rewrite (bool_decide_false _ Hlocal).
  cbn [globals elapse]. rewrite Hproxy. cbn [bind].
  change (State (locals st) (globals st) (now st + cpu_cost H) (trace st))
    with (elapse st (cpu_cost H)).
  rewrite Hargs. cbn [bind apply await].
  unfold suspend. cbn [record now trace].
  destruct (Nat.leb_spec (timeout_of (count_calls counted) * 1000)
              (now st' + duration (function_wrapper H (trace st') tool values)))
    as [Hle|_]; [lia|].
  rewrite Hout. cbn [lift bind].
  destruct v; try contradiction; reflexivity.
Qed.

(** *** The mapping of a success response *)

Lemma serialize_fields_keys (d r : pydict) :
  serialize_fields H d = Returns r -> Dict.keys r = Dict.keys d.
Proof.
  revert r. induction d as [|[k v] d IH]; simpl; intros r Hs.
  - injection Hs as <-. reflexivity.
  - destruct (serialize_result H v); [|discriminate].
    destruct (serialize_fields H d) as [r'|]; [|discriminate].
    injection Hs as <-. simpl. rewrite (IH r' eq_refl). reflexivity.
Qed.

Lemma find_none_Forall {A} (p : A -> bool) (l : list A) :
  find p l = None -> Forall (fun a => p a = false) l.
Proof.
  induction l as [|a l IH]; simpl; intros Hf; [constructor|].
  destruct (p a) eqn:E; [discriminate|]. constructor; [exact E | apply IH, Hf].
Qed.

(** When a returned mapping passes the two scans, the result has the keys
    of the mapping, in their order; none of its fields is a string that
    starts with "error executing tool" or "error:" or has "failed" in it,
    whatever the case of the letters; and no field of the returned mapping
    is an object whose [success] is false. *)
Theorem successful_mapping_has_no_failure (d result : pydict) :
  collect_result H (VDict d) = Returns (inr result) ->
  Dict.keys result = Dict.keys d
  /\ Forall (fun v => signals_failure v = false) (Dict.values result)
  /\ Forall (fun kv => unsuccessful kv.2 = false) d.
Proof.
  unfold collect_result.
  destruct (if bool_decide _ then _ else _); [|discriminate].
  destruct (serialize_fields H d) as [result_value|e] eqn:Hs; [|discriminate].
  destruct (find signals_failure (Dict.values result_value)) eqn:Hflag; [discriminate|].
  destruct (find (fun kv => unsuccessful kv.2) d) eqn:Hfail; [discriminate|].
  intros [= <-]. split; [exact (serialize_fields_keys _ _ Hs)|].
  split; [exact (find_none_Forall _ _ Hflag) | exact (find_none_Forall _ _ Hfail)].
Qed.

(** *** Calls of tools *)

(** Only the registered tools have a proxy. *)
Lemma tool_funcs_keys_inv (x : string) :
  x ∈ Dict.keys (tool_funcs H) -> x ∈ get_all_tools H.
Proof.
  unfold tool_funcs.
  assert (Hgen : forall (l : list string) (d : pydict),
             x ∈ Dict.keys (fold_left (fun d name => Dict.set d name (make_tool_proxy name)) l d) ->
             x ∈ Dict.keys d \/ x ∈ l).
  { induction l as [|t l IH]; intros d Hin; simpl in *; [left; exact Hin|].
    destruct (IH _ Hin) as [[->|Hd]%keys_set|Hl].
    - right. apply list_elem_of_here.
    - left. exact Hd.
    - right. apply list_elem_of_further, Hl. }
  intros Hin. destruct (Hgen _ _ Hin) as [Hnil|Hl]; [|exact Hl].
  apply elem_of_nil in Hnil. contradiction.
Qed.

(** A call of a registered tool is awaited for the script: the statement
    [ts = tool(args)] is run as [ts = await tool(args)].  The registry is
    called once with the values of the arguments, and when it answers
    before the timeout, the targets are bound to the value it returned, or
    the exception it raised leaves the statement. *)
Theorem tool_call_binds_the_answer (scope : list string) (deadline fuel : nat)
    (ts : list string) (tool : string) (args : list expr)
    (kws : list (option string * expr)) (st st' : state) (values : list value) :
  tool ∈ get_all_tools H ->
  tool ∉ scope ->
  Dict.get (globals st) tool = Some (VNative (NProxy tool)) ->
  eval_list (eval H scope deadline) (prepared_arguments H args kws) (elapse st (cpu_cost H))
  = Ok values st' ->
  now st' + duration (function_wrapper H (trace st') tool values) < deadline ->
  let answer := function_wrapper H (trace st') tool values in
  let resumed := elapse (record st' (ToolCall tool values)) (duration answer) in
  exec_body H scope deadline (S fuel) (passes H [Assign ts (Call (Name tool) args kws)]) st
  = match outcome answer with
    | Returns v => Next (fold_left (fun st x => set_local st x v) ts resumed)
    | Raises e => Err e resumed
    end.
Proof.
  intros Htool Hlocal Hproxy Hargs Hintime answer resumed.
  rewrite (passes_tool_call H ts tool args kws Htool).
  unfold exec_body. cbn [run_block exec eval bind on_value].
  unfold load_name. rewrite (bool_decide_false _ Hlocal).
  cbn [globals elapse]. rewrite Hproxy. cbn [bind].
  change (State (locals st) (globals st) (now st + cpu_cost H) (trace st))
    with (elapse st (cpu_cost H)).
  rewrite Hargs. cbn [bind apply await].
  unfold suspend. cbn [record now trace].
  destruct (Nat.leb_spec deadline
              (now st' + duration (function_wrapper H (trace st') tool values)))
    as [Hle|_]; [lia|].
  fold answer. destruct (outcome answer); reflexivity.
Qed.

(** [parallel] is not among the functions that [AwaitTransformer] marks: a
    call of it that the script does not await itself gives a coroutine that
    is bound to the targets and never run, so that no tool is called. *)
Theorem parallel_is_not_awaited (scope : list string) (deadline fuel : nat)
    (ts : list string) (args : list expr) (kws : list (option string * expr))
    (st st' : state) (values : list value) :
  "parallel" ∉ get_all_tools H ->
  "parallel" ∉ scope ->
  Dict.get (globals st) "parallel" = Some (VNative NParallel) ->
  eval_list (eval H scope deadline) (prepared_arguments H args kws) (elapse st (cpu_cost H))
  = Ok values st' ->
  passes H [Assign ts (Call (Name "parallel") args kws)]
  = [Assign ts (Call (Name "parallel") (prepared_arguments H args kws) [])]
  /\ exec_body H scope deadline (S fuel)
       (passes H [Assign ts (Call (Name "parallel") args kws)]) st
     = Next (fold_left (fun st x => set_local st x (VCoroPar values)) ts st').
Proof.
  intros Htool Hlocal Hpar Hargs.
  assert (Hpasses : passes H [Assign ts (Call (Name "parallel") args kws)]
                    = [Assign ts (Call (Name "parallel") (prepared_arguments H args kws) [])]).
  { unfold passes, AwaitTransformer, KeywordStripper, prepared_arguments. simpl.
    rewrite bool_decide_false; [reflexivity|].
    intros Hin. apply Htool, tool_funcs_keys_inv, Hin. }
  split; [exact Hpasses|]. rewrite Hpasses.
  unfold exec_body. cbn [run_block exec eval bind on_value].
  unfold load_name. rewrite (bool_decide_false _ Hlocal).
  cbn [globals elapse]. rewrite Hpar. cbn [bind].
  change (State (locals st) (globals st) (now st + cpu_cost H) (trace st))
    with (elapse st (cpu_cost H)).
  rewrite Hargs. reflexivity.
Qed.

End Requests.

(** ** Keyword arguments *)

Section Keywords.
Context (H : host).

Lemma Forall2_map_both {A B C} (R : B -> C -> Prop) (g : A -> B) (f : A -> C) (l : list A) :
  Forall (fun a => R (g a) (f a)) l -> Forall2 R (map g l) (map f l).
Proof. induction 1; simpl; constructor; assumption. Qed.

Lemma Forall2_map_right {A B} (R : A -> B -> Prop) (f : A -> B) (l : list A) :
  Forall (fun a => R a (f a)) l -> Forall2 R l (map f l).
Proof. induction 1; simpl; constructor; assumption. Qed.

Lemma Forall2_functional {A B} (R : A -> B -> Prop) (f : A -> B) (l : list A) (l' : list B) :
  Forall (fun a => forall b, R a b -> b = f a) l -> Forall2 R l l' -> l' = map f l.
Proof.
  intros Hall Hrel. induction Hrel as [|a b l l' Hab _ IH]; [reflexivity|].
  apply Forall_cons in Hall as [Ha Hall]. simpl. rewrite (Ha b Hab), (IH Hall). reflexivity.
Qed.

Lemma Forall_map_snd {A B} (P : B -> Prop) (l : list (A * B)) :
  Forall (fun kv => P kv.2) l -> Forall P (map snd l).
Proof. induction 1; simpl; constructor; assumption. Qed.

(** What [KeywordStripper] makes of an expression is its positional form:
    every call of it, at whatever depth, has its keyword arguments written
    positionally. *)
Lemma positional_strip_keywords (e : expr) : positional e (strip_keywords e).
Proof.
  induction e as [c|id|f args kws IHf IHargs IHkws|e IH|items IH|elts IH]
    using expr_ind'; simpl; constructor; try assumption.
  - apply Forall2_app; [apply Forall2_map_right, IHargs|].
    apply (Forall2_map_both positional snd (fun kw => strip_keywords kw.2)), IHkws.
  - apply (Forall2_map_right _ (fun kv => (kv.1, strip_keywords kv.2))).
    eapply Forall_impl; [exact IH|]. intros kv Hkv. split; [reflexivity | exact Hkv].
  - apply Forall2_map_right, IH.
Qed.

(** An expression has one positional form. *)
Lemma positional_unique (e e' : expr) : positional e e' -> e' = strip_keywords e.
Proof.
  revert e'.
  induction e as [c|id|f args kws IHf IHargs IHkws|e IH|items IH|elts IH]
    using expr_ind'; intros e' Hpos; inversion Hpos; subst; simpl; try reflexivity.
  - f_equal; [apply IHf; assumption|].
    replace (map strip_keywords args ++ map (fun kw => strip_keywords kw.2) kws)
      with (map strip_keywords (args ++ map snd kws))
      by (rewrite map_app, map_map; reflexivity).
    apply (Forall2_functional positional); [|assumption].
    apply Forall_app. split; [exact IHargs | apply Forall_map_snd, IHkws].
  - f_equal. apply IH. assumption.
  - f_equal.
    apply (Forall2_functional (fun kv kv' : string * expr =>
                                 kv.1 = kv'.1 /\ positional kv.2 kv'.2)); [|assumption].
    eapply Forall_impl; [exact IH|]. intros [k v] Hv [k' v'] [Hk Hpos']. simpl in *.
    rewrite <- Hk, (Hv v' Hpos'). reflexivity.
  - f_equal. apply (Forall2_functional positional); assumption.
Qed.

Lemma positional_visit_stmt (s : stmt) : positional_stmt s (visit_stmt strip_keywords s).
Proof.
  induction s as [ts e|[e|]|e| |t b IHb|t b c IHb IHc] using stmt_ind'; simpl;
    constructor; try apply positional_strip_keywords; apply Forall2_map_right; assumption.
Qed.

Lemma positional_stmt_unique (s s' : stmt) :
  positional_stmt s s' -> s' = visit_stmt strip_keywords s.
Proof.
  revert s'.
  induction s as [ts e|[e|]|e| |t b IHb|t b c IHb IHc] using stmt_ind';
    intros s' Hpos; inversion Hpos; subst; simpl;
    repeat match goal with
           | Hp : positional _ _ |- _ => apply positional_unique in Hp; subst
           end; try reflexivity.
  - f_equal. apply (Forall2_functional positional_stmt); assumption.
  - f_equal; apply (Forall2_functional positional_stmt); assumption.
Qed.

(** C7, as amended.  [KeywordStripper] turns the keyword arguments of every
    call expression of the script, at whatever depth, into positional
    arguments in the order in which the call writes them, after the
    positional arguments it has, and drops their names: its output is the
    positional form of the script, and the only one.  So a script runs
    exactly as the script in which every keyword argument is written
    positionally in its place: [f(x=1, y=2)] runs as [f(1, 2)] (and
    [f(y=2, x=1)] as [f(2, 1)]). *)
Theorem keyword_script_runs_as_positional (c1 c2 sid : string) (fs : fsys) (fuel : nat)
    (tree1 tree2 : list stmt) :
  ast_parse H c1 = Module_ tree1 ->
  ast_parse H (cleaned_code c1) = Module_ tree1 ->
  ast_parse H c2 = Module_ tree2 ->
  ast_parse H (cleaned_code c2) = Module_ tree2 ->
  Forall2 positional_stmt tree1 tree2 ->
  (forall tree, Forall2 positional_stmt tree (KeywordStripper tree))
  /\ KeywordStripper tree1 = tree2
  /\ run_user_code H c1 sid fs fuel = run_user_code H c2 sid fs fuel.
Proof.
  intros Hp1 Hp1' Hp2 Hp2' Hpos.
  assert (Htree : tree2 = KeywordStripper tree1).
  { apply (Forall2_functional positional_stmt); [|exact Hpos].
    apply Forall_forall. intros s _ s'. apply positional_stmt_unique. }
  split; [|split].
  - intros tree. apply Forall2_map_right, Forall_forall. intros s _.
    apply positional_visit_stmt.
  - symmetry. exact Htree.
  - subst tree2. unfold run_user_code, count_function_calls.
    rewrite Hp1, Hp2, Hp1', Hp2'. rewrite count_calls_KeywordStripper.
    unfold prepare. rewrite KeywordStripper_idempotent. reflexivity.
Qed.

End Keywords.

(** ** Scripts without a suspension point *)

Section Suspension.
Context (H : host).

Lemma Forall_forallb_imp {A} (p : A -> bool) (Q : A -> Prop) (l : list A) :
  Forall (fun a => p a = true -> Q a) l -> forallb p l = true -> Forall Q l.
Proof.
  induction 1 as [|a l Ha _ IH]; simpl; [constructor|].
  intros [Hp Hl]%andb_prop. constructor; [apply Ha, Hp | apply IH, Hl].
Qed.

(** [KeywordStripper] makes no suspension point. *)
Lemma suspension_free_strip (tools : list string) (e : expr) :
  suspension_free tools e = true -> suspension_free tools (strip_keywords e) = true.
Proof.
  induction e as [c|id|f args kws IHf IHargs IHkws|e IH|items IH|elts IH]
    using expr_ind'; simpl; try (intros Hx; exact Hx).
  - intros [[[Hhead Hf]%andb_prop Hargs]%andb_prop Hkws]%andb_prop.
    rewrite (IHf Hf), forallb_app, andb_true_r.
    rewrite (forallb_map_true _ _ _ (Forall_forallb_imp _ _ _ IHargs Hargs)).
    rewrite (forallb_map_true (fun kw => strip_keywords kw.2) _ _
               (Forall_forallb_imp (fun kw => suspension_free tools kw.2) _ _ IHkws Hkws)).
    destruct f; simpl in *; rewrite ?Hhead; reflexivity.
  - intros Hitems.
    apply (forallb_map_true (fun kv => (kv.1, strip_keywords kv.2))
             (fun kv => suspension_free tools kv.2)).
    exact (Forall_forallb_imp (fun kv => suspension_free tools kv.2) _ _ IH Hitems).
  - intros Helts. apply forallb_map_true. exact (Forall_forallb_imp _ _ _ IH Helts).
Qed.

(** [AwaitTransformer] leaves an expression without a call of a tool as it
    is. *)
Lemma auto_await_suspension_free (tools : list string) (e : expr) :
  suspension_free tools e = true -> auto_await tools e = e.
Proof.
  induction e as [c|id|f args kws IHf IHargs IHkws|e IH|items IH|elts IH]
    using expr_ind'; simpl; try reflexivity; try discriminate.
  - intros [[[Hhead Hf]%andb_prop Hargs]%andb_prop Hkws]%andb_prop.
    rewrite (IHf Hf).
    rewrite (map_id_Forall _ _ (Forall_forallb_imp _ _ _ IHargs Hargs)).
    assert (Hk : map (fun kw : option string * expr => (kw.1, auto_await tools kw.2)) kws = kws).
    { apply map_id_Forall.
      pose proof (Forall_forallb_imp (fun kw => suspension_free tools kw.2) _ _ IHkws Hkws) as Hall.
      eapply Forall_impl; [exact Hall|]. intros [k v] Hv. simpl in *. rewrite Hv. reflexivity. }
    rewrite Hk. destruct f; try reflexivity.
    apply negb_true_iff in Hhead. rewrite Hhead. reflexivity.
  - intros Hitems. f_equal. apply map_id_Forall.
    pose proof (Forall_forallb_imp (fun kv => suspension_free tools kv.2) _ _ IH Hitems) as Hall.
    eapply Forall_impl; [exact Hall|]. intros [k v] Hv. simpl in *. rewrite Hv. reflexivity.
  - intros Helts. f_equal. apply map_id_Forall. exact (Forall_forallb_imp _ _ _ IH Helts).
Qed.

Lemma suspension_free_visit (tools : list string) (s : stmt) :
  suspension_free_stmt tools s = true ->
  suspension_free_stmt tools
    (rewrite_return (visit_stmt (auto_await tools) (visit_stmt strip_keywords s))) = true.
Proof.
  assert (Hexpr : forall e, suspension_free tools e = true ->
                            suspension_free tools (auto_await tools (strip_keywords e)) = true).
  { intros e He. apply suspension_free_strip in He.
    rewrite (auto_await_suspension_free _ _ He). exact He. }
  assert (Hinner : forall s, suspension_free_stmt tools s = true ->
             suspension_free_stmt tools
               (visit_stmt (auto_await tools) (visit_stmt strip_keywords s)) = true).
  { clear s. intros s.
    induction s as [ts e|[e|]|e| |t b IHb|t b c IHb IHc] using stmt_ind'; simpl;
      try reflexivity; try apply Hexpr.
    - intros [Ht Hb]%andb_prop. rewrite (Hexpr _ Ht). simpl.
      rewrite map_map. apply forallb_map_true. exact (Forall_forallb_imp _ _ _ IHb Hb).
    - intros [[Ht Hb]%andb_prop Hc]%andb_prop. rewrite (Hexpr _ Ht). simpl.
      rewrite !map_map. apply andb_true_intro. split; apply forallb_map_true.
      + exact (Forall_forallb_imp _ _ _ IHb Hb).
      + exact (Forall_forallb_imp _ _ _ IHc Hc). }
  intros Hs. specialize (Hinner s Hs).
  destruct (visit_stmt (auto_await tools) (visit_stmt strip_keywords s)) as [| [[]|] | | | |];
    exact Hinner.
Qed.

(** The passes make no suspension point: a script without one is compiled
    to a body without one. *)
Lemma suspension_free_prepare (tree : list stmt) :
  forallb (suspension_free_stmt (Dict.keys (tool_funcs H))) tree = true ->
  forallb (suspension_free_stmt (Dict.keys (tool_funcs H))) (prepare H tree) = true.
Proof.
  intros Htree.
  assert (Hpasses : forallb (suspension_free_stmt (Dict.keys (tool_funcs H))) (passes H tree)
                    = true).
  { unfold passes, AwaitTransformer, KeywordStripper. rewrite !map_map.
    apply forallb_map_true. rewrite forallb_forall in Htree. apply Forall_forall.
    intros s Hs. apply suspension_free_visit, Htree, list_elem_of_In, Hs. }
  rewrite prepare_unfold. destruct (_ && _); [|exact Hpasses].
  rewrite forallb_app, Hpasses. reflexivity.
Qed.

(** *** The timer has no say where nothing is awaited *)

Lemma bind_not_cancelled {A B} (m : res A) (k : A -> state -> res B) :
  not_cancelled m -> (forall a st, not_cancelled (k a st)) -> not_cancelled (bind m k).
Proof. destruct m; simpl; auto. Qed.

Lemma load_name_not_cancelled (scope : list string) (id : string) (st : state) :
  not_cancelled (load_name H scope id st).
Proof.
  unfold load_name. destruct (bool_decide _).
  - destruct (Dict.get (locals st) id); exact I.
  - destruct (Dict.get (globals st) id); [exact I|].
    destruct (Dict.get (globals st) "__builtins__") as [[]|]; try exact I.
    destruct (Dict.get _ id); exact I.
Qed.

(** A call makes a coroutine, or is a builtin: it does not suspend. *)
Lemma apply_not_cancelled (f : value) (args : list value) (st : state) :
  not_cancelled (apply H f args st).
Proof.
  destruct f as [| | | | | | |[]| |]; simpl; try exact I.
  - destruct (call_builtin H name args); exact I.
  - destruct args as [|x [|y args]]; try exact I.
    destruct (Dict.get (globals st) "result_holder"); exact I.
Qed.

Lemma eval_list_not_cancelled (ev : expr -> state -> res value) (l : list expr) :
  Forall (fun e => forall st, not_cancelled (ev e st)) l ->
  forall st, not_cancelled (eval_list ev l st).
Proof.
  induction 1 as [|e l He _ IH]; intros st; simpl; [exact I|].
  apply bind_not_cancelled; [apply He|]. intros v st1.
  apply bind_not_cancelled; [apply IH|]. intros vs st2. exact I.
Qed.

Lemma eval_items_not_cancelled (ev : expr -> state -> res value)
    (l : list (string * expr)) :
  Forall (fun kv => forall st, not_cancelled (ev kv.2 st)) l ->
  forall acc st, not_cancelled (eval_items ev l acc st).
Proof.
  induction 1 as [|kv l He _ IH]; intros acc st; simpl; [exact I|].
  apply bind_not_cancelled; [apply He|]. intros v st1. apply IH.
Qed.

(** An expression without a suspension point is evaluated to its end,
    whatever the time. *)
Lemma eval_not_cancelled (tools scope : list string) (deadline : nat) (e : expr) :
  suspension_free tools e = true ->
  forall st, not_cancelled (eval H scope deadline e st).
Proof.
  induction e as [c|id|f args kws IHf IHargs IHkws|e IH|items IH|elts IH]
    using expr_ind'; simpl; try discriminate.
  - intros _ st. exact I.
  - intros _ st. apply load_name_not_cancelled.
  - intros [[[_ Hf]%andb_prop Hargs]%andb_prop _]%andb_prop st.
    apply bind_not_cancelled; [apply IHf, Hf|]. intros fv st1.
    apply bind_not_cancelled.
    + apply eval_list_not_cancelled. exact (Forall_forallb_imp _ _ _ IHargs Hargs).
    + intros vs st2. destruct kws; [apply apply_not_cancelled | exact I].
  - intros Hitems st. apply bind_not_cancelled; [|intros; exact I].
    apply eval_items_not_cancelled.
    exact (Forall_forallb_imp (fun kv => suspension_free tools kv.2) _ _ IH Hitems).
  - intros Helts st. apply bind_not_cancelled; [|intros; exact I].
    apply eval_list_not_cancelled. exact (Forall_forallb_imp _ _ _ IH Helts).
Qed.

Lemma on_value_not_cancel (m : res value) (k : value -> state -> sres) :
  not_cancelled m -> (forall v st, not_cancel (k v st)) -> not_cancel (on_value m k).
Proof. destruct m; simpl; auto. Qed.

Lemma run_block_not_cancel (ex : stmt -> state -> sres) (body : list stmt) :
  Forall (fun s => forall st, not_cancel (ex s st)) body ->
  forall st, not_cancel (run_block ex body st).
Proof.
  induction 1 as [|s body Hs _ IH]; intros st; simpl; [exact I|].
  specialize (Hs st). destruct (ex s st); try exact Hs; try exact I. apply IH.
Qed.

(** A statement without a suspension point is not cancelled, however long
    it runs. *)
Lemma exec_not_cancel (tools scope : list string) (deadline fuel : nat) (s : stmt) :
  suspension_free_stmt tools s = true ->
  forall st, not_cancel (exec H scope deadline fuel s st).
Proof.
  revert s. induction fuel as [|fuel IH]; intros s Hs st; [exact I|].
  assert (Hblock : forall b, forallb (suspension_free_stmt tools) b = true ->
                             forall st, not_cancel (run_block (exec H scope deadline fuel) b st)).
  { intros b Hb. apply run_block_not_cancel. rewrite forallb_forall in Hb.
    apply Forall_forall. intros s' Hs'. apply IH, Hb, list_elem_of_In, Hs'. }
  rewrite exec_S. cbv zeta.
  destruct s as [ts e|[e|]|e| |t b|t b c]; simpl in Hs; try exact I.
  - apply on_value_not_cancel; [apply (eval_not_cancelled tools), Hs | intros; exact I].
  - apply on_value_not_cancel; [apply (eval_not_cancelled tools), Hs | intros; exact I].
  - apply on_value_not_cancel; [apply (eval_not_cancelled tools), Hs | intros; exact I].
  - apply andb_prop in Hs as [Ht Hb].
    apply on_value_not_cancel; [apply (eval_not_cancelled tools), Ht|]. intros v st1.
    destruct (truthy v); [|exact I].
    pose proof (Hblock b Hb st1) as Hrun.
    destruct (run_block _ b st1); try exact Hrun; try exact I.
    apply IH. simpl. rewrite Ht, Hb. reflexivity.
  - apply andb_prop in Hs as [[Ht Hb]%andb_prop Hc].
    apply on_value_not_cancel; [apply (eval_not_cancelled tools), Ht|]. intros v st1.
    destruct (truthy v); apply Hblock; assumption.
Qed.

Lemma exec_body_not_cancel (tools scope : list string) (deadline fuel : nat)
    (body : list stmt) (st : state) :
  forallb (suspension_free_stmt tools) body = true ->
  not_cancel (exec_body H scope deadline fuel body st).
Proof.
  intros Hb. apply run_block_not_cancel. rewrite forallb_forall in Hb.
  apply Forall_forall. intros s Hs. apply (exec_not_cancel tools), Hb, list_elem_of_In, Hs.
Qed.

(** C2, as amended.  A script with at most 20 calls and without a
    suspension point -- no call of a registered tool, which the preprocessor
    marks with [await], and no [await] of its own, hence no awaited
    [parallel] -- is not stopped by the timeout of max(3, call_count * 50)
    seconds: however long the run is followed, the timer does not cancel it;
    and when the script loops indefinitely (it never runs to its last
    statement, returns or raises), [run_user_code] does not return --
    neither the [TimeoutError] response nor another. *)
Theorem unsuspended_loop_is_never_stopped (code sid : string) (fs : fsys)
    (counted tree : list stmt) (sandbox : pydict) :
  let body := prepare H tree in
  let run := fun fuel =>
    exec_body H (local_names body) (timeout_of (count_calls counted) * 1000) fuel body
      (initial_state sandbox (session_read sid)) in
  ast_parse H code = Module_ counted ->
  count_calls counted <= MAX_FUNCTIONS ->
  ast_parse H (cleaned_code code) = Module_ tree ->
  build_safe_globals (tool_funcs H) (Some H) fs sid = Returns sandbox ->
  forallb (suspension_free_stmt (Dict.keys (tool_funcs H))) tree = true ->
  (forall fuel st, run fuel <> Cancel st)
  /\ ((forall fuel, ended (run fuel) = false) ->
      forall fuel, run_user_code H code sid fs fuel = None).
Proof.
  intros body run Hp Hc Hp' Hb Hfree.
  assert (Hcancel : forall fuel st, run fuel <> Cancel st).
  { intros fuel st Hrun.
    pose proof (exec_body_not_cancel (Dict.keys (tool_funcs H)) (local_names body)
                  (timeout_of (count_calls counted) * 1000) fuel body
                  (initial_state sandbox (session_read sid))
                  (suspension_free_prepare tree Hfree)) as Hno.
    fold (run fuel) in Hno. rewrite Hrun in Hno. exact Hno. }
  split; [exact Hcancel|].
  intros Hloop fuel.
  assert (Hbody : prepare H tree <> []).
  { intros Hnil. specialize (Hloop 0). unfold run, body in Hloop.
    rewrite Hnil in Hloop. discriminate. }
  rewrite (run_user_code_exec H code sid fs fuel counted tree sandbox Hp Hc Hb Hp' Hbody).
  cbv zeta. fold body. fold (run fuel).
  specialize (Hloop fuel). specialize (Hcancel fuel).
  destruct (run fuel); try discriminate; [|reflexivity].
  exfalso. exact (Hcancel st eq_refl).
Qed.

End Suspension.

(** ** The session record after an error response *)

Section Record.
Context (H : host).
















End Record.

(** ** The messages of the error responses *)

Section Messages.

Lemma append_nil_r (s : string) : s +:+ "" = s.
Proof. induction s as [|c s IH]; [reflexivity|]. rewrite append_cons, IH. reflexivity. Qed.

Lemma append_assoc (a b c : string) : (a +:+ b) +:+ c = a +:+ b +:+ c.
Proof. induction a as [|x a IH]; [reflexivity|]. rewrite !append_cons, IH. reflexivity. Qed.

Lemma cat_cons (x : string) (xs : list string) : Str.cat (x :: xs) = x +:+ Str.cat xs.
Proof. destruct xs; [symmetry; apply append_nil_r | reflexivity]. Qed.

Lemma prefix_refl (s : string) : String.prefix s s = true.
Proof.
  induction s as [|c s IH]; [reflexivity|].
  cbn [String.prefix]. destruct (ascii_dec c c); [exact IH | contradiction].
Qed.

Lemma contains_prefix (s p : string) : String.prefix p s = true -> Str.contains s p = true.
Proof. intros Hp. destruct s; cbn [Str.contains]; rewrite Hp; reflexivity. Qed.

Lemma contains_append_r (a b p : string) :
  Str.contains b p = true -> Str.contains (a +:+ b) p = true.
Proof.
  intros Hb. induction a as [|c a IH]; [exact Hb|].
  rewrite append_cons. cbn [Str.contains]. rewrite IH. apply orb_true_r.
Qed.

Lemma contains_append_l (p t : string) : Str.contains (p +:+ t) p = true.
Proof. apply contains_prefix, prefix_append. Qed.

(** A text that is put together from parts has each of them. *)
Lemma contains_cat (m : string) (parts : list string) :
  m ∈ parts -> Str.contains (Str.cat parts) m = true.
Proof.
  induction parts as [|x xs IH]; intros Hin; [apply elem_of_nil in Hin; contradiction|].
  rewrite cat_cons. apply elem_of_cons in Hin as [->|Hin].
  - apply contains_append_l.
  - apply contains_append_r, IH, Hin.
Qed.

(** The text of the exception is never lost: whatever the clause that
    answers for an exception other than the timeout, and whatever hint it
    adds, the message of the error response has the text of the exception
    in it. *)
Theorem error_message_keeps_the_original_text (n : nat) (e : exn) :
  exn_class e <> TimeoutErr ->
  exists text traceback,
    handle n e = EnvError (VStr text) traceback
    /\ Str.contains text (exn_msg e) = true.
Proof.
  intros Hclass. unfold handle.
  destruct (exn_class e); [contradiction| | | | |].
  - eexists _, _. split; [reflexivity|]. apply contains_cat. repeat constructor.
  - destruct (existsb _ _); eexists _, _; (split; [reflexivity|]);
      apply contains_cat; repeat constructor.
  - destruct (_ && _); eexists _, _; (split; [reflexivity|]).
    + apply contains_cat. repeat constructor.
    + apply contains_append_r, contains_prefix, prefix_refl.
  - eexists _, _. split; [reflexivity|]. unfold attribute_hint.
    destruct (Str.search_word _ _ _); apply contains_cat; repeat constructor.
  - destruct (_ || _); [|destruct (_ || _)]; eexists _, _; (split; [reflexivity|]);
      apply contains_cat; repeat constructor.
Qed.

Lemma take_word_append (w s : string) (c : ascii) :
  Str.take_word w = w -> Str.is_word c = false -> Str.take_word (w +:+ String c s) = w.
Proof.
  intros Hw Hc. induction w as [|x w IH].
  - change (Str.take_word (String c s) = ""). cbn [Str.take_word]. rewrite Hc. reflexivity.
  - rewrite append_cons. cbn [Str.take_word] in *.
    destruct (Str.is_word x); [|discriminate].
    injection Hw as Hw. rewrite (IH Hw). reflexivity.
Qed.

Lemma drop_length_append (w s : string) : Str.drop (String.length w) (w +:+ s) = s.
Proof. induction w as [|x w IH]; [reflexivity | exact IH]. Qed.

Lemma take_word_ascii (w : string) : Str.all_ascii_word w = true -> Str.take_word w = w.
Proof.
  induction w as [|c w IH]; [reflexivity|]. cbn [Str.all_ascii_word Str.take_word].
  intros [Hc Hw]%andb_prop. unfold Str.is_word. rewrite Hc, (IH Hw). reflexivity.
Qed.

(** The hint for an [AttributeError] names the first word in quotes of the
    text of the exception.  In the usual text, ['T' object has no attribute
    'a'], that is the type [T] of the object, not the attribute [a] that
    was not found.  The name [T] is taken to be made of letters, digits and
    underscores of ASCII, as the names of the classes of Python and of its
    libraries are. *)
Theorem attribute_hint_names_the_first_quoted_word (T rest : string) :
  T <> "" -> Str.all_ascii_word T = true ->
  Str.search_word "'" "'" ("'" +:+ T +:+ "'" +:+ rest) = Some T
  /\ Str.startswith (attribute_hint ("'" +:+ T +:+ "'" +:+ rest))
       ("AttributeError: '" +:+ T +:+ "' attribute not found.") = true.
Proof.
  intros Hne Hword%take_word_ascii.
  assert (Hsearch : Str.search_word "'" "'" ("'" +:+ T +:+ "'" +:+ rest) = Some T).
  { change ("'" +:+ T +:+ "'" +:+ rest) with (String "'"%char (T +:+ String "'"%char rest)).
    cbn [Str.search_word]. unfold Str.match_word_at.
    rewrite (prefix_append "'" (T +:+ String "'"%char rest) : String.prefix "'" (String "'"%char _) = true).
    change (Str.drop (String.length "'") (String "'"%char (T +:+ String "'"%char rest)))
      with (T +:+ String "'"%char rest).
    cbv zeta. rewrite (take_word_append T rest "'"%char Hword eq_refl).
    rewrite drop_length_append.
    rewrite (prefix_append "'" rest : String.prefix "'" (String "'"%char rest) = true).
    destruct (String.eqb_spec T ""); [contradiction | reflexivity]. }
  split; [exact Hsearch|].
  unfold attribute_hint, Str.startswith. rewrite Hsearch.
  do 3 rewrite cat_cons. set (tail := Str.cat _).
  rewrite <- (append_assoc T _ tail), <- (append_assoc _ _ tail). apply prefix_append.
Qed.

End Messages.

(** ** The examples *)

Section Examples.

(** C1, counterexample.  [x = 'failed'] and [return x]: the response is the
    error response with message "failed", whatever the fuel it is never the
    success response with result [{"x": "failed"}], and nothing is saved. *)
Lemma return_of_flagged_string_is_error :
  run_user_code demo_host (script ["x = 'failed'"; "return x"]) session ∅ 1
  = Some (EnvError (VStr "failed") false, ∅, [FileRead path])
  /\ forall fuel fs' evs,
      run_user_code demo_host (script ["x = 'failed'"; "return x"]) session ∅ fuel
      <> Some (EnvSuccess [("x", VStr "failed")], fs', evs).
Proof.
  split; [vm_compute; reflexivity|].
  intros [|fuel] fs' evs; vm_compute; discriminate.
Qed.

Lemma return_name_gives_named_field_witness :
  run_user_code demo_host (script ["x = 5"; "return x"]) session ∅ 1
  = Some (EnvSuccess [("x", VInt 5)], <[path := JsonFile [("x", VInt 5)]]> ∅,
          [FileRead path; FileRead path; FileWrite path]).
Proof.
  refine (proj2 (return_name_gives_named_field demo_host
            (script ["x = 5"; "return x"]) session ∅ 1
            [Assign ["x"] (Constant (CInt 5)); Return (Some (Name "x"))]
            [Assign ["x"] (Constant (CInt 5))] [] "x" demo_sandbox []
            (State [("x", VInt 5)] demo_sandbox 1 [FileRead path]) (VInt 5)
            _ _ _ _ _ _ _ _ _ _ _)).
  - vm_compute. reflexivity.
  - vm_compute. lia.
  - vm_compute. reflexivity.
  - vm_compute. apply list_elem_of_singleton. reflexivity.
  - vm_compute. reflexivity.
  - vm_compute. reflexivity.
  - constructor.
  - vm_compute. reflexivity.
  - vm_compute. reflexivity.
  - reflexivity.
  - reflexivity.
Defined.

(** C2, counterexample.  [while True: pass] has no call, so its timeout is
    3 seconds, and it has no suspension point: however long the run is
    followed, [run_user_code] has not returned -- no [TimeoutError]
    response, and no other. *)
Lemma busy_loop_is_never_stopped :
  ~ exists fuel response,
      run_user_code demo_host "while True: pass" session ∅ fuel = Some response.
Proof.
  intros (fuel & response & Hrun).
  rewrite (busy_loop_never_returns demo_host "while True: pass" session ∅ demo_sandbox fuel)
    in Hrun; [discriminate | vm_compute; reflexivity ..].
Qed.

(** [while True: pass] and [while 1: pass]: followed for a thousand steps
    the request has not returned. *)
Lemma unsuspended_loop_is_never_stopped_witness :
  run_user_code demo_host "while True: pass" session ∅ 1000 = None
  /\ run_user_code demo_host "while 1: pass" session ∅ 1000 = None.
Proof.
  split.
  - refine (proj2 (unsuspended_loop_is_never_stopped demo_host "while True: pass" session ∅
                     [While (Constant (CBool true)) [Pass]]
                     [While (Constant (CBool true)) [Pass]] demo_sandbox _ _ _ _ _) _ 1000).
    + vm_compute. reflexivity.
    + vm_compute. lia.
    + vm_compute. reflexivity.
    + vm_compute. reflexivity.
    + vm_compute. reflexivity.
    + intros fuel. unfold exec_body.
      change (prepare demo_host [While (Constant (CBool true)) [Pass]])
        with [While (Constant (CBool true)) [Pass]].
      cbn [run_block]. rewrite constant_loop_no_outcome; reflexivity.
  - refine (proj2 (unsuspended_loop_is_never_stopped demo_host "while 1: pass" session ∅
                     [While (Constant (CInt 1)) [Pass]]
                     [While (Constant (CInt 1)) [Pass]] demo_sandbox _ _ _ _ _) _ 1000).
    + vm_compute. reflexivity.
    + vm_compute. lia.
    + vm_compute. reflexivity.
    + vm_compute. reflexivity.
    + vm_compute. reflexivity.
    + intros fuel. unfold exec_body.
      change (prepare demo_host [While (Constant (CInt 1)) [Pass]])
        with [While (Constant (CInt 1)) [Pass]].
      cbn [run_block]. rewrite constant_loop_no_outcome; reflexivity.
Defined.

Lemma suspended_call_times_out_witness :
  run_user_code demo_host "r = slow()" session ∅ 1
  = Some (EnvError (VStr "Execution timed out after 50 seconds") false, ∅,
          [FileRead path; ToolCall "slow" []]).
Proof.
  refine (suspended_call_times_out demo_host "r = slow()" session ∅ 0
            [Assign ["r"] (Call (Name "slow") [] [])] [] [] ["r"] "slow" [] []
            demo_sandbox (initial_state demo_sandbox [FileRead path])
            (State [] demo_sandbox 1 [FileRead path]) []
            _ _ _ _ _ _ _ _ _ _).
  - vm_compute. reflexivity.
  - vm_compute. lia.
  - vm_compute. reflexivity.
  - vm_compute. repeat constructor.
  - vm_compute. intros [E|E%elem_of_nil]%elem_of_cons; [discriminate | exact E].
  - vm_compute. reflexivity.
  - reflexivity.
  - vm_compute. reflexivity.
  - reflexivity.
  - apply Nat.leb_le. vm_compute. reflexivity.
Defined.

Lemma too_many_calls_rejected_witness :
  run_user_code demo_host (script (replicate 21 "f()")) session ∅ 0
  = Some (EnvError (VStr "Too many functions (21 > 20)") false, ∅, []).
Proof.
  refine (too_many_calls_rejected demo_host (script (replicate 21 "f()")) session ∅ 0
            (replicate 21 (Expr (Call (Name "f") [] []))) _ _).
  - vm_compute. reflexivity.
  - vm_compute. lia.
Defined.

(** C4, counterexample.  [open_page] answers with an outcome whose
    [success] is false and whose [error] is "boom"; the script returns it.
    The message of the error response is "Error executing tool: boom", the
    serialized field that the string scan flagged, and whatever the fuel it
    is never "boom", the [error] field of the outcome. *)
Lemma outcome_error_is_prefixed :
  run_user_code demo_host (script ["r = open_page('u')"; "return r"]) session ∅ 1
  = Some (EnvError (VStr "Error executing tool: boom") false, ∅,
          [FileRead path; ToolCall "open_page" [VStr "u"]])
  /\ forall fuel traceback fs' evs,
      run_user_code demo_host (script ["r = open_page('u')"; "return r"]) session ∅ fuel
      <> Some (EnvError (VStr "boom") traceback, fs', evs).
Proof.
  split; [vm_compute; reflexivity|].
  intros [|fuel] traceback fs' evs; vm_compute; discriminate.
Qed.

Lemma unsuccessful_outcome_is_reported_witness :
  run_user_code demo_host (script ["r = open_page('u')"; "return r"]) session ∅ 1
  = Some (EnvError (VStr "Error executing tool: boom") false, ∅,
          [FileRead path; ToolCall "open_page" [VStr "u"]]).
Proof.
  refine (proj1 (proj2 (unsuccessful_outcome_is_reported demo_host
            (script ["r = open_page('u')"; "return r"]) session ∅ 1
            [Assign ["r"] (Call (Name "open_page") [Constant (CStr "u")] []);
             Return (Some (Name "r"))]
            [Assign ["r"] (Call (Name "open_page") [Constant (CStr "u")] []);
             Return (Some (Name "r"))]
            demo_sandbox
            (State [("r", ActionResultOutput false VNone (VStr "boom"))] demo_sandbox 102
                   [FileRead path; ToolCall "open_page" [VStr "u"]])
            [] [] [] [] "r" (ActionResultOutput false VNone (VStr "boom"))
            (VBool false) VNone (VStr "boom") _ _ _ _ _ _ _ _ _ _ _)) _).
  - vm_compute. reflexivity.
  - vm_compute. lia.
  - vm_compute. reflexivity.
  - vm_compute. reflexivity.
  - vm_compute. reflexivity.
  - reflexivity.
  - reflexivity.
  - reflexivity.
  - reflexivity.
  - reflexivity.
  - reflexivity.
  - reflexivity.
Defined.

(** C5.  A script whose only malformation is an unterminated triple-quoted
    string: the repaired text parses, but the response is the generic error
    response for the [SyntaxError] that [count_function_calls] raised on the
    text as received, before the repair. *)
Theorem unterminated_triple_quote_is_not_repaired :
  let code := "x = " +:+ Str.triple_quote +:+ "abc" in
  ast_parse demo_host code = NoParse "unterminated triple-quoted string literal"
  /\ ast_parse demo_host (cleaned_code code)
     = Module_ [Assign ["x"] (Constant (CStr ("abc" +:+ Str.nl)))]
  /\ forall sid fs fuel,
       run_user_code demo_host code sid fs fuel
       = Some (EnvError (VStr "SyntaxError: unterminated triple-quoted string literal") true,
               fs, []).
Proof.
  intros code. split; [vm_compute; reflexivity|]. split; [vm_compute; reflexivity|].
  intros sid fs fuel.
  rewrite (run_user_code_no_parse demo_host code sid fs fuel
             "unterminated triple-quoted string literal") by (vm_compute; reflexivity).
  reflexivity.
Qed.

(** C6.  [final_answer(5)] and no [return]: the binding records 5 in the
    sandbox, under [result_holder], but [run_user_code] never reads that
    entry; the response is the success response with result
    [{"result": None}]. *)
Theorem final_answer_is_not_the_result :
  (exists st,
      exec_body demo_host [] (timeout_of 1 * 1000) 1
        (prepare demo_host [Expr (Call (Name "final_answer") [Constant (CInt 5)] [])])
        (initial_state demo_sandbox [FileRead path]) = Next st
      /\ Dict.get (globals st) "result_holder" = Some (VInt 5))
  /\ forall fuel,
      run_user_code demo_host "final_answer(5)" session ∅ (S fuel)
      = Some (EnvSuccess [("result", VNone)], <[path := JsonFile [("result", VNone)]]> ∅,
              [FileRead path; FileRead path; FileWrite path]).
Proof.
  split.
  - eexists. split; vm_compute; reflexivity.
  - intros fuel. vm_compute. reflexivity.
Qed.

(** C7, counterexample.  [f(y=2, x=1)] for a callee declared as [f(x, y)]:
    the rewrite gives [f(2, 1)], the order of the call, where the
    declaration order of the parameters would give [f(1, 2)]. *)
Lemma keywords_keep_the_order_of_the_call :
  let two := Constant (CInt 2) in
  let one := Constant (CInt 1) in
  Mini.parse "f(y=2, x=1)" = Module_ [Expr (Call (Name "f") [] [(Some "y", two); (Some "x", one)])]
  /\ KeywordStripper [Expr (Call (Name "f") [] [(Some "y", two); (Some "x", one)])]
     = [Expr (Call (Name "f") [two; one] [])]
  /\ positional_in_declaration_order ["x"; "y"] [] [(Some "y", two); (Some "x", one)]
     = [one; two]
  /\ [two; one] <> [one; two].
Proof. repeat split; try (vm_compute; reflexivity). discriminate. Qed.

(** A call with a positional and a keyword argument, whose keyword argument
    is a call with a keyword argument. *)
Lemma keyword_script_runs_as_positional_witness :
  run_user_code demo_host "r = search('x', q=search(q='a'))" session ∅ 1
  = run_user_code demo_host "r = search('x', search('a'))" session ∅ 1.
Proof.
  refine (proj2 (proj2 (keyword_script_runs_as_positional demo_host
            "r = search('x', q=search(q='a'))" "r = search('x', search('a'))" session ∅ 1
            [Assign ["r"]
               (Call (Name "search") [Constant (CStr "x")]
                  [(Some "q", Call (Name "search") [] [(Some "q", Constant (CStr "a"))])])]
            [Assign ["r"]
               (Call (Name "search")
                  [Constant (CStr "x"); Call (Name "search") [Constant (CStr "a")] []] [])]
            _ _ _ _ _))).
  - vm_compute. reflexivity.
  - vm_compute. reflexivity.
  - vm_compute. reflexivity.
  - vm_compute. reflexivity.
  - repeat (constructor; simpl).
Defined.

(** C9, counterexample.  Two scripts with no top-level [return] and the
    top-level assignment [result = 5].  In the first a [return] under an
    [if] ends the run before the synthesized [return result]: the result is
    [{"result": 7}], and whatever the fuel it is never [{"result": 5}].  In
    the second [result] is assigned again: the result is [{"result": 6}]. *)
Lemma result_need_not_be_five :
  run_user_code demo_host (script ["result = 5"; "if True: return 7"]) session ∅ 2
  = Some (EnvSuccess [("result", VInt 7)], <[path := JsonFile [("result", VInt 7)]]> ∅,
          [FileRead path; FileRead path; FileWrite path])
  /\ (forall fuel fs' evs,
        run_user_code demo_host (script ["result = 5"; "if True: return 7"]) session ∅ fuel
        <> Some (EnvSuccess [("result", VInt 5)], fs', evs))
  /\ run_user_code demo_host (script ["result = 5"; "result = 6"]) session ∅ 1
     = Some (EnvSuccess [("result", VInt 6)], <[path := JsonFile [("result", VInt 6)]]> ∅,
             [FileRead path; FileRead path; FileWrite path]).
Proof.
  split; [vm_compute; reflexivity|]. split; [|vm_compute; reflexivity].
  intros [|[|fuel]] fs' evs; vm_compute; discriminate.
Qed.

Lemma result_assignment_is_returned_witness :
  run_user_code demo_host "result = 5" session ∅ 1
  = Some (EnvSuccess [("result", VInt 5)], <[path := JsonFile [("result", VInt 5)]]> ∅,
          [FileRead path; FileRead path; FileWrite path]).
Proof.
  refine (proj2 (result_assignment_is_returned demo_host "result = 5" session ∅ 1
            [Assign ["result"] (Constant (CInt 5))] [Assign ["result"] (Constant (CInt 5))]
            demo_sandbox [] (State [("result", VInt 5)] demo_sandbox 1 [FileRead path])
            _ _ _ _ _ _ _ _ _ _ _)).
  - vm_compute. reflexivity.
  - vm_compute. lia.
  - vm_compute. reflexivity.
  - reflexivity.
  - apply list_elem_of_singleton. reflexivity.
  - vm_compute. reflexivity.
  - vm_compute. reflexivity.
  - constructor.
  - vm_compute. reflexivity.
  - reflexivity.
  - reflexivity.
Defined.


Lemma json_value_is_serialized_unchanged_witness :
  serialize_result demo_host (VList [VInt 1; VDict [("k", VStr "v")]])
  = Returns (VList [VInt 1; VDict [("k", VStr "v")]]).
Proof.
  refine (json_value_is_serialized_unchanged demo_host _ _). reflexivity.
Defined.

(** *** Instances of the further properties *)

Lemma saving_twice_is_saving_once_witness :
  saved (saved ∅ session [("a", VInt 1)]) session [("a", VInt 1)]
  = saved ∅ session [("a", VInt 1)].
Proof.
  refine (proj2 (saving_twice_is_saving_once ∅ session [] [("a", VInt 1)] _ _ _ _)).
  - reflexivity.
  - constructor.
  - repeat constructor.
  - unfold Dict.wf. simpl. apply NoDup_singleton.
Defined.

(** The session holds [{"search": 5, "parallel": 7}], and [search] is a
    tool: the sandbox binds [search] to 5; built without the registry, it
    binds [parallel] to 7. *)
Lemma session_variables_shadow_the_sandbox_witness :
  exists sandbox,
    build_safe_globals (tool_funcs demo_host) None
      (<[path := JsonFile [("search", VInt 5); ("parallel", VInt 7)]]> ∅) session
    = Returns sandbox
    /\ Dict.get sandbox "search" = Some (VInt 5)
    /\ Dict.get sandbox "parallel" = Some (VInt 7).
Proof.
  destruct (session_variables_shadow_the_sandbox (tool_funcs demo_host) None
              (<[path := JsonFile [("search", VInt 5); ("parallel", VInt 7)]]> ∅) session
              [("search", VInt 5); ("parallel", VInt 7)])
    as (sandbox & Hbuild & Hget & _ & Hparallel & _).
  - discriminate.
  - vm_compute. reflexivity.
  - unfold Dict.wf. simpl. apply NoDup_cons. split; [|apply NoDup_singleton].
    intros [E|E%elem_of_nil]%elem_of_cons; [discriminate | exact E].
  - exists sandbox. split; [exact Hbuild|]. split.
    + apply Hget; [reflexivity | discriminate | discriminate].
    + apply Hparallel; reflexivity.
Defined.

Lemma globals_schema_mirrors_the_sandbox_witness :
  exists schema,
    Dict.get demo_sandbox "globals_schema" = Some (VDict schema)
    /\ (forall k, k ∈ ["__builtins__"; "final_answer"; "parallel"] -> Dict.get schema k = None)
    /\ (forall k, k ∉ ["__builtins__"; "final_answer"; "parallel"; "globals_schema"] ->
                  Dict.get schema k = Dict.get demo_sandbox k).
Proof.
  refine (globals_schema_mirrors_the_sandbox (tool_funcs demo_host) (Some demo_host) ∅ session
            demo_sandbox _).
  vm_compute. reflexivity.
Defined.

Lemma corrupt_record_fails_every_request_witness :
  exists response,
    run_user_code demo_host "x = 5" session (<[path := CorruptFile]> ∅) 1
    = Some (response, <[path := CorruptFile]> ∅, [])
    \/ run_user_code demo_host "x = 5" session (<[path := CorruptFile]> ∅) 1
       = Some (response, <[path := CorruptFile]> ∅, [FileRead (session_path session)]).
Proof.
  refine (proj2 (corrupt_record_fails_every_request demo_host "x = 5" session
                   (<[path := CorruptFile]> ∅) 1 _) _).
  - vm_compute. reflexivity.
  - discriminate.
Defined.

Lemma success_response_is_saved_witness :
  exists existing,
    load_session_vars stored session = Returns existing
    /\ (<[path := JsonFile [("x", VInt 5)]]> stored : fsys)
       = <[session_path session := JsonFile (Dict.update existing [("x", VInt 5)])]> stored
    /\ load_session_vars (<[path := JsonFile [("x", VInt 5)]]> stored) session
       = Returns (Dict.update existing [("x", VInt 5)])
    /\ json_safe (Dict.update existing [("x", VInt 5)]).
Proof.
  refine (success_response_is_saved demo_host (script ["x = 5"; "return x"]) session
            stored _ 1 [("x", VInt 5)] [FileRead path; FileRead path; FileWrite path] _).
  vm_compute. reflexivity.
Defined.

Lemma saved_results_are_globals_of_the_next_request_witness :
  exists sandbox,
    build_safe_globals (tool_funcs demo_host) (Some demo_host) (<[path := JsonFile [("x", VInt 5)]]> ∅) session
    = Returns sandbox
    /\ forall k v, Dict.get [("x", VInt 5)] k = Some v ->
                   k <> "parallel" -> k <> "globals_schema" -> Dict.get sandbox k = Some v.
Proof.
  refine (saved_results_are_globals_of_the_next_request demo_host
            (script ["x = 5"; "return x"]) session ∅ _ 1 [("x", VInt 5)] []
            [FileRead path; FileRead path; FileWrite path] _ _ _ _ _).
  - vm_compute. reflexivity.
  - discriminate.
  - reflexivity.
  - apply NoDup_nil_2.
  - unfold Dict.wf. simpl. apply NoDup_singleton.
Defined.

Lemma session_variable_is_returned_witness :
  run_user_code demo_host "return x" session stored 1
  = Some (EnvSuccess [("x", VInt 1)], <[session_path session := JsonFile [("x", VInt 1)]]> stored,
          [FileRead (session_path session); FileRead (session_path session);
           FileWrite (session_path session)]).
Proof.
  refine (session_variable_is_returned demo_host "return x" session stored 0
            [Return (Some (Name "x"))] "x" [("x", VInt 1)] (VInt 1)
            _ _ _ _ _ _ _ _ _ _ _ _).
  - vm_compute. reflexivity.
  - vm_compute. lia.
  - vm_compute. reflexivity.
  - discriminate.
  - vm_compute. reflexivity.
  - unfold Dict.wf. simpl. apply NoDup_singleton.
  - repeat constructor.
  - reflexivity.
  - discriminate.
  - discriminate.
  - reflexivity.
  - reflexivity.
Defined.

(** [return open_page('u')], where [open_page] fails: the response is the
    success response, with the text of the failure as its result. *)
Lemma returned_value_is_not_scanned_witness :
  run_user_code demo_host "return open_page('u')" session ∅ 1
  = Some (EnvSuccess [("result", VStr "Error executing tool: boom")],
          <[session_path session := JsonFile [("result", VStr "Error executing tool: boom")]]> ∅,
          [FileRead path; ToolCall "open_page" [VStr "u"]; FileRead path; FileWrite path]).
Proof.
  refine (returned_value_is_not_scanned demo_host "return open_page('u')" session ∅ 0
            [Return (Some (Call (Name "open_page") [Constant (CStr "u")] []))]
            [] [] (Call (Name "open_page") [Constant (CStr "u")] [])
            demo_sandbox [] (initial_state demo_sandbox [FileRead path])
            (State [] demo_sandbox 101 [FileRead path; ToolCall "open_page" [VStr "u"]])
            (ActionResultOutput false VNone (VStr "boom"))
            (VStr "Error executing tool: boom")
            _ _ _ _ _ _ _ _ _ _ _ _ _).
  - vm_compute. reflexivity.
  - vm_compute. lia.
  - vm_compute. reflexivity.
  - discriminate.
  - vm_compute. reflexivity.
  - reflexivity.
  - constructor.
  - reflexivity.
  - vm_compute. reflexivity.
  - discriminate.
  - reflexivity.
  - reflexivity.
  - reflexivity.
Defined.

(** The session holds [{"x": 1}]; the script [x = x] cannot read it. *)
Lemma assigned_name_hides_the_session_variable_witness :
  run_user_code demo_host "x = x" session stored 1
  = Some (handle 0 (Exn UnboundLocalErr "UnboundLocalError"
                      "cannot access local variable 'x' where it is not associated with a value"),
          stored, [FileRead path]).
Proof.
  refine (assigned_name_hides_the_session_variable demo_host "x = x" session stored 0
            [Assign ["x"] (Name "x")] [] [] ["x"] "x" stored_sandbox
            (initial_state stored_sandbox [FileRead path]) _ _ _ _ _ _ _).
  - vm_compute. reflexivity.
  - vm_compute. lia.
  - vm_compute. reflexivity.
  - vm_compute. apply list_elem_of_here.
  - vm_compute. reflexivity.
  - reflexivity.
  - reflexivity.
Defined.

Lemma empty_script_is_an_error_witness :
  run_user_code demo_host "" session ∅ 0
  = Some (EnvError (VStr "ValueError: empty body on AsyncFunctionDef") true, ∅,
          [FileRead path]).
Proof.
  refine (empty_script_is_an_error demo_host "" session ∅ 0 [] demo_sandbox _ _ _ _).
  - vm_compute. reflexivity.
  - vm_compute. lia.
  - vm_compute. reflexivity.
  - vm_compute. reflexivity.
Defined.

(** [a = result = 5]: [result] is assigned, but it is not the first target,
    and the result is [{"result": None}]. *)
Lemma script_without_result_returns_none_witness :
  run_user_code demo_host "a = result = 5" session ∅ 1
  = Some (EnvSuccess [("result", VNone)],
          <[session_path session := JsonFile [("result", VNone)]]> ∅,
          [FileRead path; FileRead path; FileWrite path]).
Proof.
  refine (proj2 (script_without_result_returns_none demo_host "a = result = 5" session ∅ 1
            [Assign ["a"; "result"] (Constant (CInt 5))]
            [Assign ["a"; "result"] (Constant (CInt 5))]
            demo_sandbox []
            (State [("a", VInt 5); ("result", VInt 5)] demo_sandbox 1 [FileRead path])
            _ _ _ _ _ _ _ _ _ _ _)).
  - vm_compute. reflexivity.
  - vm_compute. lia.
  - vm_compute. reflexivity.
  - discriminate.
  - reflexivity.
  - vm_compute. intros [E|E%elem_of_nil]%elem_of_cons; [discriminate | exact E].
  - vm_compute. reflexivity.
  - reflexivity.
  - constructor.
  - vm_compute. reflexivity.
  - reflexivity.
Defined.

Lemma final_answer_keeps_the_first_value_witness :
  apply demo_host (VNative NFinalAnswer) [VInt 2]
    (set_global (initial_state demo_sandbox []) "result_holder" (VInt 1))
  = Ok (VInt 1) (set_global (initial_state demo_sandbox []) "result_holder" (VInt 1)).
Proof.
  refine (proj2 (final_answer_keeps_the_first_value demo_host (VInt 1) (VInt 2) (VInt 1)
                   (initial_state demo_sandbox []) _ _)).
  vm_compute. reflexivity.
Defined.

(** [r = await search('a')]: [search] answers "ok", and the second [await]
    raises. *)
Lemma explicit_await_is_awaited_twice_witness :
  run_user_code demo_host "r = await search('a')" session ∅ 1
  = Some (EnvError (VStr "TypeError: object str can't be used in 'await' expression") true,
          ∅, [FileRead path; ToolCall "search" [VStr "a"]]).
Proof.
  refine (proj2 (explicit_await_is_awaited_twice demo_host "r = await search('a')" session ∅ 0
            [Assign ["r"] (Await (Call (Name "search") [Constant (CStr "a")] []))]
            [] [] ["r"] "search" [Constant (CStr "a")] []
            demo_sandbox (initial_state demo_sandbox [FileRead path])
            (State [] demo_sandbox 1 [FileRead path]) [VStr "a"] (VStr "ok")
            _ _ _ _ _ _ _ _ _ _ _ _)).
  - vm_compute. reflexivity.
  - vm_compute. lia.
  - vm_compute. reflexivity.
  - vm_compute. repeat constructor.
  - vm_compute. intros [E|E%elem_of_nil]%elem_of_cons; [discriminate | exact E].
  - vm_compute. reflexivity.
  - reflexivity.
  - vm_compute. reflexivity.
  - reflexivity.
  - apply Nat.ltb_lt. vm_compute. reflexivity.
  - reflexivity.
  - exact I.
Defined.

Lemma error_message_keeps_the_original_text_witness :
  exists text traceback,
    handle 0 (TypeError "boom") = EnvError (VStr text) traceback
    /\ Str.contains text "boom" = true.
Proof.
  refine (error_message_keeps_the_original_text 0 (TypeError "boom") _). discriminate.
Defined.

Lemma attribute_hint_names_the_first_quoted_word_witness :
  Str.startswith (attribute_hint "'NoneType' object has no attribute 'text'")
    "AttributeError: 'NoneType' attribute not found." = true.
Proof.
  refine (proj2 (attribute_hint_names_the_first_quoted_word "NoneType"
                   " object has no attribute 'text'" _ _)).
  - discriminate.
  - reflexivity.
Defined.

Lemma tool_call_binds_the_answer_witness :
  exec_body demo_host ["r"] (50 * 1000) 1
    (passes demo_host [Assign ["r"] (Call (Name "search") [Constant (CStr "a")] [])])
    (initial_state demo_sandbox [])
  = Next (State [("r", VStr "ok")] demo_sandbox 101 [ToolCall "search" [VStr "a"]]).
Proof.
  refine (tool_call_binds_the_answer demo_host ["r"] (50 * 1000) 0 ["r"] "search"
            [Constant (CStr "a")] [] (initial_state demo_sandbox [])
            (State [] demo_sandbox 1 []) [VStr "a"] _ _ _ _ _).
  - vm_compute. repeat constructor.
  - intros [E|E%elem_of_nil]%elem_of_cons; [discriminate | exact E].
  - reflexivity.
  - reflexivity.
  - apply Nat.ltb_lt. vm_compute. reflexivity.
Defined.

Lemma parallel_is_not_awaited_witness :
  exec_body demo_host ["r"] (3 * 1000) 1
    (passes demo_host [Assign ["r"] (Call (Name "parallel") [ListE [Constant (CStr "search")]] [])])
    (initial_state demo_sandbox [])
  = Next (State [("r", VCoroPar [VList [VStr "search"]])] demo_sandbox 1 []).
Proof.
  refine (proj2 (parallel_is_not_awaited demo_host ["r"] (3 * 1000) 0 ["r"]
                   [ListE [Constant (CStr "search")]] [] (initial_state demo_sandbox [])
                   (State [] demo_sandbox 1 []) [VList [VStr "search"]] _ _ _ _)).
  - vm_compute. intros Hin.
    repeat (apply elem_of_cons in Hin as [Hin|Hin]; [discriminate|]).
    apply elem_of_nil in Hin. exact Hin.
  - intros [E|E%elem_of_nil]%elem_of_cons; [discriminate | exact E].
  - reflexivity.
  - reflexivity.
Defined.

Lemma keyword_free_script_is_unchanged_witness :
  KeywordStripper [Assign ["r"] (Call (Name "search") [Constant (CStr "a")] [])]
  = [Assign ["r"] (Call (Name "search") [Constant (CStr "a")] [])].
Proof.
  refine (keyword_free_script_is_unchanged
            [Assign ["r"] (Call (Name "search") [Constant (CStr "a")] [])] _).
  reflexivity.
Defined.

Lemma successful_mapping_has_no_failure_witness :
  Dict.keys [("a", VInt 1); ("b", VStr "ok")] = Dict.keys [("a", VInt 1); ("b", VStr "ok")]
  /\ Forall (fun v => signals_failure v = false) (Dict.values [("a", VInt 1); ("b", VStr "ok")])
  /\ Forall (fun kv => unsuccessful kv.2 = false) [("a", VInt 1); ("b", VStr "ok")].
Proof.
  refine (successful_mapping_has_no_failure demo_host
            [("a", VInt 1); ("b", VStr "ok")] [("a", VInt 1); ("b", VStr "ok")] _).
  reflexivity.
Defined.

(** [open] is not a name of the sandbox. *)
Lemma unlisted_name_is_not_defined_witness :
  load_name demo_host [] "open" (initial_state demo_sandbox [])
  = Raise (Exn NameErr "NameError" "name 'open' is not defined")
      (initial_state demo_sandbox []).
Proof.
  refine (unlisted_name_is_not_defined demo_host (tool_funcs demo_host) [] demo_sandbox
            (Some demo_host) ∅ session [] "open" (initial_state demo_sandbox []) _ _ _ _ _ _ _ _ _ _ _).
  - vm_compute. reflexivity.
  - intros _. reflexivity.
  - reflexivity.
  - apply not_elem_of_nil.
  - apply (bool_decide_unpack _). vm_compute. exact I.
  - apply (bool_decide_unpack _). vm_compute. exact I.
  - apply (bool_decide_unpack _). vm_compute. exact I.
  - vm_compute. reflexivity.
  - reflexivity.
  - vm_compute. reflexivity.
  - reflexivity.
Defined.

Lemma safe_builtin_is_the_builtin_witness :
  load_name demo_host [] "__import__" (initial_state demo_sandbox [])
  = Ok (VNative (NBuiltin "__import__")) (initial_state demo_sandbox []).
Proof.
  refine (safe_builtin_is_the_builtin demo_host (tool_funcs demo_host) [] demo_sandbox
            (Some demo_host) ∅ session [] "__import__" (initial_state demo_sandbox []) _ _ _ _ _ _ _ _ _ _ _).
  - vm_compute. reflexivity.
  - intros _. reflexivity.
  - reflexivity.
  - apply not_elem_of_nil.
  - apply (bool_decide_unpack _). vm_compute. exact I.
  - apply (bool_decide_unpack _). vm_compute. exact I.
  - apply (bool_decide_unpack _). vm_compute. exact I.
  - vm_compute. reflexivity.
  - reflexivity.
  - vm_compute. reflexivity.
  - reflexivity.
Defined.

End Examples.
